(** * BuildCache: the cache engine, the program wrapper and the command line

    A shallow embedding of [src/cache/cache.cpp],
    [src/wrappers/program_wrapper.cpp] and [src/main.cpp].

    C++ code that throws, catches and mutates the world (the caches, the file
    system, the standard streams, the debug log) is written in a
    state-and-exception monad.  The classes the engine talks to
    ([local_cache_t], [remote_cache_t], [file::], [sys::], [debug::],
    [config::]) are not part of the embedded sources: the engine is
    parameterised by a record of their operations, so that every theorem
    stated over an arbitrary record holds whatever those operations do.
    A reference implementation of the record, modelled from the
    specification, is used where a statement needs the contents of a store. *)

From Stdlib Require Import ZArith String Ascii List Lia Bool.
From stdpp Require Import gmap strings list fin_maps pretty.

Import ListNotations.
Local Open Scope Z_scope.
Local Open Scope string_scope.

(** ** Exceptions and outcomes *)

(** The C++ exception classes the sources distinguish in their [catch]
    clauses. *)
Inductive exception : Type :=
| runtime_error (what : string)   (* std::runtime_error and its subclasses *)
| std_exception (what : string)   (* any other subclass of std::exception *)
| foreign_exception.              (* a thrown value outside std::exception *)

(** How a call ends: it returns, an exception leaves it, or the process is
    ended by [std::terminate] (an exception reached a [noexcept] boundary). *)
Inductive outcome (A : Type) : Type :=
| Normal (a : A)
| Raise (e : exception)
| Terminate.

Arguments Normal {A} a.
Arguments Raise {A} e.
Arguments Terminate {A}.

(** A computation over a world [W]. The world after a [Raise] keeps the
    effects performed before the exception was thrown. *)
Definition M (W A : Type) : Type := W -> outcome A * W.

Definition ret {W A} (a : A) : M W A := fun w => (Normal a, w).

Definition throw {W A} (e : exception) : M W A := fun w => (Raise e, w).

Definition bind {W A B} (c : M W A) (k : A -> M W B) : M W B :=
  fun w =>
    match c w with
    | (Normal a, w') => k a w'
    | (Raise e, w') => (Raise e, w')
    | (Terminate, w') => (Terminate, w')
    end.

Notation "x <- c ;; k" := (bind c (fun x => k))
  (at level 62, c at next level, right associativity).
Notation "c ;;; k" := (bind c (fun _ => k))
  (at level 62, right associativity).

(** A [catch] clause: [None] when the clause does not match the exception. *)
Definition handler (W A : Type) : Type := exception -> option (M W A).

(** [catch (const std::runtime_error& e)] *)
Definition catch_runtime_error {W A} (k : string -> M W A) : handler W A :=
  fun e =>
    match e with
    | runtime_error what => Some (k what)
    | _ => None
    end.

(** [catch (std::exception& e)]: matches every subclass of std::exception. *)
Definition catch_std_exception {W A} (k : string -> M W A) : handler W A :=
  fun e =>
    match e with
    | runtime_error what => Some (k what)
    | std_exception what => Some (k what)
    | foreign_exception => None
    end.

(** [catch (...)] *)
Definition catch_any {W A} (k : M W A) : handler W A := fun _ => Some k.

(** Two [catch] clauses in sequence: the first that matches is taken. *)
Definition or_else {W A} (h1 h2 : handler W A) : handler W A :=
  fun e =>
    match h1 e with
    | Some k => Some k
    | None => h2 e
    end.

Definition try_catch {W A} (body : M W A) (h : handler W A) : M W A :=
  fun w =>
    match body w with
    | (Raise e, w') =>
        match h e with
        | Some k => k w'
        | None => (Raise e, w')
        end
    | r => r
    end.

(** A function declared [noexcept]: an exception that would leave it ends the
    process. *)
Definition noexcept {W A} (body : M W A) : M W A :=
  fun w =>
    match body w with
    | (Raise _, w') => (Terminate, w')
    | r => r
    end.

(** [throw e;] where [e] has static type [std::exception&]: the thrown object
    is a copy of the std::exception base, whatever the dynamic type was. The
    text of [what()] of a bare std::exception is the runtime library's. *)
Definition bare_exception_what : string := "std::exception".

Definition throw_sliced {W A} : M W A :=
  throw (std_exception bare_exception_what).

(** ** 64-bit signed integers *)

Definition wrap_int64 (z : Z) : Z :=
  (z + 2 ^ 63) mod 2 ^ 64 - 2 ^ 63.

Definition add_int64 (a b : Z) : Z := wrap_int64 (a + b).

(** [static_cast<int64_t>(s.size())] *)
Definition size_int64 (s : string) : Z :=
  wrap_int64 (Z.of_nat (String.length s)).

Definition max_int64 : Z := 2 ^ 63 - 1.

(** ** std::map<std::string, T>

    The items of the map in key order, which is the order of iteration. *)
Definition string_map (T : Type) : Type := list (string * T).

(** [m.find(key)]: [None] stands for [m.cend()]. *)
Fixpoint map_find {T} (key : string) (m : string_map T) : option T :=
  match m with
  | [] => None
  | (k, v) :: rest => if String.eqb k key then Some v else map_find key rest
  end.

(** [m.insert(std::make_pair(key, v))]: the map is left as it is when the key
    is already there, otherwise the item is put at its place in key order. *)
Fixpoint map_insert {T} (key : string) (v : T) (m : string_map T)
  : string_map T :=
  match m with
  | [] => [(key, v)]
  | (k, x) :: rest =>
      match String.compare key k with
      | Lt => (key, v) :: m
      | Eq => m
      | Gt => (k, x) :: map_insert key v rest
      end
  end.

(** [debug::log] levels. *)
Inductive log_level : Type := DEBUG | INFO | WARNING | ERROR | FATAL.

(** ** Recording calls

    [recording mk op] runs [op] and appends to a trace the event [mk r],
    where [r] is how the call ended. *)
Definition recording {E W A} (mk : outcome A -> E) (op : M W A)
  : M (W * list E) A :=
  fun s =>
    let (r, w') := op (fst s) in
    (r, (w', (snd s ++ [mk r])%list)).

(** Every event a computation adds to the trace satisfies [P]. *)
Definition appends {E W A} (P : E -> Prop) (c : M (W * list E) A) : Prop :=
  forall s, exists new, snd (snd (c s)) = (snd s ++ new)%list /\ Forall P new.

(** A computation started in a world where [I] holds ends in such a world. *)
Definition preserves {W A} (I : W -> Prop) (c : M W A) : Prop :=
  forall w, I w -> I (snd (c w)).

(** A call that returns from every world. *)
Definition never_fails {W A} (c : M W A) : Prop :=
  forall w, exists a w', c w = (Normal a, w').

(** * The cache engine: [src/cache/cache.cpp] *)
Module Cache.

(** ** Data *)

Record expected_file_t : Type := {
  path : string;
  required : bool
}.

Inductive comp_mode_t : Type := NONE | ALL.

Definition comp_mode_eqb (a b : comp_mode_t) : bool :=
  match a, b with
  | NONE, NONE => true
  | ALL, ALL => true
  | _, _ => false
  end.

(** A valid [cache_entry_t]. An entry that converts to [false] (no entry) is
    [None] of [option cache_entry_t]. *)
Record cache_entry_t : Type := {
  file_ids : list string;
  compression_mode : comp_mode_t;
  std_out : string;
  std_err : string;
  return_code : Z
}.

(** A valid [direct_mode_manifest_t]; as for entries, an empty manifest is
    [None]. *)
Record direct_mode_manifest_t : Type := {
  hash : string;
  files_with_hashes : string_map string
}.

(** Modelled from the spec: [cache_stats_t] is declared outside the embedded
    sources. The counters are those the specification lists. [direct_hit],
    [direct_miss], [remote_hit] and [remote_miss] are the deltas the engine
    passes to [update_stats]; a local hit is counted by the local cache
    itself. *)
Record cache_stats_t : Type := {
  direct_hits : nat;
  direct_misses : nat;
  local_hits : nat;
  remote_hits : nat;
  remote_misses : nat;
  evictions : nat
}.

Definition no_stats : cache_stats_t :=
  {| direct_hits := 0; direct_misses := 0; local_hits := 0;
     remote_hits := 0; remote_misses := 0; evictions := 0 |}.
Definition direct_hit : cache_stats_t :=
  {| direct_hits := 1; direct_misses := 0; local_hits := 0;
     remote_hits := 0; remote_misses := 0; evictions := 0 |}.
Definition direct_miss : cache_stats_t :=
  {| direct_hits := 0; direct_misses := 1; local_hits := 0;
     remote_hits := 0; remote_misses := 0; evictions := 0 |}.
Definition local_hit : cache_stats_t :=
  {| direct_hits := 0; direct_misses := 0; local_hits := 1;
     remote_hits := 0; remote_misses := 0; evictions := 0 |}.
Definition remote_hit : cache_stats_t :=
  {| direct_hits := 0; direct_misses := 0; local_hits := 0;
     remote_hits := 1; remote_misses := 0; evictions := 0 |}.
Definition remote_miss : cache_stats_t :=
  {| direct_hits := 0; direct_misses := 0; local_hits := 0;
     remote_hits := 0; remote_misses := 1; evictions := 0 |}.

Definition add_stats (a b : cache_stats_t) : cache_stats_t :=
  {| direct_hits := (direct_hits a + direct_hits b)%nat;
     direct_misses := (direct_misses a + direct_misses b)%nat;
     local_hits := (local_hits a + local_hits b)%nat;
     remote_hits := (remote_hits a + remote_hits b)%nat;
     remote_misses := (remote_misses a + remote_misses b)%nat;
     evictions := (evictions a + evictions b)%nat |}.

(** The values read through [config::]. *)
Record config_t : Type := {
  max_local_entry_size : Z;
  max_remote_entry_size : Z;
  compress : bool;
  read_only_remote : bool
}.

(** ** The classes the engine calls

    One field per operation of [m_local_cache], [m_remote_cache], [file::],
    [hasher_t], [sys::] and [debug::] that [cache.cpp] uses. Each may change
    the world and may throw. *)
Record collaborators (W : Type) : Type := {
  config : config_t;
  (* m_local_cache *)
  local_lookup : string -> M W (option cache_entry_t);
  local_lookup_direct : string -> M W (option direct_mode_manifest_t);
  local_add :
    string -> cache_entry_t -> string_map expected_file_t -> bool -> M W unit;
  local_add_direct : string -> direct_mode_manifest_t -> M W unit;
  local_get_file : string -> string -> string -> bool -> bool -> M W unit;
  local_update_stats : string -> cache_stats_t -> M W unit;
  (* m_remote_cache *)
  remote_connect : M W bool;
  remote_is_connected : M W bool;
  remote_lookup : string -> M W (option cache_entry_t);
  remote_add :
    string -> cache_entry_t -> string_map expected_file_t -> M W unit;
  remote_get_file : string -> string -> string -> bool -> M W unit;
  (* file:: *)
  get_file_info_size : string -> M W Z;
  create_dir_with_parents : string -> M W unit;
  get_dir_part : string -> string;
  (* hasher_t: update_from_file(path), then final().as_string() *)
  hash_file : string -> M W string;
  (* sys:: *)
  print_raw_stdout : string -> M W unit;
  print_raw_stderr : string -> M W unit;
  (* debug::log(level) << message *)
  debug_log : log_level -> string -> M W unit
}.

Arguments config {W} _.
Arguments local_lookup {W} _ _ _.
Arguments local_lookup_direct {W} _ _ _.
Arguments local_add {W} _ _ _ _ _ _.
Arguments local_add_direct {W} _ _ _ _.
Arguments local_get_file {W} _ _ _ _ _ _ _.
Arguments local_update_stats {W} _ _ _ _.
Arguments remote_connect {W} _ _.
Arguments remote_is_connected {W} _ _.
Arguments remote_lookup {W} _ _ _.
Arguments remote_add {W} _ _ _ _ _.
Arguments remote_get_file {W} _ _ _ _ _ _.
Arguments get_file_info_size {W} _ _ _.
Arguments create_dir_with_parents {W} _ _ _.
Arguments get_dir_part {W} _ _.
Arguments hash_file {W} _ _ _.
Arguments print_raw_stdout {W} _ _ _.
Arguments print_raw_stderr {W} _ _ _.
Arguments debug_log {W} _ _ _ _.

(** ** The out-parameter [return_code]

    [int& return_code] refers to a variable of the caller. A function that is
    handed it runs in the world paired with that variable, so that what the
    function assigned before an exception left it is there for whoever
    catches the exception. *)

(** A computation that does not touch the variable. *)
Definition call {W A} (c : M W A) : M (W * Z) A :=
  fun s => let (r, w') := c (fst s) in (r, (w', snd s)).

(** [return_code = v;] *)
Definition assign {W} (v : Z) : M (W * Z) unit :=
  fun s => (Normal tt, (fst s, v)).

(** [f(..., return_code)] as a caller sees it whose variable holds [v] at
    the call: the result comes with the value the variable holds at the
    return. *)
Definition pass {W A} (f : M (W * Z) A) (v : Z) : M W (A * Z) :=
  fun w =>
    match f (w, v) with
    | (Normal a, s) => (Normal (a, snd s), fst s)
    | (Raise e, s) => (Raise e, fst s)
    | (Terminate, s) => (Terminate, fst s)
    end.

(** ** The engine *)
Section Engine.

Context {W : Type} (C : collaborators W).

(** The loop of [get_total_entry_size] over the items of [file_paths]. *)
Fixpoint add_file_sizes (items : string_map expected_file_t) (total_size : Z)
  : M W Z :=
  match items with
  | [] => ret total_size
  | (_, expected_file) :: rest =>
      total_size' <-
        try_catch
          (size <- get_file_info_size C (path expected_file) ;;
           ret (add_int64 total_size size))
          (catch_std_exception
             (fun _ =>
                if required expected_file then throw_sliced
                else ret total_size)) ;;
      add_file_sizes rest total_size'
  end.

Definition get_total_entry_size
    (entry : cache_entry_t) (file_paths : string_map expected_file_t) : M W Z :=
  add_file_sizes file_paths
    (add_int64 (size_int64 (std_out entry)) (size_int64 (std_err entry))).

(** The retrieval loop of [lookup_in_local_cache]. *)
Fixpoint retrieve_local_files (hash : string)
    (expected_files : string_map expected_file_t)
    (allow_hard_links create_target_dirs : bool)
    (cached_entry : cache_entry_t) (ids : list string) : M W unit :=
  match ids with
  | [] => ret tt
  | file_id :: rest =>
      match map_find file_id expected_files with
      | None => throw (runtime_error ("Found unexpected cached file: " ++ file_id))
      | Some expected_file =>
          let target_path := path expected_file in
          debug_log C INFO
            ("Local cache hit (" ++ hash ++ "): " ++ file_id ++ " => "
               ++ target_path) ;;;
          (if create_target_dirs
           then create_dir_with_parents C (get_dir_part C target_path)
           else ret tt) ;;;
          let is_compressed :=
            comp_mode_eqb (compression_mode cached_entry) ALL in
          local_get_file C hash file_id target_path is_compressed
            allow_hard_links ;;;
          retrieve_local_files hash expected_files allow_hard_links
            create_target_dirs cached_entry rest
      end
  end.

(** [lookup_in_local_cache(..., return_code)], in the world paired with the
    variable [return_code] refers to. *)
Definition lookup_in_local_cache_ref (hash : string)
    (expected_files : string_map expected_file_t)
    (allow_hard_links create_target_dirs : bool) : M (W * Z) bool :=
  lookup_result <- call (local_lookup C hash) ;;
  match lookup_result with
  | None => ret false
  | Some cached_entry =>
      call (retrieve_local_files hash expected_files allow_hard_links
              create_target_dirs cached_entry (file_ids cached_entry)) ;;;
      call (print_raw_stdout C (std_out cached_entry)) ;;;
      call (print_raw_stderr C (std_err cached_entry)) ;;;
      assign (return_code cached_entry) ;;;
      ret true
  end.

(** The retrieval loop of [lookup_in_remote_cache]. *)
Fixpoint retrieve_remote_files (hash : string)
    (expected_files : string_map expected_file_t)
    (create_target_dirs : bool)
    (cached_entry : cache_entry_t) (ids : list string) : M W unit :=
  match ids with
  | [] => ret tt
  | file_id :: rest =>
      match map_find file_id expected_files with
      | None => throw (runtime_error ("Found unexpected cached file: " ++ file_id))
      | Some expected_file =>
          let target_path := path expected_file in
          debug_log C INFO
            ("Remote cache hit (" ++ hash ++ "): " ++ file_id ++ " => "
               ++ target_path) ;;;
          (if create_target_dirs
           then create_dir_with_parents C (get_dir_part C target_path)
           else ret tt) ;;;
          let is_compressed :=
            comp_mode_eqb (compression_mode cached_entry) ALL in
          remote_get_file C hash file_id target_path is_compressed ;;;
          retrieve_remote_files hash expected_files create_target_dirs
            cached_entry rest
      end
  end.

(** The size test shared by [add] and the promotion of a remote hit:
    [size < max || max <= 0]. *)
Definition fits (size max_size : Z) : bool :=
  (size <? max_size)%Z || (max_size <=? 0)%Z.

(** The entry a remote hit is stored under in the local cache. *)
Definition promoted_entry (cached_entry : cache_entry_t) : cache_entry_t :=
  {| file_ids := file_ids cached_entry;
     compression_mode := if compress (config C) then ALL else NONE;
     std_out := std_out cached_entry;
     std_err := std_err cached_entry;
     return_code := return_code cached_entry |}.

(** The text of the warning for an entry of [size] bytes that is too large
    for the local or the remote cache. *)
Definition too_large_message (which : string) (size : Z) : string :=
  "Cache entry too large for the " ++ which ++ " cache: " ++ pretty size
    ++ " bytes".

(** The last [try] block of [lookup_in_remote_cache]: the remote entry is
    added to the local cache. *)
Definition promote (hash : string)
    (expected_files : string_map expected_file_t) (allow_hard_links : bool)
    (cached_entry : cache_entry_t) : M W unit :=
  try_catch
    (size <- get_total_entry_size cached_entry expected_files ;;
     let max_local_size := max_local_entry_size (config C) in
     if fits size max_local_size then
       local_add C hash (promoted_entry cached_entry) expected_files
         allow_hard_links ;;;
       local_update_stats C hash remote_hit
     else debug_log C WARNING (too_large_message "local" size))
    (catch_std_exception
       (fun what =>
          debug_log C ERROR
            ("Unable to add remote entry to the local cache: " ++ what))).

(** [lookup_in_remote_cache(..., return_code)]: the variable is assigned
    before the entry is added to the local cache. *)
Definition lookup_in_remote_cache_ref (hash : string)
    (expected_files : string_map expected_file_t)
    (allow_hard_links create_target_dirs : bool) : M (W * Z) bool :=
  connected <- call (remote_connect C) ;;
  if negb connected then ret false
  else
    lookup_result <- call (remote_lookup C hash) ;;
    match lookup_result with
    | None =>
        call (local_update_stats C hash remote_miss) ;;;
        ret false
    | Some cached_entry =>
        call (retrieve_remote_files hash expected_files create_target_dirs
                cached_entry (file_ids cached_entry)) ;;;
        call (print_raw_stdout C (std_out cached_entry)) ;;;
        call (print_raw_stderr C (std_err cached_entry)) ;;;
        assign (return_code cached_entry) ;;;
        call (promote hash expected_files allow_hard_links cached_entry) ;;;
        ret true
    end.

(** The first [try] block of [lookup] with its [catch] clause: [true] when
    the block returned true, [false] when control goes on after it. *)
Definition local_attempt_ref (hash : string)
    (expected_files : string_map expected_file_t)
    (allow_hard_links create_target_dirs : bool) : M (W * Z) bool :=
  try_catch
    (lookup_in_local_cache_ref hash expected_files allow_hard_links
       create_target_dirs)
    (catch_runtime_error
       (fun what =>
          call (debug_log C ERROR
                  ("Local lookup of " ++ hash ++ " failed: " ++ what)) ;;;
          ret false)).

(** The second [try] block of [lookup] with its [catch] clause. *)
Definition remote_attempt_ref (hash : string)
    (expected_files : string_map expected_file_t)
    (allow_hard_links create_target_dirs : bool) : M (W * Z) bool :=
  try_catch
    (lookup_in_remote_cache_ref hash expected_files allow_hard_links
       create_target_dirs)
    (catch_runtime_error
       (fun what =>
          call (debug_log C ERROR
                  ("Remote lookup of " ++ hash ++ " failed: " ++ what)) ;;;
          ret false)).

(** [lookup(..., return_code) noexcept] *)
Definition lookup_ref (hash : string)
    (expected_files : string_map expected_file_t)
    (allow_hard_links create_target_dirs : bool) : M (W * Z) bool :=
  noexcept
    (local_result <-
       local_attempt_ref hash expected_files allow_hard_links
         create_target_dirs ;;
     if local_result then ret true
     else
       remote_result <-
         remote_attempt_ref hash expected_files allow_hard_links
           create_target_dirs ;;
       if remote_result then ret true else ret false).

(** [lookup_direct(..., return_code) noexcept]: the [try] block, which does
    not touch [return_code], then the regular lookup. *)
Definition lookup_direct_ref (direct_hash : string)
    (expected_files : string_map expected_file_t)
    (allow_hard_links create_target_dirs : bool) : M (W * Z) bool :=
  noexcept
    (found <-
       call
         (try_catch
            (manifest <- local_lookup_direct C direct_hash ;;
             match manifest with
             | None =>
                 throw (runtime_error "No matching direct mode entry found")
             | Some m =>
                 debug_log C INFO
                   ("Direct mode cache hit (" ++ direct_hash ++ "): "
                      ++ hash m) ;;;
                 local_update_stats C direct_hash direct_hit ;;;
                 ret (Some (hash m))
             end)
            (catch_runtime_error
               (fun what =>
                  debug_log C INFO
                    ("Direct mode cache miss (" ++ direct_hash ++ "): "
                       ++ what) ;;;
                  local_update_stats C direct_hash direct_miss ;;;
                  ret None))) ;;
     match found with
     | None => ret false
     | Some hash =>
         lookup_ref hash expected_files allow_hard_links create_target_dirs
     end).

(** The same functions as a caller sees them: called with [return_code]
    holding [return_code0], they return the flag and the value [return_code]
    holds at the return. *)
Definition lookup_in_local_cache (hash : string)
    (expected_files : string_map expected_file_t)
    (allow_hard_links create_target_dirs : bool) (return_code0 : Z)
  : M W (bool * Z) :=
  pass
    (lookup_in_local_cache_ref hash expected_files allow_hard_links
       create_target_dirs)
    return_code0.

Definition lookup_in_remote_cache (hash : string)
    (expected_files : string_map expected_file_t)
    (allow_hard_links create_target_dirs : bool) (return_code0 : Z)
  : M W (bool * Z) :=
  pass
    (lookup_in_remote_cache_ref hash expected_files allow_hard_links
       create_target_dirs)
    return_code0.

Definition local_attempt (hash : string)
    (expected_files : string_map expected_file_t)
    (allow_hard_links create_target_dirs : bool) (return_code0 : Z)
  : M W (bool * Z) :=
  pass
    (local_attempt_ref hash expected_files allow_hard_links
       create_target_dirs)
    return_code0.

Definition remote_attempt (hash : string)
    (expected_files : string_map expected_file_t)
    (allow_hard_links create_target_dirs : bool) (return_code0 : Z)
  : M W (bool * Z) :=
  pass
    (remote_attempt_ref hash expected_files allow_hard_links
       create_target_dirs)
    return_code0.

Definition lookup (hash : string)
    (expected_files : string_map expected_file_t)
    (allow_hard_links create_target_dirs : bool) (return_code0 : Z)
  : M W (bool * Z) :=
  pass
    (lookup_ref hash expected_files allow_hard_links create_target_dirs)
    return_code0.

Definition lookup_direct (direct_hash : string)
    (expected_files : string_map expected_file_t)
    (allow_hard_links create_target_dirs : bool) (return_code0 : Z)
  : M W (bool * Z) :=
  pass
    (lookup_direct_ref direct_hash expected_files allow_hard_links
       create_target_dirs)
    return_code0.

(** The loop of [add_direct] over the implicit input files. *)
Fixpoint hash_implicit_inputs (paths : list string)
    (files_with_hashes : string_map string) : M W (string_map string) :=
  match paths with
  | [] => ret files_with_hashes
  | p :: rest =>
      h <- hash_file C p ;;
      hash_implicit_inputs rest (map_insert p h files_with_hashes)
  end.

Definition add_direct (direct_hash hash : string)
    (implicit_input_files : list string) : M W unit :=
  try_catch
    (files_with_hashes <- hash_implicit_inputs implicit_input_files [] ;;
     let manifest :=
       {| Cache.hash := hash; files_with_hashes := files_with_hashes |} in
     local_add_direct C direct_hash manifest)
    (catch_runtime_error
       (fun what =>
          debug_log C ERROR
            ("Creation of direct mode entry " ++ direct_hash ++ " failed: "
               ++ what))).

(** The entry [add] sends to the remote cache: always compressed. *)
Definition remote_entry_of (entry : cache_entry_t) : cache_entry_t :=
  {| file_ids := file_ids entry;
     compression_mode := ALL;
     std_out := std_out entry;
     std_err := std_err entry;
     return_code := return_code entry |}.

(** The first half of [add]: the local cache. *)
Definition local_insert (hash : string) (entry : cache_entry_t)
    (expected_files : string_map expected_file_t) (allow_hard_links : bool)
    (size : Z) : M W unit :=
  let max_local_size := max_local_entry_size (config C) in
  if fits size max_local_size then
    local_add C hash entry expected_files allow_hard_links
  else debug_log C WARNING (too_large_message "local" size).

(** The text logged when the remote insert throws. *)
Definition remote_error_message (e : exception) : string :=
  match e with
  | runtime_error what => "Remote cache error: " ++ what
  | std_exception what => "Remote cache error: " ++ what
  | foreign_exception => "Remote cache error"
  end.

(** The second half of [add]: the remote cache. *)
Definition remote_insert (hash : string) (entry : cache_entry_t)
    (expected_files : string_map expected_file_t) (size : Z) : M W unit :=
  connected <- remote_is_connected C ;;
  if connected && negb (read_only_remote (config C)) then
    let max_remote_size := max_remote_entry_size (config C) in
    if fits size max_remote_size then
      try_catch
        (remote_add C hash (remote_entry_of entry) expected_files)
        (or_else
           (catch_std_exception
              (fun what => debug_log C WARNING ("Remote cache error: " ++ what)))
           (catch_any (debug_log C WARNING "Remote cache error")))
    else debug_log C WARNING (too_large_message "remote" size)
  else ret tt.

Definition add (hash : string) (entry : cache_entry_t)
    (expected_files : string_map expected_file_t) (allow_hard_links : bool)
  : M W unit :=
  size <- get_total_entry_size entry expected_files ;;
  local_insert hash entry expected_files allow_hard_links size ;;;
  remote_insert hash entry expected_files size.

End Engine.

(** ** The total size, as the specification words it

    [size_of p] is the size on disk of the file at [p], [None] when the file
    cannot be read. *)

Definition size_or_zero (size_of : string -> option Z)
    (expected_file : expected_file_t) : Z :=
  match size_of (path expected_file) with
  | Some n => n
  | None => 0
  end.

Fixpoint sum_of_sizes (size_of : string -> option Z)
    (file_paths : string_map expected_file_t) : Z :=
  match file_paths with
  | [] => 0
  | (_, expected_file) :: rest =>
      size_or_zero size_of expected_file + sum_of_sizes size_of rest
  end.

(** Is one of the required expected files unreadable? *)
Definition required_unreadable (size_of : string -> option Z)
    (file_paths : string_map expected_file_t) : bool :=
  existsb
    (fun item =>
       required (snd item)
       && match size_of (path (snd item)) with
          | Some _ => false
          | None => true
          end)
    file_paths.

(** "Total uncompressed size = |stdout| + |stderr| + the sum of the expected
    file sizes. Missing optional files contribute zero; missing required files
    abort with IO." [None] is the abort. *)
Definition spec_total_size (size_of : string -> option Z)
    (entry : cache_entry_t) (file_paths : string_map expected_file_t)
  : option Z :=
  if required_unreadable size_of file_paths then None
  else
    Some (Z.of_nat (String.length (std_out entry))
          + Z.of_nat (String.length (std_err entry))
          + sum_of_sizes size_of file_paths).

(** ** The calls the engine makes

    [traced C] behaves as [C] and also records, in order, every call the
    engine makes to a collaborator, with the way the call ended. *)
Inductive event : Type :=
| LocalLookup (hash : string) (result : outcome (option cache_entry_t))
| LocalLookupDirect (direct_hash : string)
    (result : outcome (option direct_mode_manifest_t))
| LocalAdd (hash : string) (entry : cache_entry_t)
    (expected_files : string_map expected_file_t) (allow_hard_links : bool)
    (result : outcome unit)
| LocalAddDirect (direct_hash : string) (manifest : direct_mode_manifest_t)
    (result : outcome unit)
| LocalGetFile (hash file_id target_path : string)
    (is_compressed allow_hard_links : bool) (result : outcome unit)
| LocalUpdateStats (hash : string) (delta : cache_stats_t)
    (result : outcome unit)
| RemoteConnect (result : outcome bool)
| RemoteIsConnected (result : outcome bool)
| RemoteLookup (hash : string) (result : outcome (option cache_entry_t))
| RemoteAdd (hash : string) (entry : cache_entry_t)
    (expected_files : string_map expected_file_t) (result : outcome unit)
| RemoteGetFile (hash file_id target_path : string) (is_compressed : bool)
    (result : outcome unit)
| GetFileInfo (path : string) (result : outcome Z)
| CreateDirWithParents (dir : string) (result : outcome unit)
| HashFile (path : string) (result : outcome string)
| PrintRawStdout (text : string) (result : outcome unit)
| PrintRawStderr (text : string) (result : outcome unit)
| DebugLog (level : log_level) (message : string) (result : outcome unit).

Definition traced {W} (C : collaborators W) : collaborators (W * list event) :=
  {| config := config C;
     local_lookup := fun h => recording (LocalLookup h) (local_lookup C h);
     local_lookup_direct := fun h =>
       recording (LocalLookupDirect h) (local_lookup_direct C h);
     local_add := fun h e x a =>
       recording (LocalAdd h e x a) (local_add C h e x a);
     local_add_direct := fun h m =>
       recording (LocalAddDirect h m) (local_add_direct C h m);
     local_get_file := fun h i t c a =>
       recording (LocalGetFile h i t c a) (local_get_file C h i t c a);
     local_update_stats := fun h d =>
       recording (LocalUpdateStats h d) (local_update_stats C h d);
     remote_connect := recording RemoteConnect (remote_connect C);
     remote_is_connected := recording RemoteIsConnected (remote_is_connected C);
     remote_lookup := fun h => recording (RemoteLookup h) (remote_lookup C h);
     remote_add := fun h e x => recording (RemoteAdd h e x) (remote_add C h e x);
     remote_get_file := fun h i t c =>
       recording (RemoteGetFile h i t c) (remote_get_file C h i t c);
     get_file_info_size := fun p =>
       recording (GetFileInfo p) (get_file_info_size C p);
     create_dir_with_parents := fun d =>
       recording (CreateDirWithParents d) (create_dir_with_parents C d);
     get_dir_part := get_dir_part C;
     hash_file := fun p => recording (HashFile p) (hash_file C p);
     print_raw_stdout := fun t =>
       recording (PrintRawStdout t) (print_raw_stdout C t);
     print_raw_stderr := fun t =>
       recording (PrintRawStderr t) (print_raw_stderr C t);
     debug_log := fun l m => recording (DebugLog l m) (debug_log C l m) |}.

(** The event adds to the remote-miss counter. *)
Definition counts_remote_miss (ev : event) : Prop :=
  match ev with
  | LocalUpdateStats _ delta _ => remote_misses delta <> 0%nat
  | _ => False
  end.

(** In the world [w], asking for the size of a file leaves the world as it
    is and gives [size_of p], or throws an exception derived from
    std::exception when the file cannot be read ([size_of p = None]). *)
Definition reads_sizes {W} (C : collaborators W) (w : W)
    (size_of : string -> option Z) : Prop :=
  forall p,
    match size_of p with
    | Some n => get_file_info_size C p w = (Normal n, w)
    | None =>
        exists what,
          get_file_info_size C p w = (Raise (runtime_error what), w)
          \/ get_file_info_size C p w = (Raise (std_exception what), w)
    end.

End Cache.

(** * A reference implementation of the collaborators

    [local_cache_t], [remote_cache_t], [file::], [hasher_t], [sys::] and
    [debug::] are defined outside the embedded sources. The definitions of
    this module give them the behaviour the specification describes, over a
    world made of a file system, the two stores, the statistics, the two
    standard streams and the debug log. The local cache is the one configured
    with [max_cache_size = 0], which the specification reads as unlimited: the
    eviction pass that follows an install has nothing to remove, and the
    eviction counter stays as it is. *)
Module Reference.

Import Cache.

(** Modelled from the spec: a stored cache entry, the metadata and, for each
    [file_id], the bytes of that output file ([local_cache_t] is missing).
    The bytes are those retrieval yields, whatever the compression mode. *)
Record stored_entry : Type := {
  meta : cache_entry_t;
  payload : gmap string string
}.

(** Modelled from the spec: the state that the missing classes keep. *)
Record world : Type := {
  files : gmap string string;            (* file system: path to contents *)
  local_writable : bool;                 (* can the cache directory be written *)
  local_entries : gmap string stored_entry;
  local_manifests : gmap string direct_mode_manifest_t;
  stats : cache_stats_t;
  remote_reachable : bool;
  remote_connected : bool;
  remote_entries : gmap string stored_entry;
  out : string;                          (* what was written to stdout *)
  err : string;                          (* what was written to stderr *)
  log : list (log_level * string)
}.

Definition with_files (f : gmap string string) (w : world) : world :=
  {| files := f; local_writable := local_writable w;
     local_entries := local_entries w; local_manifests := local_manifests w;
     stats := stats w; remote_reachable := remote_reachable w;
     remote_connected := remote_connected w;
     remote_entries := remote_entries w; out := out w; err := err w;
     log := log w |}.

Definition with_local_entries (m : gmap string stored_entry) (w : world)
  : world :=
  {| files := files w; local_writable := local_writable w;
     local_entries := m; local_manifests := local_manifests w;
     stats := stats w; remote_reachable := remote_reachable w;
     remote_connected := remote_connected w;
     remote_entries := remote_entries w; out := out w; err := err w;
     log := log w |}.

Definition with_local_manifests (m : gmap string direct_mode_manifest_t)
    (w : world) : world :=
  {| files := files w; local_writable := local_writable w;
     local_entries := local_entries w; local_manifests := m;
     stats := stats w; remote_reachable := remote_reachable w;
     remote_connected := remote_connected w;
     remote_entries := remote_entries w; out := out w; err := err w;
     log := log w |}.

Definition with_stats (s : cache_stats_t) (w : world) : world :=
  {| files := files w; local_writable := local_writable w;
     local_entries := local_entries w; local_manifests := local_manifests w;
     stats := s; remote_reachable := remote_reachable w;
     remote_connected := remote_connected w;
     remote_entries := remote_entries w; out := out w; err := err w;
     log := log w |}.

Definition with_remote_connected (b : bool) (w : world) : world :=
  {| files := files w; local_writable := local_writable w;
     local_entries := local_entries w; local_manifests := local_manifests w;
     stats := stats w; remote_reachable := remote_reachable w;
     remote_connected := b;
     remote_entries := remote_entries w; out := out w; err := err w;
     log := log w |}.

Definition with_remote_entries (m : gmap string stored_entry) (w : world)
  : world :=
  {| files := files w; local_writable := local_writable w;
     local_entries := local_entries w; local_manifests := local_manifests w;
     stats := stats w; remote_reachable := remote_reachable w;
     remote_connected := remote_connected w;
     remote_entries := m; out := out w; err := err w;
     log := log w |}.

Definition with_out (s : string) (w : world) : world :=
  {| files := files w; local_writable := local_writable w;
     local_entries := local_entries w; local_manifests := local_manifests w;
     stats := stats w; remote_reachable := remote_reachable w;
     remote_connected := remote_connected w;
     remote_entries := remote_entries w; out := s; err := err w;
     log := log w |}.

Definition with_err (s : string) (w : world) : world :=
  {| files := files w; local_writable := local_writable w;
     local_entries := local_entries w; local_manifests := local_manifests w;
     stats := stats w; remote_reachable := remote_reachable w;
     remote_connected := remote_connected w;
     remote_entries := remote_entries w; out := out w; err := s;
     log := log w |}.

Definition with_log (l : list (log_level * string)) (w : world) : world :=
  {| files := files w; local_writable := local_writable w;
     local_entries := local_entries w; local_manifests := local_manifests w;
     stats := stats w; remote_reachable := remote_reachable w;
     remote_connected := remote_connected w;
     remote_entries := remote_entries w; out := out w; err := err w;
     log := l |}.

(** Is the file id absent from the expected files of the caller? *)
Definition unexpected (expected_files : string_map expected_file_t)
    (file_id : string) : bool :=
  match map_find file_id expected_files with
  | Some _ => false
  | None => true
  end.

(** Can every listed file be retrieved: is each id expected by the caller
    and are its bytes in the stored entry? *)
Definition retrievable (expected_files : string_map expected_file_t)
    (stored : gmap string string) (ids : list string) : bool :=
  forallb
    (fun file_id =>
       negb (unexpected expected_files file_id)
       && match stored !! file_id with
          | Some _ => true
          | None => false
          end)
    ids.

(** The file system after the listed files were written, one after the other,
    to their target paths. *)
Fixpoint materialized_files (expected_files : string_map expected_file_t)
    (stored : gmap string string) (ids : list string)
    (fs : gmap string string) : gmap string string :=
  match ids with
  | [] => fs
  | file_id :: rest =>
      match map_find file_id expected_files, stored !! file_id with
      | Some expected_file, Some bytes =>
          materialized_files expected_files stored rest
            (<[path expected_file := bytes]> fs)
      | _, _ => fs
      end
  end.

(** The sizes of the files of a file system. *)
Definition sizes_on (fs : gmap string string) (p : string) : option Z :=
  option_map (fun bytes => Z.of_nat (String.length bytes)) (fs !! p).

(** The stores and the state of the connection are as in [w0]. *)
Definition same_stores (w0 w : world) : Prop :=
  local_entries w = local_entries w0
  /\ local_manifests w = local_manifests w0
  /\ local_writable w = local_writable w0
  /\ remote_entries w = remote_entries w0
  /\ remote_reachable w = remote_reachable w0
  /\ remote_connected w = remote_connected w0.

(** Modelled from the spec: an entry is corrupted when a payload file that
    its metadata lists is missing. *)
Definition intact (stored : stored_entry) : bool :=
  forallb
    (fun file_id =>
       match payload stored !! file_id with
       | Some _ => true
       | None => false
       end)
    (file_ids (meta stored)).

(** The lines [lookup_direct] logs in the reference world. *)
Definition direct_hit_line (direct_hash hash : string) : string :=
  "Direct mode cache hit (" ++ direct_hash ++ "): " ++ hash.

Definition direct_miss_line (direct_hash : string) : string :=
  "Direct mode cache miss (" ++ direct_hash
    ++ "): No matching direct mode entry found".

Section Operations.

(** [hasher_t] is missing: [digest] maps the bytes of a file to the string
    form of their hash. [dir_part] is [file::get_dir_part]. *)
Variable digest : string -> string.
Variable dir_part : string -> string.
Variable cfg : config_t.

(** Modelled from the spec: the payload files are copied from the expected
    target paths, which is where the tool just wrote them; a file id without
    an expected path, or a listed file that is not on disk, makes the install
    fail ([local_cache_t::add] is missing). *)
Fixpoint collect_payload (fs : gmap string string)
    (expected_files : string_map expected_file_t) (ids : list string)
  : option (gmap string string) :=
  match ids with
  | [] => Some ∅
  | file_id :: rest =>
      match map_find file_id expected_files with
      | None => None
      | Some expected_file =>
          match fs !! path expected_file with
          | Some bytes =>
              option_map (insert file_id bytes)
                (collect_payload fs expected_files rest)
          | None => None
          end
      end
  end.

(** Modelled from the spec: [local_cache_t::lookup(hash)] verifies presence
    and returns the entry, and the hit is counted; on no entry it returns
    absent. A corrupted entry is treated as a miss and removed. *)
Definition ref_local_lookup (hash : string) : M world (option cache_entry_t) :=
  fun w =>
    match local_entries w !! hash with
    | None => (Normal None, w)
    | Some stored =>
        if intact stored then
          (Normal (Some (meta stored)),
           with_stats (add_stats (stats w) local_hit) w)
        else
          (Normal None,
           with_local_entries (delete hash (local_entries w)) w)
    end.

(** Modelled from the spec: does the file at [p] still hash to [h]? *)
Definition still_hashes_to (fs : gmap string string) (item : string * string)
  : bool :=
  match fs !! fst item with
  | Some bytes => String.eqb (digest bytes) (snd item)
  | None => false
  end.

(** Modelled from the spec: [local_cache_t::lookup_direct] is missing. The
    manifest stored under the direct hash is consulted in bulk: every
    implicit input is re-hashed, and the manifest matches iff every listed
    file still hashes to the recorded value. Without a match no manifest is
    returned. *)
Definition ref_local_lookup_direct (direct_hash : string)
  : M world (option direct_mode_manifest_t) :=
  fun w =>
    match local_manifests w !! direct_hash with
    | None => (Normal None, w)
    | Some manifest =>
        if forallb (still_hashes_to (files w)) (files_with_hashes manifest)
        then (Normal (Some manifest), w)
        else (Normal None, w)
    end.

(** Modelled from the spec: [local_cache_t::add] installs the output files
    and the metadata under the hash; a failed install leaves the store as it
    was. With [max_cache_size = 0] the eviction pass removes nothing. *)
Definition ref_local_add (hash : string) (entry : cache_entry_t)
    (expected_files : string_map expected_file_t) (allow_hard_links : bool)
  : M world unit :=
  fun w =>
    if local_writable w then
      match collect_payload (files w) expected_files (file_ids entry) with
      | Some p =>
          (Normal tt,
           with_local_entries
             (<[hash := {| meta := entry; payload := p |}]> (local_entries w)) w)
      | None =>
          (Raise (runtime_error "Unable to add the entry to the cache"), w)
      end
    else (Raise (runtime_error "Unable to write to the cache"), w).

(** Modelled from the spec: [local_cache_t::add_direct]. *)
Definition ref_local_add_direct (direct_hash : string)
    (manifest : direct_mode_manifest_t) : M world unit :=
  fun w =>
    if local_writable w then
      (Normal tt,
       with_local_manifests (<[direct_hash := manifest]> (local_manifests w)) w)
    else (Raise (runtime_error "Unable to write to the cache"), w).

(** Modelled from the spec: [get_file] materializes one cached file at the
    target path; a file the entry lists but the store lacks is an error
    ([local_cache_t::get_file] and [remote_cache_t::get_file] are missing). *)
Definition get_file_from (store : gmap string stored_entry)
    (hash file_id target_path : string) : M world unit :=
  fun w =>
    match store !! hash with
    | Some e =>
        match payload e !! file_id with
        | Some bytes =>
            (Normal tt, with_files (<[target_path := bytes]> (files w)) w)
        | None => (Raise (runtime_error "Missing file in cache entry"), w)
        end
    | None => (Raise (runtime_error "Missing cache entry"), w)
    end.

(** Modelled from the spec: [local_cache_t::get_file]; the bytes written
    are the same with and without compression and with and without hard
    links. *)
Definition ref_local_get_file (hash file_id target_path : string)
    (is_compressed allow_hard_links : bool) : M world unit :=
  fun w => get_file_from (local_entries w) hash file_id target_path w.

(** Modelled from the spec: [update_stats(hash, delta)] adds the delta to
    the counters. *)
Definition ref_local_update_stats (hash : string) (delta : cache_stats_t)
  : M world unit :=
  fun w => (Normal tt, with_stats (add_stats (stats w) delta) w).

(** Modelled from the spec: [connect] returns false when the remote cache
    cannot be reached, and the engine then works with the local cache only. *)
Definition ref_remote_connect : M world bool :=
  fun w =>
    (Normal (remote_reachable w), with_remote_connected (remote_reachable w) w).

(** Modelled from the spec: [remote_cache_t::is_connected]. *)
Definition ref_remote_is_connected : M world bool :=
  fun w => (Normal (remote_connected w), w).

(** Modelled from the spec: the operations of the remote cache mirror
    those of the local one; [remote_cache_t::lookup]. *)
Definition ref_remote_lookup (hash : string) : M world (option cache_entry_t) :=
  fun w =>
    if remote_connected w then
      (Normal (option_map meta (remote_entries w !! hash)), w)
    else (Raise (runtime_error "Not connected to the remote cache"), w).

(** Modelled from the spec: [remote_cache_t::add], as the local insert. *)
Definition ref_remote_add (hash : string) (entry : cache_entry_t)
    (expected_files : string_map expected_file_t) : M world unit :=
  fun w =>
    if remote_connected w then
      match collect_payload (files w) expected_files (file_ids entry) with
      | Some p =>
          (Normal tt,
           with_remote_entries
             (<[hash := {| meta := entry; payload := p |}]> (remote_entries w))
             w)
      | None =>
          (Raise (runtime_error "Unable to add the entry to the cache"), w)
      end
    else (Raise (runtime_error "Not connected to the remote cache"), w).

(** Modelled from the spec: [remote_cache_t::get_file], as the local one. *)
Definition ref_remote_get_file (hash file_id target_path : string)
    (is_compressed : bool) : M world unit :=
  fun w =>
    if remote_connected w then
      get_file_from (remote_entries w) hash file_id target_path w
    else (Raise (runtime_error "Not connected to the remote cache"), w).

(** Modelled from the spec: [file::get_file_info(path).size()] fails with an
    IO error when the file cannot be read. *)
Definition ref_get_file_info_size (p : string) : M world Z :=
  fun w =>
    match files w !! p with
    | Some bytes => (Normal (Z.of_nat (String.length bytes)), w)
    | None => (Raise (runtime_error ("Unable to get file information: " ++ p)), w)
    end.

(** Modelled from the spec: [file::create_dir_with_parents] ensures that
    the parent directory exists; directories are not part of the modelled file
    system, so nothing changes. *)
Definition ref_create_dir_with_parents (dir : string) : M world unit :=
  fun w => (Normal tt, w).

(** Modelled from the spec: absorbing a file fails with an IO error when the
    file cannot be read. *)
Definition ref_hash_file (p : string) : M world string :=
  fun w =>
    match files w !! p with
    | Some bytes => (Normal (digest bytes), w)
    | None => (Raise (runtime_error ("Unable to read file: " ++ p)), w)
    end.

(** Modelled from the spec: [sys::print_raw_stdout] emits the captured
    stream. *)
Definition ref_print_raw_stdout (text : string) : M world unit :=
  fun w => (Normal tt, with_out (out w ++ text) w).

(** Modelled from the spec: [sys::print_raw_stderr] emits the captured
    stream. *)
Definition ref_print_raw_stderr (text : string) : M world unit :=
  fun w => (Normal tt, with_err (err w ++ text) w).

(** Modelled from the spec: [debug::log] adds a line to the log. *)
Definition ref_debug_log (level : log_level) (message : string) : M world unit :=
  fun w => (Normal tt, with_log (log w ++ [(level, message)])%list w).

(** Modelled from the spec: the collaborators of the engine, made of the
    operations above. *)
Definition reference : collaborators world :=
  {| config := cfg;
     local_lookup := ref_local_lookup;
     local_lookup_direct := ref_local_lookup_direct;
     local_add := ref_local_add;
     local_add_direct := ref_local_add_direct;
     local_get_file := ref_local_get_file;
     local_update_stats := ref_local_update_stats;
     remote_connect := ref_remote_connect;
     remote_is_connected := ref_remote_is_connected;
     remote_lookup := ref_remote_lookup;
     remote_add := ref_remote_add;
     remote_get_file := ref_remote_get_file;
     get_file_info_size := ref_get_file_info_size;
     create_dir_with_parents := ref_create_dir_with_parents;
     get_dir_part := dir_part;
     hash_file := ref_hash_file;
     print_raw_stdout := ref_print_raw_stdout;
     print_raw_stderr := ref_print_raw_stderr;
     debug_log := ref_debug_log |}.

End Operations.

End Reference.

(** * The program wrapper: [src/wrappers/program_wrapper.cpp] *)
Module ProgramWrapper.

Definition string_list_t : Type := list string.

(** ** Wrapper capabilities *)

(** The loop of the constructor of [capabilities_t]; [m_hard_links] starts
    as [false]. *)
Fixpoint scan_capabilities (cap_strings : string_list_t) (m_hard_links : bool)
  : bool :=
  match cap_strings with
  | [] => m_hard_links
  | str :: rest =>
      scan_capabilities rest
        (if String.eqb str "hard_links" then true else m_hard_links)
  end.

Record capabilities_t : Type := { hard_links : bool }.

Definition make_capabilities (cap_strings : string_list_t) : capabilities_t :=
  {| hard_links := scan_capabilities cap_strings false |}.

(** ** Data *)

(** [cache_t::entry_t] as this file uses it; [lookup] returns an entry that
    converts to [false] when there is none, which is [None] here. *)
Record entry_t : Type := {
  files : string_map string;   (* file id to path *)
  std_out : string;
  std_err : string;
  return_code : Z
}.

(** The result of [sys::run_with_prefix]. *)
Record run_result_t : Type := {
  run_return_code : Z;
  run_std_out : string;
  run_std_err : string
}.

(** What is fed to a [hasher_t], in order. *)
Inductive hasher_input : Type :=
| Text (s : string)
| Pairs (m : string_map string).

(** ** The classes the wrapper calls *)
Record collaborators (W : Type) : Type := {
  config_hard_links : bool;                       (* config::hard_links() *)
  m_args : W -> string_list_t;
  (* hasher_t: the digest, as a string, of everything fed to update() *)
  hasher_final : list hasher_input -> string;
  hasher_file : string -> M W string;             (* update_from_file, final *)
  join : string -> bool -> string_list_t -> string;  (* string_list_t::join *)
  get_file_part : string -> string;               (* file::get_file_part *)
  (* m_cache *)
  cache_lookup : string -> M W (option entry_t);
  cache_add : string -> entry_t -> bool -> M W unit;
  (* file:: *)
  link_or_copy : string -> string -> M W unit;
  copy : string -> string -> M W unit;
  (* sys:: *)
  run_with_prefix : string_list_t -> bool -> M W run_result_t;
  (* std::cout << s and std::cerr << s *)
  cout : string -> M W unit;
  cerr : string -> M W unit;
  debug_log : log_level -> string -> M W unit
}.

Arguments config_hard_links {W} _.
Arguments m_args {W} _ _.
Arguments hasher_final {W} _ _.
Arguments hasher_file {W} _ _ _.
Arguments join {W} _ _ _ _.
Arguments get_file_part {W} _ _.
Arguments cache_lookup {W} _ _ _.
Arguments cache_add {W} _ _ _ _ _.
Arguments link_or_copy {W} _ _ _ _.
Arguments copy {W} _ _ _ _.
Arguments run_with_prefix {W} _ _ _ _.
Arguments cout {W} _ _ _.
Arguments cerr {W} _ _ _.
Arguments debug_log {W} _ _ _ _.

(** The virtual member functions of [program_wrapper_t]: a wrapper overrides
    the ones that are relevant to its program. *)
Class Wrapper (W : Type) : Type := {
  resolve_args : M W unit;
  get_capabilities : M W string_list_t;
  preprocess_source : M W string;
  get_relevant_arguments : M W string_list_t;
  get_relevant_env_vars : M W (string_map string);
  get_program_id : M W string;
  get_build_files : M W (string_map string)
}.

Section Wrapper.

Context {W : Type} (C : collaborators W).

(** The default implementations. [m_args[0]] of an empty argument list is
    not defined by C++; the empty string stands for it. *)
Definition default_wrapper : Wrapper W :=
  {| resolve_args := ret tt;
     get_capabilities := ret [];
     preprocess_source := ret "";
     get_relevant_arguments := fun w => (Normal (m_args C w), w);
     get_relevant_env_vars := ret [];
     get_program_id := fun w => hasher_file C (hd "" (m_args C w)) w;
     get_build_files := ret [] |}.

Context (V : Wrapper W).

(** The loop over [cached_entry.files] on a cache hit.
    [target_files.at(id)] throws std::out_of_range for an unknown id. *)
Fixpoint materialize (hash : string) (allow_hard_links : bool)
    (target_files : string_map string) (cached_files : string_map string)
  : M W unit :=
  match cached_files with
  | [] => ret tt
  | (file_id, source_file) :: rest =>
      match map_find file_id target_files with
      | None => throw (std_exception "map::at")
      | Some target_file =>
          debug_log C INFO
            ("Cache hit (" ++ hash ++ "): " ++ source_file ++ " => "
               ++ target_file) ;;;
          (if allow_hard_links then link_or_copy C source_file target_file
           else copy C source_file target_file) ;;;
          materialize hash allow_hard_links target_files rest
      end
  end.

(** The text of the "Cache miss" log line after the hash. *)
Fixpoint file_parts (files : string_map string) : string :=
  match files with
  | [] => ""
  | (_, p) :: rest => " " ++ get_file_part C p ++ file_parts rest
  end.

(** [handle_command(return_code)]: the result is the returned flag and the
    value of [return_code] at the return. *)
Definition handle_command : M W (bool * Z) :=
  try_catch
    (resolve_args ;;;
     cap_strings <- get_capabilities ;;
     let capabilites := make_capabilities cap_strings in
     source <- preprocess_source ;;
     arguments <- get_relevant_arguments ;;
     env_vars <- get_relevant_env_vars ;;
     program_id <- get_program_id ;;
     let hash :=
       hasher_final C
         [Text source; Text (join C " " true arguments); Pairs env_vars;
          Text program_id] in
     let allow_hard_links :=
       config_hard_links C && hard_links capabilites in
     cached_entry <- cache_lookup C hash ;;
     match cached_entry with
     | Some entry =>
         target_files <- get_build_files ;;
         materialize hash allow_hard_links target_files (files entry) ;;;
         cout C (std_out entry) ;;;
         cerr C (std_err entry) ;;;
         ret (true, return_code entry)
     | None =>
         build_files <- get_build_files ;;
         debug_log C INFO
           ("Cache miss (" ++ hash ++ ")" ++ file_parts build_files) ;;;
         args <- (fun w => (Normal (m_args C w), w)) ;;
         result <- run_with_prefix C args false ;;
         (if (run_return_code result =? 0)%Z then
            cache_add C hash
              {| files := build_files;
                 std_out := run_std_out result;
                 std_err := run_std_err result;
                 return_code := run_return_code result |}
              allow_hard_links
          else ret tt) ;;;
         ret (true, run_return_code result)
     end)
    (or_else
       (catch_std_exception
          (fun what =>
             debug_log C DEBUG ("Exception: " ++ what) ;;;
             ret (false, 1%Z)))
       (catch_any
          (debug_log C ERROR "UNEXPECTED EXCEPTION" ;;;
           ret (false, 1%Z)))).

End Wrapper.

(** ** The calls the wrapper makes *)
Inductive event : Type :=
| ResolveArgs (result : outcome unit)
| GetCapabilities (result : outcome string_list_t)
| PreprocessSource (result : outcome string)
| GetRelevantArguments (result : outcome string_list_t)
| GetRelevantEnvVars (result : outcome (string_map string))
| GetProgramId (result : outcome string)
| GetBuildFiles (result : outcome (string_map string))
| HasherFile (path : string) (result : outcome string)
| CacheLookup (hash : string) (result : outcome (option entry_t))
| CacheAdd (hash : string) (entry : entry_t) (allow_hard_links : bool)
    (result : outcome unit)
| LinkOrCopy (source_file target_file : string) (result : outcome unit)
| Copy (source_file target_file : string) (result : outcome unit)
| RunWithPrefix (args : string_list_t) (quiet : bool)
    (result : outcome run_result_t)
| Cout (text : string) (result : outcome unit)
| Cerr (text : string) (result : outcome unit)
| DebugLog (level : log_level) (message : string) (result : outcome unit).

Definition traced {W} (C : collaborators W) : collaborators (W * list event) :=
  {| config_hard_links := config_hard_links C;
     m_args := fun s => m_args C (fst s);
     hasher_final := hasher_final C;
     hasher_file := fun p => recording (HasherFile p) (hasher_file C p);
     join := join C;
     get_file_part := get_file_part C;
     cache_lookup := fun h => recording (CacheLookup h) (cache_lookup C h);
     cache_add := fun h e a => recording (CacheAdd h e a) (cache_add C h e a);
     link_or_copy := fun s t => recording (LinkOrCopy s t) (link_or_copy C s t);
     copy := fun s t => recording (Copy s t) (copy C s t);
     run_with_prefix := fun a q =>
       recording (RunWithPrefix a q) (run_with_prefix C a q);
     cout := fun t => recording (Cout t) (cout C t);
     cerr := fun t => recording (Cerr t) (cerr C t);
     debug_log := fun l m => recording (DebugLog l m) (debug_log C l m) |}.

Definition traced_wrapper {W} (V : Wrapper W) : Wrapper (W * list event) :=
  {| resolve_args := recording ResolveArgs resolve_args;
     get_capabilities := recording GetCapabilities get_capabilities;
     preprocess_source := recording PreprocessSource preprocess_source;
     get_relevant_arguments :=
       recording GetRelevantArguments get_relevant_arguments;
     get_relevant_env_vars :=
       recording GetRelevantEnvVars get_relevant_env_vars;
     get_program_id := recording GetProgramId get_program_id;
     get_build_files := recording GetBuildFiles get_build_files |}.

Definition is_cache_add (ev : event) : bool :=
  match ev with
  | CacheAdd _ _ _ _ => true
  | _ => false
  end.

Definition is_link_or_copy (ev : event) : bool :=
  match ev with
  | LinkOrCopy _ _ _ => true
  | _ => false
  end.

Definition is_copy (ev : event) : bool :=
  match ev with
  | Copy _ _ _ => true
  | _ => false
  end.

Definition is_materialization (ev : event) : bool :=
  is_link_or_copy ev || is_copy ev.

(** The events of a trace that materialize a cached file. *)
Definition materializations (trace : list event) : list event :=
  List.filter is_materialization trace.

(** The successful materializations of the cached files, in order: by
    [link_or_copy] when hard links are allowed, by [copy] otherwise. *)
Fixpoint expected_materializations (allow_hard_links : bool)
    (target_files cached_files : string_map string) : list event :=
  match cached_files with
  | [] => []
  | (file_id, source_file) :: rest =>
      match map_find file_id target_files with
      | Some target_file =>
          (if allow_hard_links
           then LinkOrCopy source_file target_file (Normal tt)
           else Copy source_file target_file (Normal tt))
          :: expected_materializations allow_hard_links target_files rest
      | None => []
      end
  end.

(** The events the loop over the cached files may record. *)
Definition loop_event (allow_hard_links : bool) (ev : event) : Prop :=
  match ev with
  | DebugLog _ _ _ => True
  | LinkOrCopy _ _ _ => allow_hard_links = true
  | Copy _ _ _ => allow_hard_links = false
  | _ => False
  end.

End ProgramWrapper.

(** * The command line: [src/main.cpp] *)
Module Main.

Definition nl : string := String (Ascii.ascii_of_nat 10) EmptyString.

Definition BUILDCACHE_EXE_NAME : string := "buildcache".

(** The compiler wrappers [wrap_compiler_and_exit] chooses from. *)
Inductive wrapper_kind : Type := gcc_wrapper | ghs_wrapper | msvc_wrapper.

(** ** What [main.cpp] calls

    Writing to [std::cout] and [std::cerr] does not throw. *)
Record collaborators (W : Type) : Type := {
  get_file_part : string -> bool -> string;        (* file::get_file_part *)
  find_executable : string -> string -> M W string;   (* file::find_executable *)
  new_cache : M W unit;                            (* bcache::cache_t cache; *)
  cache_clear : M W unit;
  cache_show_stats : M W unit;
  can_handle_command : wrapper_kind -> string -> M W bool;
  wrapper_handle_command :
    wrapper_kind -> list string -> Z -> M W (bool * Z);
  run_with_prefix : list string -> bool -> M W Z;  (* .return_code *)
  cout : string -> W -> W;
  cerr : string -> W -> W;
  debug_log : log_level -> string -> M W unit
}.

Arguments get_file_part {W} _ _ _.
Arguments find_executable {W} _ _ _ _.
Arguments new_cache {W} _ _.
Arguments cache_clear {W} _ _.
Arguments cache_show_stats {W} _ _.
Arguments can_handle_command {W} _ _ _ _.
Arguments wrapper_handle_command {W} _ _ _ _ _.
Arguments run_with_prefix {W} _ _ _ _.
Arguments cout {W} _ _ _.
Arguments cerr {W} _ _ _.
Arguments debug_log {W} _ _ _ _.

Section Commands.

Context {W : Type} (C : collaborators W).

Definition say (text : string) : M W unit := fun w => (Normal tt, cout C text w).
Definition complain (text : string) : M W unit :=
  fun w => (Normal tt, cerr C text w).

(** The two [catch] clauses shared by the administrative commands: report on
    [std::cerr] and leave with [return_code = 1]. *)
Definition report_unexpected : handler W Z :=
  or_else
    (catch_std_exception
       (fun what => complain ("*** Unexpected error: " ++ what ++ nl) ;;; ret 1%Z))
    (catch_any (complain ("*** Unexpected error." ++ nl) ;;; ret 1%Z)).

(** The functions named [..._and_exit] end in [std::exit(return_code)]: the
    value they compute here is that exit code. *)
Definition clear_cache_and_exit : M W Z :=
  try_catch (new_cache C ;;; cache_clear C ;;; ret 0%Z) report_unexpected.

Definition show_stats_and_exit : M W Z :=
  try_catch (new_cache C ;;; cache_show_stats C ;;; ret 0%Z) report_unexpected.

Definition print_version_and_exit : M W Z :=
  say ("BuildCache version 0.0-dev" ++ nl) ;;; ret 0%Z.

Definition set_max_size_and_exit (size_arg : string) : M W Z :=
  try_catch
    (say ("*** Setting the max size has not yet implemented" ++ nl) ;;;
     ret 0%Z)
    report_unexpected.

Definition print_help (program_name : string) : M W unit :=
  say ("Usage:" ++ nl) ;;;
  say ("    " ++ program_name ++ " [options]" ++ nl) ;;;
  say ("    " ++ program_name ++ " compiler [compiler-options]" ++ nl) ;;;
  say nl ;;;
  say ("Options:" ++ nl) ;;;
  say ("    -C, --clear           clear the cache completely (except configuration)" ++ nl) ;;;
  say ("    -M, --max-size SIZE   set maximum size of cache to SIZE (use 0 for no" ++ nl) ;;;
  say ("                          limit); available suffixes: k, M, G, T (decimal) and" ++ nl) ;;;
  say ("                          Ki, Mi, Gi, Ti (binary); default suffix: G" ++ nl) ;;;
  say ("    -s, --show-stats      show statistics summary" ++ nl) ;;;
  say nl ;;;
  say ("    -h, --help            print this help text" ++ nl) ;;;
  say ("    -V, --version         print version and copyright information" ++ nl).

Definition compare_arg (arg short_form long_form : string) : bool :=
  String.eqb arg short_form || String.eqb arg long_form.

(** The selection of a wrapper in [wrap_compiler_and_exit]. *)
Definition select_wrapper (true_exe_path : string) : M W (option wrapper_kind) :=
  is_gcc <- can_handle_command C gcc_wrapper true_exe_path ;;
  if is_gcc then ret (Some gcc_wrapper)
  else
    is_ghs <- can_handle_command C ghs_wrapper true_exe_path ;;
    if is_ghs then ret (Some ghs_wrapper)
    else
      is_msvc <- can_handle_command C msvc_wrapper true_exe_path ;;
      if is_msvc then ret (Some msvc_wrapper)
      else
        debug_log C INFO ("No suitable wrapper for " ++ true_exe_path) ;;;
        ret None.

(** [wrap_compiler_and_exit(argc, argv)], with [args] the list made of
    [argv]. The inner [try] yields [was_wrapped] and [return_code]. *)
Definition wrap_compiler_and_exit (args : list string) : M W Z :=
  try_catch
    (match args with
     | [] => throw (runtime_error "Missing arguments.")
     | arg0 :: rest =>
         true_exe_path <- find_executable C arg0 BUILDCACHE_EXE_NAME ;;
         let args := true_exe_path :: rest in
         wrapped <-
           try_catch
             (new_cache C ;;;
              wrapper <- select_wrapper true_exe_path ;;
              match wrapper with
              | Some kind => wrapper_handle_command C kind args 1%Z
              | None => ret (false, 1%Z)
              end)
             (or_else
                (catch_std_exception
                   (fun what =>
                      debug_log C ERROR ("Unexpected error: " ++ what) ;;;
                      ret (false, 1%Z)))
                (catch_any
                   (debug_log C ERROR "Unexpected error." ;;;
                    ret (false, 1%Z)))) ;;
         if fst wrapped then ret (snd wrapped)
         else run_with_prefix C args false
     end)
    (or_else
       (catch_std_exception
          (fun what =>
             debug_log C FATAL ("Unexpected error." ++ what) ;;; ret 1%Z))
       (catch_any (debug_log C FATAL "Unexpected error." ;;; ret 1%Z))).

(** The first character of a std::string; ['\0'] for the empty string. *)
Definition first_char (s : string) : Ascii.ascii :=
  match s with
  | EmptyString => Ascii.zero
  | String c _ => c
  end.

(** [main(argc, argv)] with [argv] as a list, [argv0] being [argv[0]]: the
    exit code of the process. *)
Definition main (argv0 : string) (arguments : list string) : M W Z :=
  if negb (String.eqb (get_file_part C argv0 false) BUILDCACHE_EXE_NAME) then
    debug_log C DEBUG ("Invoked as symlink: " ++ argv0) ;;;
    wrap_compiler_and_exit (argv0 :: arguments)
  else
    match arguments with
    | [] => print_help argv0 ;;; ret 1%Z
    | arg_str :: rest =>
        if compare_arg arg_str "-C" "--clear" then clear_cache_and_exit
        else if compare_arg arg_str "-s" "--show-stats" then show_stats_and_exit
        else if compare_arg arg_str "-V" "--version" then print_version_and_exit
        else if compare_arg arg_str "-M" "--max-size" then
          match rest with
          | [] =>
              complain
                (argv0 ++ ": option requires an argument -- " ++ arg_str ++ nl) ;;;
              print_help argv0 ;;;
              ret 1%Z
          | size_arg :: _ => set_max_size_and_exit size_arg
          end
        else if compare_arg arg_str "-h" "--help" then
          print_help argv0 ;;; ret 0%Z
        else if Ascii.eqb (first_char arg_str) "-"%char then
          complain (argv0 ++ ": invalid option -- " ++ arg_str ++ nl) ;;;
          print_help argv0 ;;;
          ret 1%Z
        else wrap_compiler_and_exit arguments
    end.

End Commands.

(** ** A console world *)

(** Modelled from the spec: the configuration holds the cache size budget
    [max_cache_size] (0 means unlimited); the classes that keep it are
    missing. The world also holds what was written to the two streams. *)
Record console : Type := {
  max_cache_size : Z;
  written_out : string;
  written_err : string
}.

(** Modelled from the spec: the file part of a path without its directories;
    [file::get_file_part] is missing and extensions are left alone here. *)
Fixpoint after_last_slash (s : string) : string :=
  match s with
  | EmptyString => EmptyString
  | String c rest =>
      if existsb (Ascii.eqb "/"%char) (list_ascii_of_string rest)
      then after_last_slash rest
      else if Ascii.eqb c "/"%char then rest else s
  end.

(** Modelled from the spec: the collaborators of [main.cpp] over a console;
    writing adds to the two streams, nothing touches the size budget. *)
Definition console_collaborators : collaborators console :=
  {| get_file_part := fun p _ => after_last_slash p;
     find_executable := fun p _ => ret p;
     new_cache := ret tt;
     cache_clear := ret tt;
     cache_show_stats := ret tt;
     can_handle_command := fun _ _ => ret false;
     wrapper_handle_command := fun _ _ rc => ret (false, rc);
     run_with_prefix := fun _ _ => ret 0%Z;
     cout := fun text w =>
       {| max_cache_size := max_cache_size w;
          written_out := written_out w ++ text;
          written_err := written_err w |};
     cerr := fun text w =>
       {| max_cache_size := max_cache_size w;
          written_out := written_out w;
          written_err := written_err w ++ text |};
     debug_log := fun _ _ => ret tt |}.

End Main.

(** * Concrete worlds

    Small worlds and inputs on which the statements below are evaluated. *)
Module Fixtures.

Import Cache Reference.

(** A stand-in for the hash function: the bytes themselves, so that no two
    contents share a digest. *)
Definition plain_digest (bytes : string) : string := bytes.

Definition no_dir (p : string) : string := "".

(** [n] bytes of content. *)
Definition filler (n : nat) : string :=
  string_of_list_ascii (repeat "x"%char n).

Definition config_64 : config_t :=
  {| max_local_entry_size := 64; max_remote_entry_size := 0;
     compress := true; read_only_remote := false |}.

Definition config_unlimited : config_t :=
  {| max_local_entry_size := 0; max_remote_entry_size := 0;
     compress := true; read_only_remote := false |}.

Definition limited : collaborators world :=
  reference plain_digest no_dir config_64.

Definition unlimited : collaborators world :=
  reference plain_digest no_dir config_unlimited.

(** The caller expects one required output file. *)
Definition object_expected : string_map expected_file_t :=
  [("object", {| path := "out.o"; required := true |})].

Definition object_entry : cache_entry_t :=
  {| file_ids := ["object"]; compression_mode := NONE;
     std_out := "compiled"; std_err := ""; return_code := 0 |}.

(** An entry that also lists a dependency file. *)
Definition object_and_depfile_entry : cache_entry_t :=
  {| file_ids := ["object"; "depfile"]; compression_mode := NONE;
     std_out := "compiled"; std_err := ""; return_code := 0 |}.

Definition stored_object (bytes : string) : stored_entry :=
  {| meta := object_entry; payload := {[ "object" := bytes ]} |}.

Definition stored_object_and_depfile : stored_entry :=
  {| meta := object_and_depfile_entry;
     payload := {[ "object" := "old"; "depfile" := "out.o: a.c" ]} |}.

(** Nothing on disk, both caches empty, the remote cache out of reach. *)
Definition empty_world : world :=
  {| files := ∅; local_writable := true; local_entries := ∅;
     local_manifests := ∅; stats := no_stats; remote_reachable := false;
     remote_connected := false; remote_entries := ∅;
     out := ""; err := ""; log := [] |}.

(** The tool has just written an output file of 120 bytes: with the 8 bytes
    of stdout the entry has a total size of 128. *)
Definition built_world : world :=
  with_files {[ "out.o" := filler 120 ]} empty_world.

(** As [built_world], with an older entry already stored under the hash. *)
Definition stale_world : world :=
  with_local_entries {[ "h1" := stored_object "old" ]} built_world.

(** As [built_world], with a cache directory that cannot be written. *)
Definition read_only_world : world :=
  {| files := {[ "out.o" := filler 120 ]}; local_writable := false;
     local_entries := ∅; local_manifests := ∅; stats := no_stats;
     remote_reachable := false; remote_connected := false;
     remote_entries := ∅; out := ""; err := ""; log := [] |}.

(** The required output file is not on disk. *)
Definition unbuilt_world : world := empty_world.

(** The remote cache can be reached and holds [stored] under "h1". *)
Definition remote_world (stored : stored_entry) : world :=
  {| files := ∅; local_writable := true; local_entries := ∅;
     local_manifests := ∅; stats := no_stats; remote_reachable := true;
     remote_connected := false;
     remote_entries := {[ "h1" := stored ]};
     out := ""; err := ""; log := [] |}.

(** The local entry lists a file the caller does not expect, the remote
    entry lists the expected file only. *)
Definition disagreeing_world : world :=
  with_local_entries {[ "h1" := stored_object_and_depfile ]}
    (remote_world (stored_object "new")).

(** The local entry lists a file the caller does not expect and the remote
    cache is out of reach. *)
Definition mismatching_world : world :=
  with_local_entries {[ "h1" := stored_object_and_depfile ]} empty_world.

(** A manifest recorded when [hdr.h] held "#define X 1". *)
Definition header_manifest : direct_mode_manifest_t :=
  {| hash := "h1"; files_with_hashes := [("hdr.h", "#define X 1")] |}.

Definition direct_world (header : string) : world :=
  with_local_manifests {[ "d1" := header_manifest ]}
    (with_files {[ "hdr.h" := header ]} empty_world).

(** ** A program wrapper over a cache kept as a map *)

Definition tool_result (code : Z) : ProgramWrapper.run_result_t :=
  {| ProgramWrapper.run_return_code := code;
     ProgramWrapper.run_std_out := "out";
     ProgramWrapper.run_std_err := "" |}.

Definition scripted (hard_links : bool) (code : Z)
  : ProgramWrapper.collaborators (gmap string ProgramWrapper.entry_t) :=
  {| ProgramWrapper.config_hard_links := hard_links;
     ProgramWrapper.m_args := fun _ => ["cc"; "-c"; "a.c"];
     ProgramWrapper.hasher_final := fun _ => "h1";
     ProgramWrapper.hasher_file := fun _ => ret "cc-1.0";
     ProgramWrapper.join := fun sep _ l => String.concat sep l;
     ProgramWrapper.get_file_part := fun p => p;
     ProgramWrapper.cache_lookup := fun h w => (Normal (w !! h), w);
     ProgramWrapper.cache_add := fun h e _ w => (Normal tt, <[h := e]> w);
     ProgramWrapper.link_or_copy := fun _ _ => ret tt;
     ProgramWrapper.copy := fun _ _ => ret tt;
     ProgramWrapper.run_with_prefix := fun _ _ => ret (tool_result code);
     ProgramWrapper.cout := fun _ => ret tt;
     ProgramWrapper.cerr := fun _ => ret tt;
     ProgramWrapper.debug_log := fun _ _ => ret tt |}.

(** A wrapper that reports the capabilities [caps] and one build file. *)
Definition object_wrapper (caps : list string)
  : ProgramWrapper.Wrapper (gmap string ProgramWrapper.entry_t) :=
  {| ProgramWrapper.resolve_args := ret tt;
     ProgramWrapper.get_capabilities := ret caps;
     ProgramWrapper.preprocess_source := ret "int main(){return 0;}";
     ProgramWrapper.get_relevant_arguments := ret ["-c"];
     ProgramWrapper.get_relevant_env_vars := ret [];
     ProgramWrapper.get_program_id := ret "cc-1.0";
     ProgramWrapper.get_build_files := ret [("object", "out.o")] |}.

Definition cached_object : ProgramWrapper.entry_t :=
  {| ProgramWrapper.files := [("object", "cache/h1/object")];
     ProgramWrapper.std_out := "";
     ProgramWrapper.std_err := "";
     ProgramWrapper.return_code := 0 |}.

Definition cold_cache : gmap string ProgramWrapper.entry_t := ∅.

Definition warm_cache : gmap string ProgramWrapper.entry_t :=
  {[ "h1" := cached_object ]}.

(** The tool exits with code 1 on a cold cache. *)
Definition failing_run
  : outcome (bool * Z)
    * (gmap string ProgramWrapper.entry_t * list ProgramWrapper.event) :=
  ProgramWrapper.handle_command (ProgramWrapper.traced (scripted true 1))
    (ProgramWrapper.traced_wrapper (object_wrapper ["hard_links"]))
    (cold_cache, []).

(** A cache hit with hard links configured and reported by the wrapper. *)
Definition hard_link_run
  : outcome (bool * Z)
    * (gmap string ProgramWrapper.entry_t * list ProgramWrapper.event) :=
  ProgramWrapper.handle_command (ProgramWrapper.traced (scripted true 0))
    (ProgramWrapper.traced_wrapper (object_wrapper ["hard_links"]))
    (warm_cache, []).

(** A remote hit of 128 bytes looked up with [max_local_entry_size = 64]. *)
Definition oversized_remote_run : outcome (bool * Z) * world :=
  lookup limited "h1" object_expected false false 1
    (remote_world (stored_object (filler 120))).

(** The world after the entry of 128 bytes was offered to a local cache that
    takes entries below 64 bytes. *)
Definition world_after_skip : world :=
  snd (add limited "h1" object_entry object_expected false built_world).

End Fixtures.

(** * Kinds of calls of the cache engine *)
Module CacheCalls.

Import Cache.

(** The calls a retrieval from the local cache is made of: the lookup, the
    log, the file system, the fetches and the two standard streams. *)
Definition local_retrieval (ev : event) : Prop :=
  match ev with
  | LocalLookup _ _ => True
  | DebugLog _ _ _ => True
  | CreateDirWithParents _ _ => True
  | LocalGetFile _ _ _ _ _ _ => True
  | PrintRawStdout _ _ => True
  | PrintRawStderr _ _ => True
  | _ => False
  end.

(** The calls of the loop over the files of a local entry when every call
    returns: for each listed file a line in the log, the creation of the
    target directory when the caller asked for it, and the fetch of the file
    to the path the caller expects it at, decompressed when the entry was
    stored with compression mode ALL, with the caller's hard-link flag.
    [dir_part] is [file::get_dir_part]. *)
Fixpoint local_retrieval_calls (dir_part : string -> string) (hash : string)
    (expected_files : string_map expected_file_t)
    (allow_hard_links create_target_dirs : bool)
    (cached_entry : cache_entry_t) (ids : list string) : list event :=
  match ids with
  | [] => []
  | file_id :: rest =>
      match map_find file_id expected_files with
      | Some expected_file =>
          let target_path := path expected_file in
          DebugLog INFO
            ("Local cache hit (" ++ hash ++ "): " ++ file_id ++ " => "
               ++ target_path)
            (Normal tt)
          :: ((if create_target_dirs
               then [CreateDirWithParents (dir_part target_path) (Normal tt)]
               else [])
              ++ LocalGetFile hash file_id target_path
                   (comp_mode_eqb (compression_mode cached_entry) ALL)
                   allow_hard_links (Normal tt)
                 :: local_retrieval_calls dir_part hash expected_files
                      allow_hard_links create_target_dirs cached_entry
                      rest)%list
      | None => []
      end
  end.

(** The text logged when a remote entry cannot be added to the local
    cache. *)
Definition promotion_error_message (what : string) : string :=
  "Unable to add remote entry to the local cache: " ++ what.

(** How [lookup_in_remote_cache] ends once the remote entry was retrieved
    and the failure of its promotion was logged: with a hit, unless the log
    call itself did not return. *)
Definition hit_unless (logged : outcome unit) (return_code : Z)
  : outcome (bool * Z) :=
  match logged with
  | Normal _ => Normal (true, return_code)
  | Raise e => Raise e
  | Terminate => Terminate
  end.

(** The calls of the loop over the files of a remote entry, with the
    creation of a directory only when the caller asked for it. *)
Definition remote_fetch_event (create_target_dirs : bool) (ev : event)
  : Prop :=
  match ev with
  | DebugLog _ _ _ => True
  | CreateDirWithParents _ _ => create_target_dirs = true
  | RemoteGetFile _ _ _ _ _ => True
  | _ => False
  end.

(** The calls of the loop over the files of a remote entry when every call
    returns: as for a local entry, the fetch being one from the remote
    cache. *)
Fixpoint remote_retrieval_calls (dir_part : string -> string) (hash : string)
    (expected_files : string_map expected_file_t)
    (create_target_dirs : bool)
    (cached_entry : cache_entry_t) (ids : list string) : list event :=
  match ids with
  | [] => []
  | file_id :: rest =>
      match map_find file_id expected_files with
      | Some expected_file =>
          let target_path := path expected_file in
          DebugLog INFO
            ("Remote cache hit (" ++ hash ++ "): " ++ file_id ++ " => "
               ++ target_path)
            (Normal tt)
          :: ((if create_target_dirs
               then [CreateDirWithParents (dir_part target_path) (Normal tt)]
               else [])
              ++ RemoteGetFile hash file_id target_path
                   (comp_mode_eqb (compression_mode cached_entry) ALL)
                   (Normal tt)
                 :: remote_retrieval_calls dir_part hash expected_files
                      create_target_dirs cached_entry rest)%list
      | None => []
      end
  end.

(** The calls of the promotion of a remote hit to the local cache. *)
Definition promotion_event (ev : event) : Prop :=
  match ev with
  | GetFileInfo _ _ => True
  | LocalAdd _ _ _ _ _ => True
  | LocalUpdateStats _ _ _ => True
  | DebugLog _ _ _ => True
  | _ => False
  end.

(** The paths whose size was asked for, in the order of the calls. *)
Fixpoint size_queries (trace : list event) : list string :=
  match trace with
  | [] => []
  | GetFileInfo p _ :: rest => p :: size_queries rest
  | _ :: rest => size_queries rest
  end.

(** The paths of the expected files, in the order of the map. *)
Definition expected_paths (file_paths : string_map expected_file_t)
  : list string :=
  map (fun item => path (snd item)) file_paths.

(** The calls a regular lookup of [hash] may make: it asks the two caches
    for that hash only, and it neither looks up nor stores a manifest, nor
    hashes a file, nor adds to the remote cache. *)
Definition regular_lookup_event (hash : string) (ev : event) : Prop :=
  match ev with
  | LocalLookup h _ => h = hash
  | RemoteLookup h _ => h = hash
  | LocalGetFile h _ _ _ _ _ => h = hash
  | RemoteGetFile h _ _ _ _ => h = hash
  | LocalUpdateStats h delta _ =>
      h = hash /\ (delta = remote_hit \/ delta = remote_miss)
  | LocalLookupDirect _ _ => False
  | LocalAddDirect _ _ _ => False
  | HashFile _ _ => False
  | RemoteAdd _ _ _ _ => False
  | RemoteIsConnected _ => False
  | _ => True
  end.

(** The calls of the direct mode part of [lookup_direct]: the lookup of
    the manifest, a line in the log, and the count of a direct hit or of a
    direct miss. *)
Definition direct_event (direct_hash : string) (ev : event) : Prop :=
  match ev with
  | LocalLookupDirect h _ => h = direct_hash
  | DebugLog level _ _ => level = INFO
  | LocalUpdateStats h delta _ =>
      h = direct_hash /\ (delta = direct_hit \/ delta = direct_miss)
  | _ => False
  end.

End CacheCalls.

(** * The calls of the command line *)
Module MainCalls.

Import Main.

Inductive event : Type :=
| FindExecutable (path exclude : string) (result : outcome string)
| NewCache (result : outcome unit)
| CacheClear (result : outcome unit)
| CacheShowStats (result : outcome unit)
| CanHandleCommand (kind : wrapper_kind) (true_exe_path : string)
    (result : outcome bool)
| WrapperHandleCommand (kind : wrapper_kind) (args : list string)
    (return_code : Z) (result : outcome (bool * Z))
| RunWithPrefix (args : list string) (quiet : bool) (result : outcome Z)
| Cout (text : string)
| Cerr (text : string)
| DebugLog (level : log_level) (message : string) (result : outcome unit).

(** [traced C] behaves as [C] and also records, in order, every call
    [main.cpp] makes. *)
Definition traced {W} (C : collaborators W) : collaborators (W * list event) :=
  {| get_file_part := get_file_part C;
     find_executable := fun p x =>
       recording (FindExecutable p x) (find_executable C p x);
     new_cache := recording NewCache (new_cache C);
     cache_clear := recording CacheClear (cache_clear C);
     cache_show_stats := recording CacheShowStats (cache_show_stats C);
     can_handle_command := fun k p =>
       recording (CanHandleCommand k p) (can_handle_command C k p);
     wrapper_handle_command := fun k a rc =>
       recording (WrapperHandleCommand k a rc)
         (wrapper_handle_command C k a rc);
     run_with_prefix := fun a q =>
       recording (RunWithPrefix a q) (run_with_prefix C a q);
     cout := fun text s => (cout C text (fst s), (snd s ++ [Cout text])%list);
     cerr := fun text s => (cerr C text (fst s), (snd s ++ [Cerr text])%list);
     debug_log := fun l m => recording (DebugLog l m) (debug_log C l m) |}.

(** The calls of the administrative commands: the cache object and the two
    standard streams. *)
Definition administrative (ev : event) : Prop :=
  match ev with
  | NewCache _ => True
  | CacheClear _ => True
  | CacheShowStats _ => True
  | Cout _ => True
  | Cerr _ => True
  | _ => False
  end.

(** The calls of [-C]: the cache object, [clear()] and the two streams. *)
Definition clearing (ev : event) : Prop :=
  match ev with
  | NewCache _ => True
  | CacheClear _ => True
  | Cout _ => True
  | Cerr _ => True
  | _ => False
  end.

(** The calls of the other options: the cache is not cleared. *)
Definition reporting (ev : event) : Prop :=
  match ev with
  | NewCache _ => True
  | CacheShowStats _ => True
  | Cout _ => True
  | Cerr _ => True
  | _ => False
  end.

(** Writing to a standard stream. *)
Definition printing (ev : event) : Prop :=
  match ev with
  | Cout _ => True
  | Cerr _ => True
  | _ => False
  end.

(** The calls of the inner [try] block of [wrap_compiler_and_exit]. *)
Definition wrapping (ev : event) : Prop :=
  match ev with
  | NewCache _ => True
  | CanHandleCommand _ _ _ => True
  | WrapperHandleCommand _ _ _ _ => True
  | DebugLog _ _ _ => True
  | _ => False
  end.

(** The wrappers asked before [kind] all answered that they cannot handle
    the command: gcc is asked first, then ghs, then msvc. *)
Definition earlier_declined (true_exe_path : string) (kind : wrapper_kind)
    (trace : list event) : Prop :=
  match kind with
  | gcc_wrapper => True
  | ghs_wrapper =>
      In (CanHandleCommand gcc_wrapper true_exe_path (Normal false)) trace
  | msvc_wrapper =>
      In (CanHandleCommand gcc_wrapper true_exe_path (Normal false)) trace
      /\ In (CanHandleCommand ghs_wrapper true_exe_path (Normal false)) trace
  end.

End MainCalls.

(** * Runs on the concrete worlds *)
Module Scenarios.

Import Cache Reference Fixtures.

(** The value of [return_code] after a lookup that returned; 0 stands for a
    lookup that did not return. *)
Definition returned_code (r : outcome (bool * Z)) : Z :=
  match r with
  | Normal (_, rc) => rc
  | _ => 0
  end.

(** A lookup that misses: the local entry lists a file the caller does not
    expect and the remote cache is out of reach. The caller's [return_code]
    is 7. *)
Definition missed_lookup : outcome (bool * Z) * world :=
  lookup unlimited "h1" object_expected false false 7 mismatching_world.

(** A direct mode entry is created for two implicit input files, of which
    [gone.h] is not on disk. *)
Definition unreadable_input_run : outcome unit * (world * list event) :=
  add_direct (traced unlimited) "d2" "h1" ["hdr.h"; "gone.h"]
    (direct_world "#define X 1", []).

(** A local hit: [stale_world] holds an entry for "h1". *)
Definition local_hit_run : outcome (bool * Z) * (world * list event) :=
  lookup_in_local_cache (traced unlimited) "h1" object_expected false false 1
    (stale_world, []).

(** The output file is on disk and the remote cache is connected. *)
Definition connected_world : world :=
  {| files := {[ "out.o" := "obj" ]}; local_writable := true;
     local_entries := ∅; local_manifests := ∅; stats := no_stats;
     remote_reachable := true; remote_connected := true;
     remote_entries := ∅; out := ""; err := ""; log := [] |}.

Definition add_to_both_run : outcome unit * (world * list event) :=
  add (traced unlimited) "h2" object_entry object_expected false
    (connected_world, []).

(** The remote cache holds the entry and the local cache directory cannot
    be written. *)
Definition unwritable_world : world :=
  {| files := ∅; local_writable := false; local_entries := ∅;
     local_manifests := ∅; stats := no_stats; remote_reachable := true;
     remote_connected := false;
     remote_entries := {[ "h1" := stored_object "new" ]};
     out := ""; err := ""; log := [] |}.

Definition failed_promotion_run
  : outcome (bool * Z) * (world * list event) :=
  lookup_in_remote_cache (traced unlimited) "h1" object_expected false false
    1 (unwritable_world, []).

(** A local cache whose lookups run out of memory: they throw an exception
    that is not a std::runtime_error. *)
Definition out_of_memory : collaborators world :=
  {| config := config_unlimited;
     local_lookup := fun _ => throw (std_exception "std::bad_alloc");
     local_lookup_direct := fun _ => throw (std_exception "std::bad_alloc");
     local_add := local_add unlimited;
     local_add_direct := local_add_direct unlimited;
     local_get_file := local_get_file unlimited;
     local_update_stats := local_update_stats unlimited;
     remote_connect := remote_connect unlimited;
     remote_is_connected := remote_is_connected unlimited;
     remote_lookup := remote_lookup unlimited;
     remote_add := remote_add unlimited;
     remote_get_file := remote_get_file unlimited;
     get_file_info_size := get_file_info_size unlimited;
     create_dir_with_parents := create_dir_with_parents unlimited;
     get_dir_part := no_dir;
     hash_file := hash_file unlimited;
     print_raw_stdout := print_raw_stdout unlimited;
     print_raw_stderr := print_raw_stderr unlimited;
     debug_log := debug_log unlimited |}.

(** A debug log that fails on the line that reports a failed promotion: the
    log call throws a std::runtime_error. All other lines are logged. *)
Definition failing_log : collaborators world :=
  {| config := config_unlimited;
     local_lookup := local_lookup unlimited;
     local_lookup_direct := local_lookup_direct unlimited;
     local_add := local_add unlimited;
     local_add_direct := local_add_direct unlimited;
     local_get_file := local_get_file unlimited;
     local_update_stats := local_update_stats unlimited;
     remote_connect := remote_connect unlimited;
     remote_is_connected := remote_is_connected unlimited;
     remote_lookup := remote_lookup unlimited;
     remote_add := remote_add unlimited;
     remote_get_file := remote_get_file unlimited;
     get_file_info_size := get_file_info_size unlimited;
     create_dir_with_parents := create_dir_with_parents unlimited;
     get_dir_part := no_dir;
     hash_file := hash_file unlimited;
     print_raw_stdout := print_raw_stdout unlimited;
     print_raw_stderr := print_raw_stderr unlimited;
     debug_log := fun level message =>
       if String.prefix "Unable to add remote entry" message
       then throw (runtime_error "Unable to write to the log")
       else debug_log unlimited level message |}.

(** The remote cache holds the entry, the local cache directory cannot be
    written and the failure of the promotion cannot be logged. The caller's
    [return_code] is 7, that of the remote entry is 0. *)
Definition unlogged_promotion_run : outcome (bool * Z) * world :=
  lookup failing_log "h1" object_expected false false 7 unwritable_world.

(** The implicit input [hdr.h] changed since the manifest was recorded. *)
Definition direct_miss_run : outcome (bool * Z) * (world * list event) :=
  lookup_direct (traced unlimited) "d1" object_expected false false 1
    (direct_world "#define X 2", []).

(** The size of the entry that was just built: 8 bytes of stdout and an
    output file of 120 bytes. *)
Definition size_run : outcome Z * (world * list event) :=
  get_total_entry_size (traced unlimited) object_entry object_expected
    (built_world, []).

(** A remote hit: the remote cache holds the entry, the local one is
    empty. *)
Definition remote_hit_run : outcome (bool * Z) * (world * list event) :=
  lookup_in_remote_cache (traced unlimited) "h1" object_expected false false
    1 (remote_world (stored_object "new"), []).

(** ** Runs of the program wrapper *)

(** A wrapper whose build files do not include the cached "object". *)
Definition depfile_wrapper
  : ProgramWrapper.Wrapper (gmap string ProgramWrapper.entry_t) :=
  {| ProgramWrapper.resolve_args := ret tt;
     ProgramWrapper.get_capabilities := ret [];
     ProgramWrapper.preprocess_source := ret "int main(){return 0;}";
     ProgramWrapper.get_relevant_arguments := ret ["-c"];
     ProgramWrapper.get_relevant_env_vars := ret [];
     ProgramWrapper.get_program_id := ret "cc-1.0";
     ProgramWrapper.get_build_files := ret [("depfile", "out.d")] |}.

(** The cached entry lists a file the wrapper does not expect. *)
Definition mismatched_hit_run
  : outcome (bool * Z) * gmap string ProgramWrapper.entry_t :=
  ProgramWrapper.handle_command (scripted false 0) depfile_wrapper warm_cache.

Definition warm_run
  : outcome (bool * Z)
    * (gmap string ProgramWrapper.entry_t * list ProgramWrapper.event) :=
  ProgramWrapper.handle_command (ProgramWrapper.traced (scripted false 0))
    (ProgramWrapper.traced_wrapper (object_wrapper []))
    (warm_cache, []).

Definition cold_run
  : outcome (bool * Z)
    * (gmap string ProgramWrapper.entry_t * list ProgramWrapper.event) :=
  ProgramWrapper.handle_command (ProgramWrapper.traced (scripted false 0))
    (ProgramWrapper.traced_wrapper (object_wrapper []))
    (cold_cache, []).

Definition default_run
  : outcome (bool * Z)
    * (gmap string ProgramWrapper.entry_t * list ProgramWrapper.event) :=
  ProgramWrapper.handle_command (ProgramWrapper.traced (scripted true 0))
    (ProgramWrapper.traced_wrapper
       (ProgramWrapper.default_wrapper (scripted true 0)))
    (cold_cache, []).

(** ** Runs of the command line *)

Definition fresh_console : Main.console :=
  {| Main.max_cache_size := 0; Main.written_out := "";
     Main.written_err := "" |}.

Definition bogus_option_run
  : outcome Z * (Main.console * list MainCalls.event) :=
  Main.main (MainCalls.traced Main.console_collaborators) "buildcache"
    ["--bogus"] (fresh_console, []).

Definition unwrapped_run
  : outcome Z * (Main.console * list MainCalls.event) :=
  Main.wrap_compiler_and_exit (MainCalls.traced Main.console_collaborators)
    ["gcc"; "-c"; "a.c"] (fresh_console, []).

End Scenarios.

(** * Theorems *)

(** ** The monad *)

Lemma noexcept_never_raises {W A} (body : M W A) (w : W) (e : exception) :
  fst (noexcept body w) <> Raise e.
Proof.
  unfold noexcept. destruct (body w) as [[a | e' | ] w']; simpl; discriminate.
Qed.

Lemma bind_normal {W A B} (c : M W A) (k : A -> M W B) w a w' :
  c w = (Normal a, w') -> bind c k w = k a w'.
Proof. intros H. unfold bind. now rewrite H. Qed.

Lemma bind_raise {W A B} (c : M W A) (k : A -> M W B) w e w' :
  c w = (Raise e, w') -> bind c k w = (Raise e, w').
Proof. intros H. unfold bind. now rewrite H. Qed.

Lemma bind_terminate {W A B} (c : M W A) (k : A -> M W B) w w' :
  c w = (Terminate, w') -> bind c k w = (Terminate, w').
Proof. intros H. unfold bind. now rewrite H. Qed.

Lemma try_catch_normal {W A} (body : M W A) (h : handler W A) w a w' :
  body w = (Normal a, w') -> try_catch body h w = (Normal a, w').
Proof. intros H. unfold try_catch. now rewrite H. Qed.

Lemma try_catch_caught {W A} (body : M W A) (h : handler W A) w e w' k :
  body w = (Raise e, w') -> h e = Some k -> try_catch body h w = k w'.
Proof. intros H Hh. unfold try_catch. now rewrite H, Hh. Qed.

Lemma try_catch_uncaught {W A} (body : M W A) (h : handler W A) w e w' :
  body w = (Raise e, w') -> h e = None -> try_catch body h w = (Raise e, w').
Proof. intros H Hh. unfold try_catch. now rewrite H, Hh. Qed.

(** ** The out-parameter

    The functions that take [return_code] by reference, as equations between
    the value the variable holds at the call and the one it holds at the
    return. *)

Lemma bind_ext {W A B} (c : M W A) (k1 k2 : A -> M W B) w :
  (forall a w1, k1 a w1 = k2 a w1) -> bind c k1 w = bind c k2 w.
Proof.
  intros H. unfold bind. destruct (c w) as [[a | e | ] w1]; auto.
Qed.

Lemma try_catch_ext {W A} (body body' : M W A) (h : handler W A) w :
  body w = body' w -> try_catch body h w = try_catch body' h w.
Proof. intros H. unfold try_catch. now rewrite H. Qed.

Lemma pass_ret {W A} (a : A) v (w : W) :
  Cache.pass (ret a) v w = ret (a, v) w.
Proof. reflexivity. Qed.

Lemma pass_call_bind {W A B} (c : M W A) (k : A -> M (W * Z) B) v w :
  Cache.pass (bind (Cache.call c) k) v w
  = bind c (fun a => Cache.pass (k a) v) w.
Proof.
  unfold Cache.pass, bind, Cache.call. cbn [fst snd].
  now destruct (c w) as [[a | e | ] w1].
Qed.

Lemma pass_assign_bind {W B} u (k : unit -> M (W * Z) B) v (w : W) :
  Cache.pass (bind (Cache.assign u) k) v w = Cache.pass (k tt) u w.
Proof. reflexivity. Qed.

(** Runs, call by call, a computation over the world and the variable. *)
Ltac call_cases :=
  repeat (cbn [fst snd negb];
          match goal with
          | |- context [match ?c ?w with pair _ _ => _ end] =>
              destruct (c w) as [[? | ? | ] ?]
          | |- context [match ?o with Some _ => _ | None => _ end] =>
              is_var o; destruct o
          | |- context [if ?b then _ else _] => is_var b; destruct b
          end).

Section LookupEquations.

Import Cache.
Context {W : Type} (C : collaborators W).

Lemma lookup_in_local_cache_eq hash x allow create rc0 w :
  lookup_in_local_cache C hash x allow create rc0 w
  = (lookup_result <- local_lookup C hash ;;
     match lookup_result with
     | None => ret (false, rc0)
     | Some cached_entry =>
         retrieve_local_files C hash x allow create cached_entry
           (file_ids cached_entry) ;;;
         print_raw_stdout C (std_out cached_entry) ;;;
         print_raw_stderr C (std_err cached_entry) ;;;
         ret (true, return_code cached_entry)
     end) w.
Proof.
  unfold lookup_in_local_cache, lookup_in_local_cache_ref.
  rewrite pass_call_bind. apply bind_ext. intros [e |] w1; [| apply pass_ret].
  do 3 (rewrite pass_call_bind; apply bind_ext; intros _ ?).
  rewrite pass_assign_bind. apply pass_ret.
Qed.

Lemma lookup_in_remote_cache_eq hash x allow create rc0 w :
  lookup_in_remote_cache C hash x allow create rc0 w
  = (connected <- remote_connect C ;;
     if negb connected then ret (false, rc0)
     else
       lookup_result <- remote_lookup C hash ;;
       match lookup_result with
       | None =>
           local_update_stats C hash remote_miss ;;;
           ret (false, rc0)
       | Some cached_entry =>
           retrieve_remote_files C hash x create cached_entry
             (file_ids cached_entry) ;;;
           print_raw_stdout C (std_out cached_entry) ;;;
           print_raw_stderr C (std_err cached_entry) ;;;
           promote C hash x allow cached_entry ;;;
           ret (true, return_code cached_entry)
       end) w.
Proof.
  unfold lookup_in_remote_cache, lookup_in_remote_cache_ref.
  rewrite pass_call_bind. apply bind_ext. intros connected w1.
  destruct (negb connected); [apply pass_ret |].
  rewrite pass_call_bind. apply bind_ext. intros [e |] w2.
  - do 3 (rewrite pass_call_bind; apply bind_ext; intros _ ?).
    rewrite pass_assign_bind, pass_call_bind. apply bind_ext. intros _ ?.
    apply pass_ret.
  - rewrite pass_call_bind. apply bind_ext. intros _ ?. apply pass_ret.
Qed.

(** An exception leaves [lookup_in_local_cache] with [return_code] as it
    was. *)
Lemma lookup_in_local_cache_raises hash x allow create rc0 w e w1 rc1 :
  lookup_in_local_cache_ref C hash x allow create (w, rc0)
    = (Raise e, (w1, rc1)) ->
  rc1 = rc0.
Proof.
  unfold lookup_in_local_cache_ref, bind, call, assign, ret.
  call_cases; intros H; now inversion H.
Qed.

Lemma local_attempt_eq hash x allow create rc0 w :
  local_attempt C hash x allow create rc0 w
  = try_catch
      (lookup_in_local_cache C hash x allow create rc0)
      (catch_runtime_error
         (fun what =>
            debug_log C ERROR
              ("Local lookup of " ++ hash ++ " failed: " ++ what) ;;;
            ret (false, rc0))) w.
Proof.
  unfold local_attempt, local_attempt_ref, lookup_in_local_cache, pass,
    try_catch.
  destruct (lookup_in_local_cache_ref C hash x allow create (w, rc0))
    as [[b | e | ] [w1 rc1]] eqn:Hrun; try reflexivity.
  apply lookup_in_local_cache_raises in Hrun. subst rc1.
  destruct e as [what | what | ]; try reflexivity.
  cbn [catch_runtime_error fst snd]. unfold bind, call, ret.
  call_cases; reflexivity.
Qed.

(** The second [catch] clause of [lookup] returns with [return_code] as
    [lookup_in_remote_cache] left it. *)
Lemma remote_attempt_eq hash x allow create rc0 w :
  remote_attempt C hash x allow create rc0 w
  = try_catch
      (lookup_in_remote_cache C hash x allow create rc0)
      (catch_runtime_error
         (fun what =>
            debug_log C ERROR
              ("Remote lookup of " ++ hash ++ " failed: " ++ what) ;;;
            ret (false,
                 snd (snd (lookup_in_remote_cache_ref C hash x allow create
                             (w, rc0)))))) w.
Proof.
  unfold remote_attempt, remote_attempt_ref, lookup_in_remote_cache, pass,
    try_catch.
  destruct (lookup_in_remote_cache_ref C hash x allow create (w, rc0))
    as [[b | e | ] [w1 rc1]]; try reflexivity.
  destruct e as [what | what | ]; try reflexivity.
  cbn [catch_runtime_error fst snd]. unfold bind, call, ret.
  call_cases; reflexivity.
Qed.

Lemma lookup_eq hash x allow create rc0 w :
  lookup C hash x allow create rc0 w
  = noexcept
      (local_result <- local_attempt C hash x allow create rc0 ;;
       if fst local_result then ret (true, snd local_result)
       else
         remote_result <-
           remote_attempt C hash x allow create (snd local_result) ;;
         if fst remote_result then ret (true, snd remote_result)
         else ret (false, snd remote_result)) w.
Proof.
  unfold lookup, lookup_ref, local_attempt, remote_attempt, pass, noexcept,
    bind, ret.
  destruct (local_attempt_ref C hash x allow create (w, rc0))
    as [[[|] | e | ] [w1 rc1]]; try reflexivity.
  cbn [fst snd].
  destruct (remote_attempt_ref C hash x allow create (w1, rc1))
    as [[[|] | e | ] [w2 rc2]]; reflexivity.
Qed.

Lemma lookup_direct_eq direct_hash x allow create rc0 w :
  lookup_direct C direct_hash x allow create rc0 w
  = noexcept
      (found <-
         try_catch
           (manifest <- local_lookup_direct C direct_hash ;;
            match manifest with
            | None =>
                throw (runtime_error "No matching direct mode entry found")
            | Some m =>
                debug_log C INFO
                  ("Direct mode cache hit (" ++ direct_hash ++ "): "
                     ++ Cache.hash m) ;;;
                local_update_stats C direct_hash direct_hit ;;;
                ret (Some (Cache.hash m))
            end)
           (catch_runtime_error
              (fun what =>
                 debug_log C INFO
                   ("Direct mode cache miss (" ++ direct_hash ++ "): "
                      ++ what) ;;;
                 local_update_stats C direct_hash direct_miss ;;;
                 ret None)) ;;
       match found with
       | None => ret (false, rc0)
       | Some hash => lookup C hash x allow create rc0
       end) w.
Proof.
  unfold lookup_direct, lookup_direct_ref, lookup, pass, noexcept.
  match goal with
  | |- context [try_catch ?b ?h] => generalize (try_catch b h)
  end.
  intros direct_part. unfold bind, call, ret. cbn [fst snd].
  destruct (direct_part w) as [[[h1 |] | e | ] w1]; try reflexivity.
  destruct (lookup_ref C h1 x allow create (w1, rc0))
    as [[b | e | ] [w2 rc2]]; reflexivity.
Qed.

(** [return_code] after [lookup_in_remote_cache]: the value it had at the
    call, unless an entry was found, retrieved and printed, which then gave
    its return code. *)
Lemma lookup_in_remote_cache_assigns hash x allow create rc0 w r w1 rc1 :
  lookup_in_remote_cache_ref C hash x allow create (w, rc0) = (r, (w1, rc1)) ->
  rc1 = rc0
  \/ exists e w2 w3,
       remote_lookup C hash w2 = (Normal (Some e), w3) /\ rc1 = return_code e.
Proof.
  unfold lookup_in_remote_cache_ref, bind, call, assign, ret. cbn [fst snd].
  destruct (remote_connect C w) as [[[|] | ex | ] w2];
    try (intros H; inversion H; now left).
  cbn [negb fst snd].
  destruct (remote_lookup C hash w2) as [[[e |] | ex | ] w3] eqn:Hlookup;
    try (intros H; inversion H; now left).
  - call_cases; intros H; inversion H; subst; eauto 6.
  - call_cases; intros H; inversion H; now left.
Qed.

End LookupEquations.

Section CacheFacts.

Import Cache.
Context {W : Type} (C : collaborators W).

Lemma local_attempt_runtime_error hash x allow create rc0 w what w1 w2 :
  lookup_in_local_cache C hash x allow create rc0 w
    = (Raise (runtime_error what), w1) ->
  debug_log C ERROR ("Local lookup of " ++ hash ++ " failed: " ++ what) w1
    = (Normal tt, w2) ->
  local_attempt C hash x allow create rc0 w = (Normal (false, rc0), w2).
Proof.
  intros Hl Hlog. rewrite local_attempt_eq.
  erewrite try_catch_caught by (exact Hl || reflexivity).
  now rewrite (bind_normal _ _ _ _ _ Hlog).
Qed.

Lemma remote_attempt_runtime_error hash x allow create rc0 w what w1 rc1 w2 :
  lookup_in_remote_cache_ref C hash x allow create (w, rc0)
    = (Raise (runtime_error what), (w1, rc1)) ->
  debug_log C ERROR ("Remote lookup of " ++ hash ++ " failed: " ++ what) w1
    = (Normal tt, w2) ->
  remote_attempt C hash x allow create rc0 w = (Normal (false, rc1), w2).
Proof.
  intros Hl Hlog.
  unfold remote_attempt, remote_attempt_ref, pass, try_catch. rewrite Hl.
  cbn [catch_runtime_error]. unfold bind, call, ret. cbn [fst snd].
  now rewrite Hlog.
Qed.

Lemma lookup_after_local_miss hash x allow create rc0 w rc1 w1 :
  local_attempt C hash x allow create rc0 w = (Normal (false, rc1), w1) ->
  lookup C hash x allow create rc0 w
  = noexcept
      (remote_result <- remote_attempt C hash x allow create rc1 ;;
       if fst remote_result then ret (true, snd remote_result)
       else ret (false, snd remote_result)) w1.
Proof.
  intros H. rewrite lookup_eq. unfold noexcept.
  now rewrite (bind_normal _ _ _ _ _ H).
Qed.

Lemma add_size_error hash entry x allow w e w1 :
  get_total_entry_size C entry x w = (Raise e, w1) ->
  add C hash entry x allow w = (Raise e, w1).
Proof. intros H. unfold add. now apply bind_raise. Qed.

Lemma add_local_error hash entry x allow w size w1 e w2 :
  get_total_entry_size C entry x w = (Normal size, w1) ->
  fits size (max_local_entry_size (config C)) = true ->
  local_add C hash entry x allow w1 = (Raise e, w2) ->
  add C hash entry x allow w = (Raise e, w2).
Proof.
  intros Hs Hf Ha. unfold add. rewrite (bind_normal _ _ _ _ _ Hs).
  apply bind_raise. unfold local_insert. now rewrite Hf.
Qed.

Lemma remote_insert_error hash entry x size w w1 e w2 w3 :
  remote_is_connected C w = (Normal true, w1) ->
  read_only_remote (config C) = false ->
  fits size (max_remote_entry_size (config C)) = true ->
  remote_add C hash (remote_entry_of entry) x w1 = (Raise e, w2) ->
  debug_log C WARNING (remote_error_message e) w2 = (Normal tt, w3) ->
  remote_insert C hash entry x size w = (Normal tt, w3).
Proof.
  intros Hc Hro Hf Ha Hlog. unfold remote_insert.
  rewrite (bind_normal _ _ _ _ _ Hc), Hro, Hf. simpl.
  unfold try_catch. rewrite Ha.
  destruct e; simpl in *; exact Hlog.
Qed.

End CacheFacts.

(** C2 (amended). [cache_t::lookup] never lets an exception reach its caller:
    a std::runtime_error thrown by the local lookup is logged and the local
    cache counts as a miss, a std::runtime_error thrown by the remote lookup
    is logged and [lookup] returns false, with [return_code] as the remote
    lookup left it. [cache_t::add] catches the errors of
    the remote insert only, which it logs as warnings: an exception thrown by
    the size computation or by the local insert leaves [add]. *)
Theorem lookup_contains_errors_add_only_remote_ones
    {W : Type} (C : Cache.collaborators W) (hash : string)
    (x : string_map Cache.expected_file_t) (allow create : bool) (rc0 : Z)
    (entry : Cache.cache_entry_t) :
  (forall w e, fst (Cache.lookup C hash x allow create rc0 w) <> Raise e)
  /\ (forall w what w1 w2,
        Cache.lookup_in_local_cache C hash x allow create rc0 w
          = (Raise (runtime_error what), w1) ->
        Cache.debug_log C ERROR
          ("Local lookup of " ++ hash ++ " failed: " ++ what) w1
          = (Normal tt, w2) ->
        Cache.local_attempt C hash x allow create rc0 w
          = (Normal (false, rc0), w2))
  /\ (forall w rc1 w1 what w2 rc2 w3,
        Cache.local_attempt C hash x allow create rc0 w
          = (Normal (false, rc1), w1) ->
        Cache.lookup_in_remote_cache_ref C hash x allow create (w1, rc1)
          = (Raise (runtime_error what), (w2, rc2)) ->
        Cache.debug_log C ERROR
          ("Remote lookup of " ++ hash ++ " failed: " ++ what) w2
          = (Normal tt, w3) ->
        Cache.lookup C hash x allow create rc0 w = (Normal (false, rc2), w3))
  /\ (forall w e w1,
        Cache.get_total_entry_size C entry x w = (Raise e, w1) ->
        Cache.add C hash entry x allow w = (Raise e, w1))
  /\ (forall w size w1 e w2,
        Cache.get_total_entry_size C entry x w = (Normal size, w1) ->
        Cache.fits size (Cache.max_local_entry_size (Cache.config C)) = true ->
        Cache.local_add C hash entry x allow w1 = (Raise e, w2) ->
        Cache.add C hash entry x allow w = (Raise e, w2))
  /\ (forall size w w1 e w2 w3,
        Cache.remote_is_connected C w = (Normal true, w1) ->
        Cache.read_only_remote (Cache.config C) = false ->
        Cache.fits size (Cache.max_remote_entry_size (Cache.config C)) = true ->
        Cache.remote_add C hash (Cache.remote_entry_of entry) x w1
          = (Raise e, w2) ->
        Cache.debug_log C WARNING (Cache.remote_error_message e) w2
          = (Normal tt, w3) ->
        Cache.remote_insert C hash entry x size w = (Normal tt, w3)).
Proof.
  repeat split.
  - intros w e. rewrite lookup_eq. apply noexcept_never_raises.
  - intros. eapply local_attempt_runtime_error; eassumption.
  - intros w rc1 w1 what w2 rc2 w3 Hl Hr Hlog.
    rewrite (lookup_after_local_miss C _ _ _ _ _ _ _ _ Hl).
    unfold noexcept.
    rewrite (bind_normal _ _ _ _ _
               (remote_attempt_runtime_error C _ _ _ _ _ _ _ _ _ _ Hr Hlog)).
    reflexivity.
  - intros. now apply add_size_error.
  - intros. eapply add_local_error; eassumption.
  - intros. eapply remote_insert_error; eassumption.
Qed.

(** ** Traces *)

Section Appends.

Context {E W : Type}.

Lemma appends_ret {A} (P : E -> Prop) (a : A) :
  appends P (ret a : M (W * list E) A).
Proof. intros s. exists []. simpl. now rewrite app_nil_r. Qed.

Lemma appends_throw {A} (P : E -> Prop) e :
  appends P (throw e : M (W * list E) A).
Proof. intros s. exists []. simpl. now rewrite app_nil_r. Qed.

Lemma appends_recording {A} (P : E -> Prop) (mk : outcome A -> E) (op : M W A) :
  (forall r, P (mk r)) -> appends P (recording mk op).
Proof.
  intros H s. unfold recording. destruct (op (fst s)) as [r w'].
  exists [mk r]. simpl. split; [reflexivity | constructor; auto].
Qed.

Lemma appends_bind {A B} P (c : M (W * list E) A) (k : A -> M (W * list E) B) :
  appends P c -> (forall a, appends P (k a)) -> appends P (bind c k).
Proof.
  intros Hc Hk s. unfold bind.
  destruct (Hc s) as (n1 & E1 & F1).
  destruct (c s) as [[a | e | ] s1]; simpl in *; try (exists n1; now split).
  destruct (Hk a s1) as (n2 & E2 & F2).
  exists (n1 ++ n2)%list. rewrite E2, E1, app_assoc. split; [reflexivity|].
  now apply Forall_app.
Qed.

Lemma appends_try_catch {A} P (body : M (W * list E) A) (h : handler _ A) :
  appends P body -> (forall e k, h e = Some k -> appends P k) ->
  appends P (try_catch body h).
Proof.
  intros Hc Hk s. unfold try_catch.
  destruct (Hc s) as (n1 & E1 & F1).
  destruct (body s) as [[a | e | ] s1]; simpl in *; try (exists n1; now split).
  destruct (h e) as [k|] eqn:Hh; [| exists n1; now split].
  destruct (Hk e k Hh s1) as (n2 & E2 & F2).
  exists (n1 ++ n2)%list. rewrite E2, E1, app_assoc. split; [reflexivity|].
  now apply Forall_app.
Qed.

Lemma appends_noexcept {A} P (body : M (W * list E) A) :
  appends P body -> appends P (noexcept body).
Proof.
  intros Hc s. unfold noexcept. destruct (Hc s) as (n1 & E1 & F1).
  destruct (body s) as [[a | e | ] s1]; simpl in *; exists n1; now split.
Qed.

Lemma appends_catch_runtime_error {A} P (k : string -> M (W * list E) A) :
  (forall what, appends P (k what)) ->
  forall e k', catch_runtime_error k e = Some k' -> appends P k'.
Proof. intros H [what|what|] k' Hk; simpl in Hk; inversion Hk; subst; auto. Qed.

Lemma appends_catch_std_exception {A} P (k : string -> M (W * list E) A) :
  (forall what, appends P (k what)) ->
  forall e k', catch_std_exception k e = Some k' -> appends P k'.
Proof. intros H [what|what|] k' Hk; simpl in Hk; inversion Hk; subst; auto. Qed.

Lemma appends_from_nil {A} P (c : M (W * list E) A) s r w' tr :
  appends P c -> c s = (r, (w', tr)) ->
  exists new, tr = (snd s ++ new)%list /\ Forall P new.
Proof. intros H Hc. specialize (H s). now rewrite Hc in H. Qed.

Lemma bind_recording {A B} (mk : outcome A -> E) (op : M W A)
    (k : A -> M (W * list E) B) (s : W * list E) :
  bind (recording mk op) k s
  = match op (fst s) with
    | (Normal a, w') => k a (w', (snd s ++ [mk (Normal a)])%list)
    | (Raise e, w') => (Raise e, (w', (snd s ++ [mk (Raise e)])%list))
    | (Terminate, w') => (Terminate, (w', (snd s ++ [mk Terminate])%list))
    end.
Proof.
  unfold bind, recording. now destruct (op (fst s)) as [[a | e | ] w'].
Qed.

Lemma run_recording {A} (mk : outcome A -> E) (op : M W A) (s : W * list E) :
  recording mk op s
  = (fst (op (fst s)), (snd (op (fst s)), (snd s ++ [mk (fst (op (fst s)))])%list)).
Proof. unfold recording. now destruct (op (fst s)). Qed.

End Appends.

Section RemoteTrace.

Import Cache.
Context {W : Type} (C : collaborators W).

Lemma add_file_sizes_appends (P : event -> Prop) items total :
  (forall p r, P (GetFileInfo p r)) ->
  appends P (add_file_sizes (traced C) items total).
Proof.
  intros HP. revert total.
  induction items as [| [k f] rest IH]; intros total; simpl.
  - apply appends_ret.
  - apply appends_bind; [| intros; apply IH].
    apply appends_try_catch.
    + apply appends_bind; [apply appends_recording; auto | intros; apply appends_ret].
    + apply appends_catch_std_exception. intros _.
      destruct (required f); [apply appends_throw | apply appends_ret].
Qed.

Lemma retrieve_remote_files_appends (P : event -> Prop) hash x create e ids :
  (forall l m r, P (DebugLog l m r)) ->
  (forall d r, P (CreateDirWithParents d r)) ->
  (forall h i t c r, P (RemoteGetFile h i t c r)) ->
  appends P (retrieve_remote_files (traced C) hash x create e ids).
Proof.
  intros H1 H2 H3.
  induction ids as [| file_id rest IH]; simpl.
  - apply appends_ret.
  - destruct (map_find file_id x) as [f|]; [| apply appends_throw].
    apply appends_bind; [apply appends_recording; auto | intros _].
    apply appends_bind.
    { destruct create; [apply appends_recording; auto | apply appends_ret]. }
    intros _. apply appends_bind; [apply appends_recording; auto | intros _].
    exact IH.
Qed.

Lemma promote_appends (P : event -> Prop) hash x allow e :
  (forall l m r, P (DebugLog l m r)) ->
  (forall p r, P (GetFileInfo p r)) ->
  (forall h e x a r, P (LocalAdd h e x a r)) ->
  (forall r, P (LocalUpdateStats hash remote_hit r)) ->
  appends P (promote (traced C) hash x allow e).
Proof.
  intros H1 H2 H3 H4. unfold promote.
  apply appends_try_catch.
  - apply appends_bind; [now apply add_file_sizes_appends | intros size].
    simpl. destruct (fits _ _).
    + apply appends_bind; apply appends_recording || intros _; auto.
      apply appends_recording; auto.
    + apply appends_recording; auto.
  - apply appends_catch_std_exception. intros what.
    apply appends_recording; auto.
Qed.

End RemoteTrace.

(** Closes a goal whose run is over with a trace that has no event counting
    a remote miss. *)
Ltac no_remote_miss Hrun Hex :=
  exfalso; inversion Hrun; subst; clear Hrun;
  apply List.Exists_exists in Hex; destruct Hex as (? & Hin & Hev);
  simpl in Hin; intuition (subst; simpl in Hev; auto).

(** C10. When [connect] returns false, [lookup_in_remote_cache] returns a miss
    and [connect] is the only call it makes: no remote lookup, no update of
    the statistics. An update that adds to the remote-miss counter is made
    only on the path where [connect] returned true and the remote lookup
    returned no entry. *)
Theorem remote_miss_counted_only_after_connected_lookup
    {W : Type} (C : Cache.collaborators W) (hash : string)
    (x : string_map Cache.expected_file_t) (allow create : bool) (rc0 : Z)
    (w : W) :
  (forall w1,
     Cache.remote_connect C w = (Normal false, w1) ->
     Cache.lookup_in_remote_cache (Cache.traced C) hash x allow create rc0
       (w, [])
     = (Normal (false, rc0), (w1, [Cache.RemoteConnect (Normal false)])))
  /\ (forall r w' tr,
        Cache.lookup_in_remote_cache (Cache.traced C) hash x allow create rc0
          (w, []) = (r, (w', tr)) ->
        Exists Cache.counts_remote_miss tr ->
        exists res,
          tr = [Cache.RemoteConnect (Normal true);
                Cache.RemoteLookup hash (Normal None);
                Cache.LocalUpdateStats hash Cache.remote_miss res]).
Proof.
  split.
  - intros w1 H. rewrite lookup_in_remote_cache_eq. cbn [Cache.traced Cache.remote_connect].
    rewrite bind_recording. cbn [fst snd]. rewrite H. reflexivity.
  - intros r w' tr Hrun Hex.
    rewrite lookup_in_remote_cache_eq in Hrun.
    cbn [Cache.traced Cache.remote_connect Cache.remote_lookup
           Cache.local_update_stats] in Hrun.
    rewrite bind_recording in Hrun. cbn [fst snd app] in Hrun.
    destruct (Cache.remote_connect C w) as [[[|] | e | ] w1];
      cbn [negb] in Hrun; [| no_remote_miss Hrun Hex ..].
    rewrite bind_recording in Hrun. cbn [fst snd app] in Hrun.
    destruct (Cache.remote_lookup C hash w1) as [[[entry|] | e | ] w2];
      [| | no_remote_miss Hrun Hex ..].
    + exfalso.
      match type of Hrun with
      | ?c ?s = _ =>
          assert (Ha : appends (fun ev => ~ Cache.counts_remote_miss ev) c)
      end.
      { apply appends_bind.
        { apply retrieve_remote_files_appends; simpl; tauto. }
        intros _. apply appends_bind; [apply appends_recording; simpl; tauto|].
        intros _. apply appends_bind; [apply appends_recording; simpl; tauto|].
        intros _. apply appends_bind; [| intros; apply appends_ret].
        apply promote_appends; simpl; tauto. }
      destruct (appends_from_nil _ _ _ _ _ _ Ha Hrun) as (new & -> & Hnew).
      apply List.Exists_exists in Hex. destruct Hex as (ev & Hin & Hev).
      simpl in Hin. destruct Hin as [<- | [<- | Hin]]; try now simpl in Hev.
      exact (proj1 (List.Forall_forall _ _) Hnew ev Hin Hev).
    + rewrite bind_recording in Hrun. cbn [fst snd app] in Hrun.
      destruct (Cache.local_update_stats C hash Cache.remote_miss w2)
        as [[[] | e | ] w3]; inversion Hrun; subst; eauto.
Qed.

(** ** The total size of an entry *)

Section TotalSize.

Import Cache.
Context {W : Type} (C : collaborators W).

Lemma wrap_int64_id z : 0 <= z <= max_int64 -> wrap_int64 z = z.
Proof.
  unfold wrap_int64, max_int64. intros H.
  change (2 ^ 63) with 9223372036854775808 in *.
  change (2 ^ 64) with 18446744073709551616.
  rewrite Z.mod_small; lia.
Qed.

Lemma sum_of_sizes_nonneg size_of items :
  Forall (fun item => 0 <= size_or_zero size_of (snd item)) items ->
  0 <= sum_of_sizes size_of items.
Proof.
  induction items as [| [k f] rest IH]; intros H; simpl; [lia |].
  inversion H; subst. simpl in *. specialize (IH ltac:(assumption)). lia.
Qed.

Lemma add_file_sizes_aborts w size_of items acc :
  reads_sizes C w size_of ->
  required_unreadable size_of items = true ->
  add_file_sizes C items acc w = (Raise (std_exception bare_exception_what), w).
Proof.
  intros Hq. revert acc.
  induction items as [| [k f] rest IH]; intros acc Hx; simpl in *.
  - discriminate.
  - specialize (Hq (path f)). unfold bind, try_catch.
    destruct (size_of (path f)) as [n|] eqn:Hn.
    + rewrite Hq. rewrite andb_false_r in Hx. simpl in Hx. now apply IH.
    + destruct Hq as [what [Hq | Hq]]; rewrite Hq; simpl;
        destruct (required f); simpl in *; try reflexivity; now apply IH.
Qed.

Lemma add_file_sizes_sums w size_of items acc :
  reads_sizes C w size_of ->
  required_unreadable size_of items = false ->
  Forall (fun item => 0 <= size_or_zero size_of (snd item)) items ->
  0 <= acc ->
  acc + sum_of_sizes size_of items <= max_int64 ->
  add_file_sizes C items acc w = (Normal (acc + sum_of_sizes size_of items), w).
Proof.
  intros Hq. revert acc.
  induction items as [| [k f] rest IH]; intros acc Hx Hpos Hacc Hsum;
    simpl in *.
  - unfold ret. now rewrite Z.add_0_r.
  - inversion Hpos as [| ? ? Hf Hrest]; subst. simpl in Hf.
    pose proof (sum_of_sizes_nonneg _ _ Hrest).
    specialize (Hq (path f)). unfold bind, try_catch.
    unfold size_or_zero in *.
    destruct (size_of (path f)) as [n|] eqn:Hn.
    + rewrite Hq. rewrite andb_false_r in Hx. simpl in Hx. unfold ret.
      unfold add_int64. rewrite wrap_int64_id by lia.
      rewrite IH; try assumption; try lia.
      now rewrite Z.add_assoc.
    + destruct Hq as [what [Hq | Hq]]; rewrite Hq; simpl;
        destruct (required f); simpl in *; try discriminate;
        (rewrite IH; [now rewrite Z.add_0_l | assumption..]).
Qed.

Lemma get_total_entry_size_aborts w size_of entry items :
  reads_sizes C w size_of ->
  spec_total_size size_of entry items = None ->
  get_total_entry_size C entry items w
  = (Raise (std_exception bare_exception_what), w).
Proof.
  intros Hq Hs. unfold spec_total_size in Hs.
  destruct (required_unreadable size_of items) eqn:Hx; [| discriminate].
  now apply add_file_sizes_aborts with (size_of := size_of).
Qed.

Lemma get_total_entry_size_sums w size_of entry items total :
  reads_sizes C w size_of ->
  spec_total_size size_of entry items = Some total ->
  Forall (fun item => 0 <= size_or_zero size_of (snd item)) items ->
  total <= max_int64 ->
  get_total_entry_size C entry items w = (Normal total, w).
Proof.
  intros Hq Hs Hpos Hmax. unfold spec_total_size in Hs.
  destruct (required_unreadable size_of items) eqn:Hx; [discriminate |].
  inversion Hs; subst total; clear Hs.
  pose proof (sum_of_sizes_nonneg _ _ Hpos).
  unfold get_total_entry_size, size_int64, add_int64.
  pose proof (Nat2Z.is_nonneg (String.length (std_out entry))).
  pose proof (Nat2Z.is_nonneg (String.length (std_err entry))).
  rewrite (wrap_int64_id (Z.of_nat (String.length (std_out entry)))) by lia.
  rewrite (wrap_int64_id (Z.of_nat (String.length (std_err entry)))) by lia.
  rewrite wrap_int64_id by lia.
  rewrite add_file_sizes_sums with (size_of := size_of);
    try assumption; try lia.
  reflexivity.
Qed.

End TotalSize.

(** C5. When sizes are read as [size_of] tells, [get_total_entry_size] gives
    what the specification words: with a required expected file that cannot
    be read it throws (the exception is the std::exception part of the IO
    error); otherwise, the sum staying in the range of int64_t, it returns
    the length of stdout plus the length of stderr plus the sizes of the
    expected files, an unreadable optional file counting for zero. *)
Theorem get_total_entry_size_meets_spec
    {W : Type} (C : Cache.collaborators W) (w : W)
    (size_of : string -> option Z) (entry : Cache.cache_entry_t)
    (file_paths : string_map Cache.expected_file_t) :
  Cache.reads_sizes C w size_of ->
  match Cache.spec_total_size size_of entry file_paths with
  | None =>
      Cache.get_total_entry_size C entry file_paths w
      = (Raise (std_exception bare_exception_what), w)
  | Some total =>
      Forall (fun item => 0 <= Cache.size_or_zero size_of (snd item))
        file_paths ->
      total <= max_int64 ->
      Cache.get_total_entry_size C entry file_paths w = (Normal total, w)
  end.
Proof.
  intros Hq.
  destruct (Cache.spec_total_size size_of entry file_paths) as [total|] eqn:Hs.
  - intros. now apply get_total_entry_size_sums with (size_of := size_of).
  - now apply get_total_entry_size_aborts with (size_of := size_of).
Qed.

(** ** Invariants of the world *)

Section Preserves.

Context {W : Type} (I : W -> Prop).

Local Abbreviation preserves := (preserves I).

Lemma preserves_ret {A} (a : A) : preserves (ret a).
Proof. intros w H. exact H. Qed.

Lemma preserves_throw {A} e : preserves (@throw W A e).
Proof. intros w H. exact H. Qed.

Lemma preserves_bind {A B} (c : M W A) (k : A -> M W B) :
  preserves c -> (forall a, preserves (k a)) -> preserves (bind c k).
Proof.
  intros Hc Hk w H. unfold bind. specialize (Hc w H).
  destruct (c w) as [[a | e | ] w1]; simpl in *; auto. now apply Hk.
Qed.

Lemma preserves_try_catch {A} (body : M W A) (h : handler W A) :
  preserves body -> (forall e k, h e = Some k -> preserves k) ->
  preserves (try_catch body h).
Proof.
  intros Hc Hk w H. unfold try_catch. specialize (Hc w H).
  destruct (body w) as [[a | e | ] w1]; simpl in *; auto.
  destruct (h e) as [k|] eqn:Hh; simpl; auto. now apply (Hk e k).
Qed.

Lemma preserves_noexcept {A} (body : M W A) :
  preserves body -> preserves (noexcept body).
Proof.
  intros Hc w H. unfold noexcept. specialize (Hc w H).
  now destruct (body w) as [[a | e | ] w1].
Qed.

Lemma preserves_catch_runtime_error {A} (k : string -> M W A) :
  (forall what, preserves (k what)) ->
  forall e k', catch_runtime_error k e = Some k' -> preserves k'.
Proof. intros H [what|what|] k' Hk; simpl in Hk; inversion Hk; subst; auto. Qed.

Lemma preserves_catch_std_exception {A} (k : string -> M W A) :
  (forall what, preserves (k what)) ->
  forall e k', catch_std_exception k e = Some k' -> preserves k'.
Proof. intros H [what|what|] k' Hk; simpl in Hk; inversion Hk; subst; auto. Qed.

(** ** What the lookups keep

    When the operations a lookup calls keep [I], so does the lookup. *)

Import Cache.
Context (C : collaborators W).

Hypothesis keeps_local_lookup : forall h, preserves (local_lookup C h).
Hypothesis keeps_local_lookup_direct :
  forall h, preserves (local_lookup_direct C h).
Hypothesis keeps_local_add : forall h e x a, preserves (local_add C h e x a).
Hypothesis keeps_local_get_file :
  forall h i t c a, preserves (local_get_file C h i t c a).
Hypothesis keeps_local_update_stats :
  forall h d, preserves (local_update_stats C h d).
Hypothesis keeps_remote_connect : preserves (remote_connect C).
Hypothesis keeps_remote_lookup : forall h, preserves (remote_lookup C h).
Hypothesis keeps_remote_get_file :
  forall h i t c, preserves (remote_get_file C h i t c).
Hypothesis keeps_get_file_info_size :
  forall p, preserves (get_file_info_size C p).
Hypothesis keeps_create_dir_with_parents :
  forall d, preserves (create_dir_with_parents C d).
Hypothesis keeps_print_raw_stdout : forall t, preserves (print_raw_stdout C t).
Hypothesis keeps_print_raw_stderr : forall t, preserves (print_raw_stderr C t).
Hypothesis keeps_debug_log : forall l m, preserves (debug_log C l m).

Lemma preserves_add_file_sizes items total :
  preserves (add_file_sizes C items total).
Proof.
  revert total. induction items as [| [k f] rest IH]; intros total; simpl.
  - apply preserves_ret.
  - apply preserves_bind; [| intros; apply IH].
    apply preserves_try_catch.
    + apply preserves_bind; [auto | intros; apply preserves_ret].
    + apply preserves_catch_std_exception. intros _.
      destruct (required f); [apply preserves_throw | apply preserves_ret].
Qed.

Lemma preserves_retrieve_local_files hash x allow create e ids :
  preserves (retrieve_local_files C hash x allow create e ids).
Proof.
  induction ids as [| file_id rest IH]; simpl.
  - apply preserves_ret.
  - destruct (map_find file_id x) as [f|]; [| apply preserves_throw].
    apply preserves_bind; [auto | intros _].
    apply preserves_bind.
    { destruct create; [auto | apply preserves_ret]. }
    intros _. apply preserves_bind; [auto | intros _; exact IH].
Qed.

Lemma preserves_retrieve_remote_files hash x create e ids :
  preserves (retrieve_remote_files C hash x create e ids).
Proof.
  induction ids as [| file_id rest IH]; simpl.
  - apply preserves_ret.
  - destruct (map_find file_id x) as [f|]; [| apply preserves_throw].
    apply preserves_bind; [auto | intros _].
    apply preserves_bind.
    { destruct create; [auto | apply preserves_ret]. }
    intros _. apply preserves_bind; [auto | intros _; exact IH].
Qed.

Lemma preserves_lookup_in_local_cache hash x allow create rc0 :
  preserves (lookup_in_local_cache C hash x allow create rc0).
Proof.
  intros w Hw. rewrite lookup_in_local_cache_eq. revert w Hw.
  apply preserves_bind; [auto | intros [e|]]; [| apply preserves_ret].
  apply preserves_bind; [apply preserves_retrieve_local_files | intros _].
  apply preserves_bind; [auto | intros _].
  apply preserves_bind; [auto | intros _; apply preserves_ret].
Qed.

Lemma preserves_promote hash x allow e :
  preserves (promote C hash x allow e).
Proof.
  unfold promote. apply preserves_try_catch.
  - apply preserves_bind; [apply preserves_add_file_sizes | intros size].
    simpl. destruct (fits _ _); [| auto].
    apply preserves_bind; [auto | intros _; auto].
  - apply preserves_catch_std_exception. auto.
Qed.

Lemma preserves_lookup_in_remote_cache hash x allow create rc0 :
  preserves (lookup_in_remote_cache C hash x allow create rc0).
Proof.
  intros w Hw. rewrite lookup_in_remote_cache_eq. revert w Hw.
  apply preserves_bind; [auto | intros connected].
  destruct (negb connected); [apply preserves_ret |].
  apply preserves_bind; [auto | intros [e|]].
  - apply preserves_bind; [apply preserves_retrieve_remote_files | intros _].
    apply preserves_bind; [auto | intros _].
    apply preserves_bind; [auto | intros _].
    apply preserves_bind; [apply preserves_promote | intros _].
    apply preserves_ret.
  - apply preserves_bind; [auto | intros _; apply preserves_ret].
Qed.

Lemma preserves_local_attempt hash x allow create rc0 :
  preserves (local_attempt C hash x allow create rc0).
Proof.
  intros w Hw. rewrite local_attempt_eq. revert w Hw.
  apply preserves_try_catch; [apply preserves_lookup_in_local_cache |].
  apply preserves_catch_runtime_error. intros what.
  apply preserves_bind; [auto | intros _; apply preserves_ret].
Qed.

Lemma preserves_remote_attempt hash x allow create rc0 :
  preserves (remote_attempt C hash x allow create rc0).
Proof.
  intros w Hw. rewrite remote_attempt_eq.
  generalize (snd (snd (lookup_in_remote_cache_ref C hash x allow create
                          (w, rc0)))).
  intros rc1. revert w Hw.
  apply preserves_try_catch; [apply preserves_lookup_in_remote_cache |].
  apply preserves_catch_runtime_error. intros what.
  apply preserves_bind; [auto | intros _; apply preserves_ret].
Qed.

Lemma preserves_lookup hash x allow create rc0 :
  preserves (lookup C hash x allow create rc0).
Proof.
  intros w Hw. rewrite lookup_eq. revert w Hw.
  apply preserves_noexcept.
  apply preserves_bind; [apply preserves_local_attempt |].
  intros r1. destruct (fst r1); [apply preserves_ret |].
  apply preserves_bind; [apply preserves_remote_attempt |].
  intros r2. destruct (fst r2); apply preserves_ret.
Qed.

End Preserves.

(** ** The reference world *)

(** Closes [preserves I op] for an operation of the reference world, [I]
    being a statement about fields the operation leaves alone. *)
Ltac keeps_field :=
  intros; intros ? ?; simpl;
  unfold Reference.ref_local_lookup, Reference.ref_local_lookup_direct, Reference.ref_local_add,
    Reference.ref_local_get_file, Reference.ref_remote_get_file, Reference.get_file_from,
    Reference.ref_local_update_stats, Reference.ref_remote_connect, Reference.ref_remote_lookup,
    Reference.ref_get_file_info_size, Reference.ref_create_dir_with_parents,
    Reference.ref_print_raw_stdout, Reference.ref_print_raw_stderr, Reference.ref_debug_log;
  repeat (case_match; simpl); auto.

Section ReferenceFacts.

Import Cache Reference.

Variable digest : string -> string.
Variable dir_part : string -> string.
Variable cfg : config_t.

Local Abbreviation R := (reference digest dir_part cfg).

Lemma reference_reads_sizes w : reads_sizes R w (sizes_on (files w)).
Proof.
  intros p. unfold sizes_on. simpl. unfold ref_get_file_info_size.
  destruct (files w !! p) as [bytes|]; simpl; eauto.
Qed.

Lemma sizes_on_nonneg fs (x : string_map expected_file_t) :
  Forall (fun item => 0 <= size_or_zero (sizes_on fs) (snd item)) x.
Proof.
  apply Forall_forall. intros [k f] _. simpl.
  unfold size_or_zero, sizes_on. destruct (fs !! path f); simpl; lia.
Qed.

Lemma reference_total_size w entry x total :
  spec_total_size (sizes_on (files w)) entry x = Some total ->
  total <= max_int64 ->
  get_total_entry_size R entry x w = (Normal total, w).
Proof.
  intros Hs Hmax.
  apply get_total_entry_size_sums with (size_of := sizes_on (files w));
    auto using reference_reads_sizes, sizes_on_nonneg.
Qed.

(** The remote half of [add] leaves the local store alone and only adds to
    the log. *)
Lemma remote_insert_frame hash entry x size w :
  let w' := snd (remote_insert R hash entry x size w) in
  local_entries w' = local_entries w
  /\ local_manifests w' = local_manifests w
  /\ stats w' = stats w
  /\ files w' = files w
  /\ exists l, log w' = (log w ++ l)%list.
Proof.
  unfold remote_insert, bind, try_catch, or_else, catch_std_exception, catch_any.
  simpl. unfold ref_remote_is_connected, ref_remote_add, ref_debug_log, ret.
  repeat (case_match; simpl in *; simplify_eq);
    repeat split; eauto using app_nil_r with datatypes.
Qed.


Lemma add_skipping hash entry x allow w S :
  spec_total_size (sizes_on (files w)) entry x = Some S ->
  S <= max_int64 ->
  fits S (max_local_entry_size cfg) = false ->
  add R hash entry x allow w
  = remote_insert R hash entry x S
      (with_log (log w ++ [(WARNING, too_large_message "local" S)])%list w).
Proof.
  intros Hs Hmax Hfits. unfold add.
  rewrite (bind_normal _ _ _ _ _ (reference_total_size _ _ _ _ Hs Hmax)).
  unfold local_insert. simpl. rewrite Hfits. reflexivity.
Qed.

Lemma add_inserting hash entry x allow w S p :
  spec_total_size (sizes_on (files w)) entry x = Some S ->
  S <= max_int64 ->
  fits S (max_local_entry_size cfg) = true ->
  local_writable w = true ->
  collect_payload (files w) x (file_ids entry) = Some p ->
  add R hash entry x allow w
  = remote_insert R hash entry x S
      (with_local_entries
         (<[hash := {| meta := entry; payload := p |}]> (local_entries w)) w).
Proof.
  intros Hs Hmax Hfits Hw Hp. unfold add.
  rewrite (bind_normal _ _ _ _ _ (reference_total_size _ _ _ _ Hs Hmax)).
  unfold local_insert. simpl. rewrite Hfits.
  unfold bind at 1. unfold ref_local_add. now rewrite Hw, Hp.
Qed.

Lemma fits_false S L : L <= S -> 0 < L -> fits S L = false.
Proof. unfold fits. intros. apply orb_false_iff. split; lia. Qed.

Lemma fits_true S L : S < L \/ L <= 0 -> fits S L = true.
Proof. unfold fits. intros. apply orb_true_iff. lia. Qed.


(** *** What the reference operations keep *)

(** What an install stored holds every file the entry lists. *)
Lemma collect_payload_intact fs x entry p :
  collect_payload fs x (file_ids entry) = Some p ->
  intact {| meta := entry; payload := p |} = true.
Proof.
  unfold intact. simpl. generalize (file_ids entry). intros ids. revert p.
  induction ids as [| file_id rest IH]; intros p Hp; simpl in *;
    [reflexivity |].
  destruct (map_find file_id x) as [f |]; [| discriminate].
  destruct (fs !! path f) as [bytes |]; [| discriminate].
  destruct (collect_payload fs x rest) as [p0 |]; [| discriminate].
  simpl in Hp. inversion Hp; subst p; clear Hp.
  rewrite lookup_insert_eq. simpl.
  specialize (IH p0 eq_refl). rewrite forallb_forall in IH.
  apply forallb_forall. intros i Hi.
  destruct (decide (i = file_id)) as [-> | Hne].
  - now rewrite lookup_insert_eq.
  - rewrite lookup_insert_ne by congruence. now apply IH.
Qed.

(** A lookup leaves the remote cache as it is. *)
Lemma lookup_keeps_remote_entries m hash x allow create rc0 :
  preserves (fun w => remote_entries w = m) (lookup R hash x allow create rc0).
Proof. apply preserves_lookup; keeps_field. Qed.

(** The size computation either returns or throws the bare std::exception,
    and leaves the world as it is. *)
Lemma add_file_sizes_ends items total w :
  exists r,
    add_file_sizes R items total w = (r, w)
    /\ (r = Raise (std_exception bare_exception_what)
        \/ exists size, r = Normal size).
Proof.
  revert total. induction items as [| [k f] rest IH]; intros total; simpl.
  - eexists. split; [reflexivity | eauto].
  - unfold bind at 1, try_catch, bind at 1. simpl.
    unfold ref_get_file_info_size.
    destruct (files w !! path f) as [bytes |]; simpl; [apply IH |].
    destruct (required f); simpl; [| apply IH].
    eexists. split; [reflexivity | now left].
Qed.

(** The promotion of a remote entry returns, whatever the state of the local
    cache, and touches neither the file system, nor the standard streams,
    nor the remote cache. *)
Lemma promote_returns hash x allow e w :
  exists w',
    promote R hash x allow e w = (Normal tt, w')
    /\ files w' = files w /\ out w' = out w /\ err w' = err w
    /\ remote_entries w' = remote_entries w
    /\ exists l, log w' = (log w ++ l)%list.
Proof.
  unfold promote, get_total_entry_size, try_catch.
  destruct (add_file_sizes_ends x
              (add_int64 (size_int64 (std_out e)) (size_int64 (std_err e))) w)
    as (r & Hr & [-> | (size & ->)]).
  - rewrite (bind_raise _ _ _ _ _ Hr). simpl.
    eexists. split; [reflexivity |]. simpl. eauto 10.
  - rewrite (bind_normal _ _ _ _ _ Hr). simpl.
    destruct (fits size (max_local_entry_size cfg)).
    + unfold bind, ref_local_add. simpl.
      destruct (local_writable w);
        [destruct (collect_payload (files w) x (file_ids e)) |];
        simpl; eexists; (split; [reflexivity |]); simpl;
        repeat split; eauto using app_nil_r.
    + eexists. split; [reflexivity |]. simpl. eauto 10.
Qed.

End ReferenceFacts.

(** C6 (amended). In the reference world, let [S] be the total size of the
    entry and [L] the configured [max_local_entry_size]. When [S >= L] and
    [L > 0], [add] logs the warning and leaves the local cache as it was, so
    that a local lookup of the hash gives what it gave before [add]: a miss
    when the hash was not in the local cache. When [S < L] or [L <= 0], the
    entry is inserted in the local cache (the cache directory being writable
    and the output files of the entry being on disk). *)
Theorem local_insert_is_gated_by_size
    (digest dir_part : string -> string) (cfg : Cache.config_t)
    (w : Reference.world) (hash : string) (entry : Cache.cache_entry_t)
    (x : string_map Cache.expected_file_t) (allow : bool) (S : Z) :
  Cache.spec_total_size (Reference.sizes_on (Reference.files w)) entry x = Some S ->
  S <= max_int64 ->
  let R := Reference.reference digest dir_part cfg in
  let L := Cache.max_local_entry_size cfg in
  let w' := snd (Cache.add R hash entry x allow w) in
  (L <= S -> 0 < L ->
     Reference.local_entries w' = Reference.local_entries w
     /\ In (WARNING, Cache.too_large_message "local" S) (Reference.log w')
     /\ fst (Cache.local_lookup R hash w') = fst (Cache.local_lookup R hash w)
     /\ (Reference.local_entries w !! hash = None ->
         fst (Cache.local_lookup R hash w') = Normal None))
  /\ (S < L \/ L <= 0 ->
      forall p,
        Reference.local_writable w = true ->
        Reference.collect_payload (Reference.files w) x (Cache.file_ids entry)
          = Some p ->
        Reference.local_entries w' !! hash
          = Some {| Reference.meta := entry; Reference.payload := p |}
        /\ fst (Cache.local_lookup R hash w') = Normal (Some entry)).
Proof.
  intros Hs Hmax R L w'. split.
  - intros HL Hpos. subst w' R L.
    rewrite (add_skipping _ _ _ _ _ _ _ _ _ Hs Hmax (fits_false _ _ HL Hpos)).
    match goal with
    | |- context [Cache.remote_insert ?R ?h ?e ?x ?s ?w0] =>
        destruct (remote_insert_frame digest dir_part cfg h e x s w0)
          as (He & _ & _ & _ & l & Hl)
    end.
    simpl in He, Hl.
    assert (Hsame : forall k,
      fst (Cache.local_lookup (Reference.reference digest dir_part cfg) k
             (snd (Cache.remote_insert (Reference.reference digest dir_part cfg)
                hash entry x S
                (Reference.with_log
                   (Reference.log w ++ [(WARNING, Cache.too_large_message "local" S)])%list
                   w))))
      = fst (Cache.local_lookup (Reference.reference digest dir_part cfg) k w)).
    { intros k. simpl. unfold Reference.ref_local_lookup. simpl. rewrite He.
      destruct (Reference.local_entries w !! k) as [stored |];
        [destruct (Reference.intact stored) |]; reflexivity. }
    repeat split.
    + exact He.
    + rewrite Hl. apply in_or_app. left. apply in_or_app. right. now left.
    + apply Hsame.
    + intros Hnone. rewrite Hsame. simpl. unfold Reference.ref_local_lookup.
      simpl. now rewrite Hnone.
  - intros HL p Hw Hp. subst w' R L.
    rewrite (add_inserting _ _ _ _ _ _ _ _ _ _ Hs Hmax (fits_true _ _ HL) Hw Hp).
    match goal with
    | |- context [Cache.remote_insert ?R ?h ?e ?x ?s ?w0] =>
        destruct (remote_insert_frame digest dir_part cfg h e x s w0)
          as (He & _ & _ & _ & l & Hl)
    end.
    simpl in He. simpl. unfold Reference.ref_local_lookup. simpl.
    rewrite He, lookup_insert_eq.
    rewrite (collect_payload_intact _ _ _ _ Hp). now split.
Qed.

Section RemoteHit.

Import Cache Reference.

Variable digest : string -> string.
Variable dir_part : string -> string.
Variable cfg : config_t.

Local Abbreviation R := (reference digest dir_part cfg).

(** A retrieval of retrievable files from the connected remote cache writes
    them to their target paths and adds to the log. *)
Lemma retrieve_remote_files_succeeds hash x create e se ids w :
  remote_connected w = true ->
  remote_entries w !! hash = Some se ->
  retrievable x (payload se) ids = true ->
  exists l,
    retrieve_remote_files R hash x create e ids w
    = (Normal tt,
       with_log (log w ++ l)%list
         (with_files (materialized_files x (payload se) ids (files w)) w)).
Proof.
  revert w. induction ids as [| file_id rest IH]; intros w Hc Hse Hr.
  - exists []. simpl. unfold ret. rewrite app_nil_r. now destruct w.
  - simpl in Hr. apply andb_true_iff in Hr. destruct Hr as [Hid Hrest].
    apply andb_true_iff in Hid. destruct Hid as [Hexp Hst].
    unfold unexpected in Hexp. simpl.
    destruct (map_find file_id x) as [f|]; [| discriminate].
    destruct (payload se !! file_id) as [bytes|] eqn:Hb; [| discriminate].
    unfold bind at 1. simpl.
    assert (Hstep : forall w0,
      remote_connected w0 = true -> remote_entries w0 !! hash = Some se ->
      ((if create
        then ref_create_dir_with_parents (dir_part (path f))
        else ret tt) ;;;
       ref_remote_get_file hash file_id (path f)
         (comp_mode_eqb (compression_mode e) ALL) ;;;
       retrieve_remote_files R hash x create e rest) w0
      = retrieve_remote_files R hash x create e rest
          (with_files (<[path f := bytes]> (files w0)) w0)).
    { intros w0 Hc0 Hse0.
      destruct create; unfold bind at 1; simpl; unfold bind at 1;
        unfold ref_remote_get_file, get_file_from; rewrite Hc0, Hse0, Hb;
        reflexivity. }
    rewrite Hstep by assumption.
    match goal with
    | |- context [retrieve_remote_files _ _ _ _ _ rest ?w1] =>
        destruct (IH w1) as (l & Hl); [assumption .. |]
    end.
    rewrite Hl. eexists. simpl. rewrite <- app_assoc. reflexivity.
Qed.


(** The promotion of a remote entry of total size [S] to the local cache. *)
Lemma promote_reference hash x allow e w S :
  spec_total_size (sizes_on (files w)) e x = Some S ->
  S <= max_int64 ->
  exists w',
    promote R hash x allow e w = (Normal tt, w')
    /\ files w' = files w /\ out w' = out w /\ err w' = err w
    /\ (fits S (max_local_entry_size cfg) = true ->
        forall p,
          local_writable w = true ->
          collect_payload (files w) x (file_ids e) = Some p ->
          local_entries w'
          = <[hash := {| meta := promoted_entry R e; payload := p |}]>
              (local_entries w)
          /\ stats w' = add_stats (stats w) remote_hit)
    /\ (fits S (max_local_entry_size cfg) = false ->
        local_entries w' = local_entries w
        /\ stats w' = stats w
        /\ In (WARNING, too_large_message "local" S) (log w')).
Proof.
  intros Hs Hmax. unfold promote, try_catch.
  rewrite (bind_normal _ _ _ _ _
             (reference_total_size digest dir_part cfg _ _ _ _ Hs Hmax)).
  simpl. destruct (fits S (max_local_entry_size cfg)).
  - unfold bind, ref_local_add. simpl.
    destruct (local_writable w);
      [destruct (collect_payload (files w) x (file_ids e)) as [p0|] |];
      simpl; eexists; (split; [reflexivity |]); simpl;
      repeat split; intros; simplify_eq; auto.
  - eexists. split; [reflexivity |]. simpl.
    repeat split; intros; simplify_eq; auto.
    apply in_or_app. right. now left.
Qed.

Lemma try_catch_bind_normal {W A B} (c : M W A) (k : A -> M W B)
    (h : handler W B) w a w1 :
  c w = (Normal a, w1) -> try_catch (bind c k) h w = try_catch (k a) h w1.
Proof. intros H. unfold try_catch, bind. now rewrite H. Qed.

(** The remote part of [lookup] on an entry of the remote cache whose files
    can be retrieved: the files are written, the streams emitted, and the
    entry is handed to the promotion. *)
Lemma remote_attempt_hit hash x allow create rc0 (w : world) se :
  remote_reachable w = true ->
  remote_entries w !! hash = Some se ->
  retrievable x (payload se) (file_ids (meta se)) = true ->
  exists l,
    remote_attempt R hash x allow create rc0 w
    = (Normal (true, return_code (meta se)),
       snd (promote R hash x allow (meta se)
              (with_err (err w ++ std_err (meta se))
                 (with_out (out w ++ std_out (meta se))
                    (with_log (log w ++ l)%list
                       (with_files
                          (materialized_files x (payload se)
                             (file_ids (meta se)) (files w))
                          (with_remote_connected true w))))))).
Proof.
  intros Hreach Hse Hret.
  destruct (retrieve_remote_files_succeeds hash x create (meta se) se
              (file_ids (meta se)) (with_remote_connected true w) eq_refl Hse
              Hret) as (l & Hl).
  exists l. simpl in Hl.
  match goal with
  | |- _ = (_, snd (promote _ _ _ _ _ ?w0)) =>
      destruct (promote_returns digest dir_part cfg hash x allow (meta se) w0)
        as (w' & Hp & _)
  end.
  rewrite Hp. cbn [snd].
  rewrite remote_attempt_eq.
  rewrite (try_catch_ext _ _ _ _
             (lookup_in_remote_cache_eq R hash x allow create rc0 w)).
  erewrite try_catch_bind_normal
    by (simpl; unfold ref_remote_connect; rewrite Hreach; reflexivity).
  simpl negb. cbv iota.
  erewrite try_catch_bind_normal
    by (simpl; unfold ref_remote_lookup; simpl; rewrite Hse; reflexivity).
  simpl option_map. cbv iota.
  erewrite try_catch_bind_normal by (exact Hl).
  erewrite try_catch_bind_normal by reflexivity.
  erewrite try_catch_bind_normal by reflexivity.
  erewrite try_catch_bind_normal by (exact Hp).
  reflexivity.
Qed.

End RemoteHit.

(** C3 (amended). In the reference world, on a remote hit (no local entry,
    the remote cache reachable, every file the remote entry lists expected
    and stored) [lookup] writes each listed file to its target path, emits
    the captured stdout and stderr, sets the return code and returns a hit.
    When the total size of the entry is below [max_local_entry_size] (or
    that limit is zero or less) and the local cache accepts the insert, the
    entry is added to the local cache with compression mode ALL when
    [compress] is configured and NONE
    otherwise, and the remote-hit counter is incremented. When the size is
    at or above a positive limit, the local cache and the statistics are left as they were
    and a warning is logged. *)
Theorem remote_hit_is_promoted_within_limit
    (digest dir_part : string -> string) (cfg : Cache.config_t)
    (w : Reference.world) (hash : string)
    (x : string_map Cache.expected_file_t) (allow create : bool) (rc0 : Z)
    (se : Reference.stored_entry) (S : Z) :
  let R := Reference.reference digest dir_part cfg in
  let e := Reference.meta se in
  let fs1 :=
    Reference.materialized_files x (Reference.payload se) (Cache.file_ids e)
      (Reference.files w) in
  Reference.local_entries w !! hash = None ->
  Reference.remote_reachable w = true ->
  Reference.remote_entries w !! hash = Some se ->
  Reference.retrievable x (Reference.payload se) (Cache.file_ids e) = true ->
  Cache.spec_total_size (Reference.sizes_on fs1) e x = Some S ->
  S <= max_int64 ->
  exists w',
    Cache.lookup R hash x allow create rc0 w
    = (Normal (true, Cache.return_code e), w')
    /\ Reference.files w' = fs1
    /\ Reference.out w' = Reference.out w ++ Cache.std_out e
    /\ Reference.err w' = Reference.err w ++ Cache.std_err e
    /\ (Cache.fits S (Cache.max_local_entry_size cfg) = true ->
        forall p,
          Reference.local_writable w = true ->
          Reference.collect_payload fs1 x (Cache.file_ids e) = Some p ->
          Reference.local_entries w'
          = <[hash := {| Reference.meta := Cache.promoted_entry R e;
                         Reference.payload := p |}]>
              (Reference.local_entries w)
          /\ Cache.compression_mode (Cache.promoted_entry R e)
             = (if Cache.compress cfg then Cache.ALL else Cache.NONE)
          /\ Reference.stats w'
             = Cache.add_stats (Reference.stats w) Cache.remote_hit)
    /\ (Cache.fits S (Cache.max_local_entry_size cfg) = false ->
        Reference.local_entries w' = Reference.local_entries w
        /\ Reference.stats w' = Reference.stats w
        /\ In (WARNING, Cache.too_large_message "local" S) (Reference.log w')).
Proof.
  intros R e fs1 Hnone Hreach Hse Hret Hs Hmax.
  destruct (remote_attempt_hit digest dir_part cfg hash x allow create rc0 w
              se Hreach Hse Hret) as (l & Hremote).
  match type of Hremote with
  | _ = (_, snd (Cache.promote _ _ _ _ _ ?w0)) => set (wp := w0) in *
  end.
  destruct (promote_reference digest dir_part cfg hash x allow e wp S Hs Hmax)
    as (w' & Hp & Hf & Ho & He & Hfit & Hnofit).
  unfold R, e in Hp. rewrite Hp in Hremote. cbn [snd] in Hremote.
  exists w'. split.
  - rewrite lookup_eq. unfold noexcept.
    assert (Hlocal : Cache.local_attempt R hash x allow create rc0 w
                     = (Normal (false, rc0), w)).
    { rewrite local_attempt_eq.
      unfold try_catch. rewrite lookup_in_local_cache_eq. unfold bind.
      simpl. unfold Reference.ref_local_lookup. rewrite Hnone.
      reflexivity. }
    rewrite (bind_normal _ _ _ _ _ Hlocal). simpl.
    rewrite (bind_normal _ _ _ _ _ Hremote). reflexivity.
  - rewrite Hf, Ho, He. simpl.
    split; [reflexivity | split; [reflexivity | split; [reflexivity | split]]].
    + intros Hfits pl Hw Hc. destruct (Hfit Hfits pl Hw Hc) as (H1 & H2).
      repeat split; assumption.
    + exact Hnofit.
Qed.

Section LocalMismatch.

Import Cache Reference.

Variable digest : string -> string.
Variable dir_part : string -> string.
Variable cfg : config_t.

Local Abbreviation R := (reference digest dir_part cfg).

(** The retrieval from an intact local entry stops at the first file id the
    caller does not expect: the files listed before it were written, and the
    mismatch is thrown. *)
Lemma retrieve_local_files_aborts hash x allow create e se ids id (w : world) :
  local_entries w !! hash = Some se ->
  forallb
    (fun file_id =>
       match payload se !! file_id with
       | Some _ => true
       | None => false
       end) ids = true ->
  List.find (unexpected x) ids = Some id ->
  exists l,
    retrieve_local_files R hash x allow create e ids w
    = (Raise (runtime_error ("Found unexpected cached file: " ++ id)),
       with_log (log w ++ l)%list
         (with_files (materialized_files x (payload se) ids (files w)) w)).
Proof.
  revert w. induction ids as [| file_id rest IH]; intros w Hse Hin Hfind;
    [discriminate |].
  simpl in Hin, Hfind. apply andb_true_iff in Hin. destruct Hin as [Hst Hrest].
  unfold unexpected in Hfind at 1. simpl.
  destruct (map_find file_id x) as [f |].
  - destruct (payload se !! file_id) as [bytes |] eqn:Hb; [| discriminate].
    unfold bind at 1. simpl.
    assert (Hstep : forall w0,
      local_entries w0 !! hash = Some se ->
      ((if create
        then ref_create_dir_with_parents (dir_part (path f))
        else ret tt) ;;;
       ref_local_get_file hash file_id (path f)
         (comp_mode_eqb (compression_mode e) ALL) allow ;;;
       retrieve_local_files R hash x allow create e rest) w0
      = retrieve_local_files R hash x allow create e rest
          (with_files (<[path f := bytes]> (files w0)) w0)).
    { intros w0 Hse0.
      destruct create; unfold bind at 1; simpl; unfold bind at 1;
        unfold ref_local_get_file, get_file_from; rewrite Hse0, Hb;
        reflexivity. }
    rewrite Hstep by assumption.
    match goal with
    | |- context [retrieve_local_files _ _ _ _ _ _ rest ?w1] =>
        destruct (IH w1) as (l & Hl); [assumption .. |]
    end.
    rewrite Hl. eexists. simpl. rewrite <- app_assoc. reflexivity.
  - inversion Hfind; subst. exists []. unfold throw. rewrite app_nil_r.
    now destruct w.
Qed.

Lemma lookup_in_local_cache_aborts hash x allow create rc0 (w : world) se id :
  local_entries w !! hash = Some se ->
  intact se = true ->
  List.find (unexpected x) (file_ids (meta se)) = Some id ->
  exists l,
    lookup_in_local_cache R hash x allow create rc0 w
    = (Raise (runtime_error ("Found unexpected cached file: " ++ id)),
       with_log (log w ++ l)%list
         (with_files
            (materialized_files x (payload se) (file_ids (meta se)) (files w))
            (with_stats (add_stats (stats w) local_hit) w))).
Proof.
  intros Hse Hint Hfind.
  destruct (retrieve_local_files_aborts hash x allow create (meta se) se
              (file_ids (meta se)) id
              (with_stats (add_stats (stats w) local_hit) w) Hse Hint Hfind)
    as (l & Hl).
  exists l. rewrite lookup_in_local_cache_eq.
  unfold bind at 1. simpl. unfold ref_local_lookup. rewrite Hse, Hint.
  now rewrite (bind_raise _ _ _ _ _ Hl).
Qed.

End LocalMismatch.


Section DirectMode.

Import Cache Reference.

Variable digest : string -> string.
Variable dir_part : string -> string.
Variable cfg : config_t.

Local Abbreviation R := (reference digest dir_part cfg).

Lemma noexcept_bind_normal {W A B} (c : M W A) (k : A -> M W B) w a w1 :
  c w = (Normal a, w1) -> noexcept (bind c k) w = noexcept (k a) w1.
Proof. intros H. unfold noexcept, bind. now rewrite H. Qed.

Lemma noexcept_lookup hash x allow create rc0 (w : world) :
  noexcept (lookup R hash x allow create rc0) w
  = lookup R hash x allow create rc0 w.
Proof.
  unfold noexcept at 1. rewrite lookup_eq.
  match goal with
  | |- context [noexcept ?b w] =>
      pose proof (noexcept_never_raises b w) as Hn;
      destruct (noexcept b w) as [[r | e | ] w1]
  end; try reflexivity.
  exfalso. exact (Hn e eq_refl).
Qed.

(** The manifest does not match when one of its files no longer hashes to
    the recorded value. *)
Lemma changed_input_breaks_match fs (l : string_map string) p h :
  In (p, h) l ->
  option_map digest (fs !! p) <> Some h ->
  forallb (still_hashes_to digest fs) l = false.
Proof.
  intros Hin Hne. apply not_true_is_false. intros Hall.
  rewrite forallb_forall in Hall. specialize (Hall _ Hin).
  unfold still_hashes_to in Hall. simpl in Hall.
  destruct (fs !! p) as [bytes|]; [| discriminate].
  apply String.eqb_eq in Hall. simpl in Hne. congruence.
Qed.

Lemma lookup_direct_match dh x allow create rc0 w m :
  local_manifests w !! dh = Some m ->
  forallb (still_hashes_to digest (files w)) (files_with_hashes m) = true ->
  lookup_direct R dh x allow create rc0 w
  = lookup R (hash m) x allow create rc0
      (with_stats (add_stats (stats w) direct_hit)
         (with_log
            (log w ++ [(INFO, direct_hit_line dh (hash m))])%list w)).
Proof.
  intros Hm Hall. rewrite lookup_direct_eq.
  erewrite noexcept_bind_normal.
  2: { unfold try_catch, bind. simpl. unfold ref_local_lookup_direct.
       rewrite Hm, Hall. reflexivity. }
  apply noexcept_lookup.
Qed.

Lemma lookup_direct_mismatch dh x allow create rc0 w m :
  local_manifests w !! dh = Some m ->
  forallb (still_hashes_to digest (files w)) (files_with_hashes m) = false ->
  lookup_direct R dh x allow create rc0 w
  = (Normal (false, rc0),
     with_stats (add_stats (stats w) direct_miss)
       (with_log (log w ++ [(INFO, direct_miss_line dh)])%list w)).
Proof.
  intros Hm Hall. rewrite lookup_direct_eq.
  erewrite noexcept_bind_normal.
  2: { unfold try_catch, bind. simpl. unfold ref_local_lookup_direct.
       rewrite Hm, Hall. reflexivity. }
  reflexivity.
Qed.

End DirectMode.

(** C1. In the reference world, where looking up a manifest re-hashes every
    implicit input file the manifest lists: when a manifest is stored under
    the direct hash, [lookup_direct] counts a direct hit and goes on to the
    regular [lookup] of the recorded preprocessor hash if every listed file
    still hashes to its recorded hash; if some listed file is unreadable or
    hashes to another value, [lookup_direct] counts a direct miss and returns
    a miss. With a hash function free of collisions, a listed file whose
    content was modified makes [lookup_direct] return a miss. *)
Theorem lookup_direct_checks_implicit_inputs
    (digest dir_part : string -> string) (cfg : Cache.config_t)
    (w : Reference.world) (direct_hash : string)
    (x : string_map Cache.expected_file_t) (allow create : bool) (rc0 : Z)
    (m : Cache.direct_mode_manifest_t) :
  let R := Reference.reference digest dir_part cfg in
  let missed :=
    (Normal (false, rc0),
     Reference.with_stats
       (Cache.add_stats (Reference.stats w) Cache.direct_miss)
       (Reference.with_log
          (Reference.log w
             ++ [(INFO, Reference.direct_miss_line direct_hash)])%list w)) in
  Reference.local_manifests w !! direct_hash = Some m ->
  (forallb (Reference.still_hashes_to digest (Reference.files w))
     (Cache.files_with_hashes m) = true ->
   Cache.lookup_direct R direct_hash x allow create rc0 w
   = Cache.lookup R (Cache.hash m) x allow create rc0
       (Reference.with_stats
          (Cache.add_stats (Reference.stats w) Cache.direct_hit)
          (Reference.with_log
             (Reference.log w
                ++ [(INFO,
                     Reference.direct_hit_line direct_hash (Cache.hash m))])%list
             w)))
  /\ (forall p h,
        In (p, h) (Cache.files_with_hashes m) ->
        option_map digest (Reference.files w !! p) <> Some h ->
        Cache.lookup_direct R direct_hash x allow create rc0 w = missed)
  /\ ((forall a b, digest a = digest b -> a = b) ->
      forall p recorded now,
        In (p, digest recorded) (Cache.files_with_hashes m) ->
        Reference.files w !! p = Some now ->
        now <> recorded ->
        Cache.lookup_direct R direct_hash x allow create rc0 w = missed).
Proof.
  intros R missed Hm. split; [| split].
  - intros Hall. now apply lookup_direct_match.
  - intros p h Hin Hne. subst missed R.
    apply lookup_direct_mismatch with (m := m); [assumption |].
    now apply changed_input_breaks_match with (p := p) (h := h).
  - intros Hinj p recorded now Hin Hnow Hne. subst missed R.
    apply lookup_direct_mismatch with (m := m); [assumption |].
    apply changed_input_breaks_match with (p := p) (h := digest recorded);
      [assumption |].
    rewrite Hnow. simpl. intros Heq. inversion Heq as [Hd].
    apply Hinj in Hd. contradiction.
Qed.

(** ** The program wrapper *)

Section TryCatchTrace.

Context {E W : Type}.

Lemma try_catch_bind_recording {A B} (mk : outcome A -> E) (op : M W A)
    (k : A -> M (W * list E) B) (h : handler (W * list E) B)
    (s : W * list E) :
  try_catch (bind (recording mk op) k) h s
  = match op (fst s) with
    | (Normal a, w') => try_catch (k a) h (w', (snd s ++ [mk (Normal a)])%list)
    | (Raise e, w') =>
        match h e with
        | Some k' => k' (w', (snd s ++ [mk (Raise e)])%list)
        | None => (Raise e, (w', (snd s ++ [mk (Raise e)])%list))
        end
    | (Terminate, w') => (Terminate, (w', (snd s ++ [mk Terminate])%list))
    end.
Proof.
  unfold try_catch, bind, recording. now destruct (op (fst s)) as [[a | e | ] w'].
Qed.

Lemma try_catch_bind {A B} (c : M W A) (k : A -> M W B) (h : handler W B) w :
  try_catch (bind c k) h w
  = match c w with
    | (Normal a, w') => try_catch (k a) h w'
    | (Raise e, w') =>
        match h e with
        | Some k' => k' w'
        | None => (Raise e, w')
        end
    | (Terminate, w') => (Terminate, w')
    end.
Proof. unfold try_catch, bind. now destruct (c w) as [[a | e | ] w']. Qed.

End TryCatchTrace.

Section WrapperTrace.

Import ProgramWrapper.
Context {W : Type} (C : collaborators W) (V : Wrapper W).

Lemma scan_capabilities_true caps : scan_capabilities caps true = true.
Proof.
  induction caps as [| c rest IH]; simpl; [reflexivity |].
  now destruct (String.eqb c "hard_links").
Qed.

Lemma scan_capabilities_spec caps :
  scan_capabilities caps false = true <-> In "hard_links" caps.
Proof.
  induction caps as [| c rest IH]; simpl.
  - split; [discriminate | tauto].
  - destruct (String.eqb c "hard_links") eqn:Hc.
    + apply String.eqb_eq in Hc. subst.
      rewrite scan_capabilities_true. tauto.
    + apply String.eqb_neq in Hc. rewrite IH. split; [tauto |].
      intros [H | H]; [contradiction | exact H].
Qed.

(** The events of the loop over the cached files: a log line and a
    materialization for each file, by [link_or_copy] when hard links are
    allowed and by [copy] when they are not. *)
Lemma materialize_trace hash allow targets cached s r s' :
  materialize (traced C) hash allow targets cached s = (r, s') ->
  exists new,
    snd s' = (snd s ++ new)%list
    /\ Forall (loop_event allow) new
    /\ (r = Normal tt ->
        List.filter is_materialization new
        = expected_materializations allow targets cached).
Proof.
  revert s. induction cached as [| [file_id source] rest IH]; intros s Hrun;
    simpl in Hrun.
  - inversion Hrun; subst. exists []. simpl. rewrite app_nil_r. auto.
  - simpl. destruct (map_find file_id targets) as [target|].
    2: { inversion Hrun; subst. exists []. simpl. rewrite app_nil_r.
         repeat split; auto; discriminate. }
    rewrite bind_recording in Hrun.
    destruct (debug_log C INFO _ (fst s)) as [[[] | e | ] w1];
      [| inversion Hrun; subst; eexists; simpl;
         (repeat split; [repeat constructor | discriminate]) ..].
    destruct allow; cbn [link_or_copy copy traced] in Hrun;
      rewrite bind_recording in Hrun; cbn [fst snd] in Hrun.
    + destruct (link_or_copy C source target w1) as [[[] | e | ] w2];
        [| inversion Hrun; subst; eexists; simpl; rewrite <- app_assoc;
           (repeat split; [repeat constructor | discriminate]) ..].
      destruct (IH _ Hrun) as (new & Hnew & Hall & Hmat).
      exists (DebugLog INFO
                ("Cache hit (" ++ hash ++ "): " ++ source ++ " => " ++ target)
                (Normal tt)
              :: LinkOrCopy source target (Normal tt) :: new).
      rewrite Hnew. simpl. rewrite <- !app_assoc. simpl.
      repeat split; [repeat constructor; assumption |].
      intros Hr. now rewrite (Hmat Hr).
    + destruct (copy C source target w1) as [[[] | e | ] w2];
        [| inversion Hrun; subst; eexists; simpl; rewrite <- app_assoc;
           (repeat split; [repeat constructor | discriminate]) ..].
      destruct (IH _ Hrun) as (new & Hnew & Hall & Hmat).
      exists (DebugLog INFO
                ("Cache hit (" ++ hash ++ "): " ++ source ++ " => " ++ target)
                (Normal tt)
              :: Copy source target (Normal tt) :: new).
      rewrite Hnew. simpl. rewrite <- !app_assoc. simpl.
      repeat split; [repeat constructor; assumption |].
      intros Hr. now rewrite (Hmat Hr).
Qed.

(** With a target for every cached file and a log and a file system that
    do not fail, the loop over the cached files returns. *)
Lemma materialize_returns hash allow targets cached s :
  (forall id src, In (id, src) cached -> map_find id targets <> None) ->
  (forall l m, never_fails (debug_log C l m)) ->
  (forall a b, never_fails (link_or_copy C a b)) ->
  (forall a b, never_fails (copy C a b)) ->
  fst (materialize (traced C) hash allow targets cached s) = Normal tt.
Proof.
  intros Htargets Hlog Hlink Hcopy. revert s.
  induction cached as [| [file_id source] rest IH]; intros s; simpl;
    [reflexivity |].
  destruct (map_find file_id targets) as [target |] eqn:Ht.
  2: { exfalso. apply (Htargets file_id source); [now left | exact Ht]. }
  assert (IH' : forall s0,
            fst (materialize (traced C) hash allow targets rest s0)
            = Normal tt).
  { apply IH. intros id src Hin. apply (Htargets id src). now right. }
  rewrite bind_recording.
  match goal with
  | |- context [debug_log C INFO ?m (fst s)] =>
      destruct (Hlog INFO m (fst s)) as ([] & w1 & ->)
  end.
  destruct allow; cbn [link_or_copy copy traced]; rewrite bind_recording;
    cbn [fst snd].
  - destruct (Hlink source target w1) as ([] & w2 & ->). apply IH'.
  - destruct (Hcopy source target w1) as ([] & w2 & ->). apply IH'.
Qed.

Lemma expected_materializations_length allow targets cached :
  (forall id src, In (id, src) cached -> map_find id targets <> None) ->
  length (expected_materializations allow targets cached) = length cached.
Proof.
  induction cached as [| [file_id source] rest IH]; intros Htargets; simpl;
    [reflexivity |].
  destruct (map_find file_id targets) as [target |] eqn:Ht.
  - simpl. f_equal. apply IH. intros id src Hin. apply (Htargets id src).
    now right.
  - exfalso. apply (Htargets file_id source); [now left | exact Ht].
Qed.

End WrapperTrace.

Section HandleCommand.

Import ProgramWrapper.
Context {W : Type} (C : collaborators W) (V : Wrapper W).

(** How the two [catch] clauses of [handle_command] end a run: one line is
    logged, and the command is not reported as handled. *)
Lemma handler_ends (e : exception) (s : W * list event) r s' :
  match
    or_else
      (catch_std_exception
         (fun what =>
            debug_log (traced C) DEBUG ("Exception: " ++ what) ;;;
            ret (false, 1)))
      (catch_any
         (debug_log (traced C) ERROR "UNEXPECTED EXCEPTION" ;;;
          ret (false, 1))) e
  with
  | Some k' => k' s
  | None => (Raise e, s)
  end = (r, s') ->
  exists lvl msg res,
    snd s' = (snd s ++ [DebugLog lvl msg res])%list
    /\ forall rc, r <> Normal (true, rc).
Proof.
  destruct e as [what | what | ]; cbn [or_else catch_std_exception catch_any];
    cbn [traced debug_log]; rewrite bind_recording;
    destruct (debug_log C _ _ (fst s)) as [[[] | e' | ] w1];
    intros H; inversion H; subst; simpl; do 3 eexists;
    (split; [reflexivity | discriminate]).
Qed.

End HandleCommand.

(** One step of the run of [handle_command] kept in [H]: the next recorded
    call returns, or its exception is caught and logged, or it ends the
    process. The last two cases leave the trace in the context. *)
Ltac wrapper_step H :=
  first [ rewrite try_catch_bind_recording in H
        | cbn [ProgramWrapper.traced ProgramWrapper.debug_log] in H;
          rewrite try_catch_bind_recording in H ];
  cbn [fst snd app] in H;
  match type of H with
  | match ?op ?w with _ => _ end = _ =>
      destruct (op w) as [[? | ? | ] ?] eqn:?
  end;
  [ | apply handler_ends in H; cbn [fst snd] in H;
      destruct H as (?lvl & ?msg & ?res & ? & ?Hnot); subst
    | inversion H; subst; clear H ].

(** The end of a run: [ret] under the [try] block. *)
Ltac wrapper_end H :=
  cbn [try_catch ret] in H; inversion H; subst; clear H.

(** The run after the cache lookup, on a hit. *)
Ltac wrapper_hit H :=
  wrapper_step H;
  [ rewrite try_catch_bind in H;
    match type of H with
    | match ?c ?s with _ => _ end = _ =>
        let Hmat := fresh "Hmat" in
        destruct (c s) as [[[] | ? | ] [? ?]] eqn:Hmat;
        apply materialize_trace in Hmat;
        destruct Hmat as (?new & ?Htr & ?Hloop & ?Hfull);
        cbn [fst snd] in *; subst
    end;
    [ wrapper_step H;
      [ wrapper_step H; [wrapper_end H | ..] | ..]
    | apply handler_ends in H; cbn [fst snd] in H;
      destruct H as (?lvl & ?msg & ?res & ? & ?Hnot); subst
    | inversion H; subst; clear H ]
  | .. ].

(** The run after the cache lookup, on a miss. *)
Ltac wrapper_miss H :=
  wrapper_step H;
  [ wrapper_step H;
    [ rewrite try_catch_bind in H; cbn [fst snd] in H;
      wrapper_step H;
      [ match type of H with
        | context [(?a =? 0)%Z] => destruct (a =? 0)%Z eqn:?
        end;
        [ wrapper_step H; [wrapper_end H | ..]
        | rewrite try_catch_bind in H; wrapper_end H ]
      | .. ]
    | .. ]
  | .. ].

(** [n] calls in a row, then [k] on the path where all of them returned. *)
Ltac wrapper_steps n H k :=
  match n with
  | O => k H
  | S ?m => wrapper_step H; [wrapper_steps m H k | ..]
  end.

(** The whole run of [handle_command] kept in [H], path by path. *)
Ltac wrapper_run H :=
  unfold ProgramWrapper.handle_command in H;
  cbn [ProgramWrapper.traced ProgramWrapper.traced_wrapper
         ProgramWrapper.resolve_args ProgramWrapper.get_capabilities
         ProgramWrapper.preprocess_source
         ProgramWrapper.get_relevant_arguments
         ProgramWrapper.get_relevant_env_vars ProgramWrapper.get_program_id
         ProgramWrapper.get_build_files ProgramWrapper.cache_lookup
         ProgramWrapper.cache_add ProgramWrapper.run_with_prefix
         ProgramWrapper.cout ProgramWrapper.cerr
         ProgramWrapper.config_hard_links ProgramWrapper.hasher_final
         ProgramWrapper.join ProgramWrapper.m_args] in H;
  wrapper_steps 7%nat H
    ltac:(fun H =>
            match type of H with
            | context [match ?o with Some _ => _ | None => _ end] =>
                destruct o
            end;
            [wrapper_hit H | wrapper_miss H]).

(** Membership in a trace whose shape is known. *)
Ltac in_trace H :=
  repeat (progress (simpl in H; repeat rewrite List.in_app_iff in H)).

(** An event of the loop over the cached files is not the event of [H]. *)
Ltac not_in_loop :=
  match goal with
  | Hl : Forall (ProgramWrapper.loop_event _) ?n, Hi : In _ ?n |- _ =>
      apply (proj1 (List.Forall_forall _ _) Hl) in Hi; simpl in Hi;
      try contradiction
  end.

(** Finds the event in a trace whose shape is known. *)
Ltac find_event :=
  repeat (progress (simpl; repeat rewrite List.in_app_iff));
  repeat first [left; reflexivity | right].

(** C7. Whatever the wrapper and the cache do, [handle_command] calls
    [m_cache.add] only after the wrapped program was run and returned 0, and
    the entry it adds holds the captured output and that return code. When
    the program ran and returned a code other than 0, no entry is added and
    [handle_command] reports the command as handled with that code. *)
Theorem failed_runs_are_not_cached
    {W : Type} (C : ProgramWrapper.collaborators W)
    (V : ProgramWrapper.Wrapper W) (w : W)
    (r : outcome (bool * Z)) (w' : W) (tr : list ProgramWrapper.event) :
  ProgramWrapper.handle_command (ProgramWrapper.traced C)
    (ProgramWrapper.traced_wrapper V) (w, [])
  = (r, (w', tr)) ->
  (forall h e a res,
     In (ProgramWrapper.CacheAdd h e a res) tr ->
     exists args result,
       In (ProgramWrapper.RunWithPrefix args false (Normal result)) tr
       /\ ProgramWrapper.run_return_code result = 0
       /\ ProgramWrapper.return_code e = 0
       /\ ProgramWrapper.std_out e = ProgramWrapper.run_std_out result
       /\ ProgramWrapper.std_err e = ProgramWrapper.run_std_err result)
  /\ (forall args quiet result,
        In (ProgramWrapper.RunWithPrefix args quiet (Normal result)) tr ->
        ProgramWrapper.run_return_code result <> 0 ->
        (forall ev, In ev tr -> ProgramWrapper.is_cache_add ev = false)
        /\ r = Normal (true, ProgramWrapper.run_return_code result)).
Proof.
  intros Hrun. split.
  - intros h e a res Hin.
    wrapper_run Hrun; in_trace Hin;
      intuition (try discriminate; try not_in_loop);
      match goal with
      | H : ProgramWrapper.CacheAdd _ _ _ _ = ProgramWrapper.CacheAdd _ _ _ _
        |- _ => inversion H; subst; clear H
      end;
      match goal with
      | H : (_ =? 0)%Z = true |- _ => apply Z.eqb_eq in H
      end;
      do 2 eexists; (split; [find_event |]); simpl; auto.
  - intros args quiet result Hin Hrc.
    wrapper_run Hrun; in_trace Hin;
      intuition (try discriminate; try not_in_loop);
      match goal with
      | H : ProgramWrapper.RunWithPrefix _ _ _ = ProgramWrapper.RunWithPrefix _ _ _
        |- _ => inversion H; subst; clear H
      end;
      try match goal with
          | H : (_ =? 0)%Z = true |- _ => apply Z.eqb_eq in H; contradiction
          end;
      try reflexivity;
      match goal with
      | H : In ?ev _ |- ProgramWrapper.is_cache_add ?ev = false =>
          in_trace H; intuition (subst; reflexivity)
      end.
Qed.

(** C9. Whatever the wrapper and the cache do, a cached file is
    materialized by [link_or_copy] only when [config::hard_links()] is set and
    the capabilities the wrapper reported include "hard_links"; when either is
    missing no file is materialized by [link_or_copy]; and on a cache hit that
    [handle_command] reports as handled, the materializations are exactly one
    per cached file, in order, each by [link_or_copy] when both are present
    and by plain [copy] otherwise. The capability is present exactly when the
    string "hard_links" is among the reported capabilities. And the cached
    files are materialized: when the calls of the wrapper return, the cache
    returns an entry, the wrapper names a target for every file of the entry,
    and the log, the file system and the two streams do not fail,
    [handle_command] reports the command as handled with the return code of
    the entry, after one materialization per cached file, in order, each of
    the kind just said. *)
Theorem hard_links_need_config_and_capability
    {W : Type} (C : ProgramWrapper.collaborators W)
    (V : ProgramWrapper.Wrapper W) (w : W)
    (r : outcome (bool * Z)) (w' : W) (tr : list ProgramWrapper.event) :
  ProgramWrapper.handle_command (ProgramWrapper.traced C)
    (ProgramWrapper.traced_wrapper V) (w, [])
  = (r, (w', tr)) ->
  (forall s t res,
     In (ProgramWrapper.LinkOrCopy s t res) tr ->
     ProgramWrapper.config_hard_links C = true
     /\ exists caps,
          In (ProgramWrapper.GetCapabilities (Normal caps)) tr
          /\ In "hard_links" caps)
  /\ (ProgramWrapper.config_hard_links C = false
      \/ (forall caps,
            In (ProgramWrapper.GetCapabilities (Normal caps)) tr ->
            ~ In "hard_links" caps) ->
      forall ev, In ev tr -> ProgramWrapper.is_link_or_copy ev = false)
  /\ (forall hash entry rc,
        In (ProgramWrapper.CacheLookup hash (Normal (Some entry))) tr ->
        r = Normal (true, rc) ->
        exists caps targets,
          In (ProgramWrapper.GetCapabilities (Normal caps)) tr
          /\ In (ProgramWrapper.GetBuildFiles (Normal targets)) tr
          /\ ProgramWrapper.materializations tr
             = ProgramWrapper.expected_materializations
                 (ProgramWrapper.config_hard_links C
                  && ProgramWrapper.hard_links
                       (ProgramWrapper.make_capabilities caps))
                 targets (ProgramWrapper.files entry))
  /\ (forall caps,
        ProgramWrapper.hard_links (ProgramWrapper.make_capabilities caps)
          = true
        <-> In "hard_links" caps)
  /\ (forall caps source arguments env_vars program_id entry targets
             w1 w2 w3 w4 w5 w6 w7 w8,
        ProgramWrapper.resolve_args w = (Normal tt, w1) ->
        ProgramWrapper.get_capabilities w1 = (Normal caps, w2) ->
        ProgramWrapper.preprocess_source w2 = (Normal source, w3) ->
        ProgramWrapper.get_relevant_arguments w3 = (Normal arguments, w4) ->
        ProgramWrapper.get_relevant_env_vars w4 = (Normal env_vars, w5) ->
        ProgramWrapper.get_program_id w5 = (Normal program_id, w6) ->
        ProgramWrapper.cache_lookup C
          (ProgramWrapper.hasher_final C
             [ProgramWrapper.Text source;
              ProgramWrapper.Text (ProgramWrapper.join C " " true arguments);
              ProgramWrapper.Pairs env_vars;
              ProgramWrapper.Text program_id]) w6
        = (Normal (Some entry), w7) ->
        ProgramWrapper.get_build_files w7 = (Normal targets, w8) ->
        (forall id src,
           In (id, src) (ProgramWrapper.files entry) ->
           map_find id targets <> None) ->
        (forall l m, never_fails (ProgramWrapper.debug_log C l m)) ->
        (forall a b, never_fails (ProgramWrapper.link_or_copy C a b)) ->
        (forall a b, never_fails (ProgramWrapper.copy C a b)) ->
        (forall t, never_fails (ProgramWrapper.cout C t)) ->
        (forall t, never_fails (ProgramWrapper.cerr C t)) ->
        r = Normal (true, ProgramWrapper.return_code entry)
        /\ ProgramWrapper.materializations tr
           = ProgramWrapper.expected_materializations
               (ProgramWrapper.config_hard_links C
                && ProgramWrapper.hard_links
                     (ProgramWrapper.make_capabilities caps))
               targets (ProgramWrapper.files entry)
        /\ length (ProgramWrapper.materializations tr)
           = length (ProgramWrapper.files entry)).
Proof.
  intros Hrun.
  assert (Hlinks : forall s t res,
    In (ProgramWrapper.LinkOrCopy s t res) tr ->
    ProgramWrapper.config_hard_links C = true
    /\ exists caps,
         In (ProgramWrapper.GetCapabilities (Normal caps)) tr
         /\ In "hard_links" caps).
  { intros s t res Hin.
    wrapper_run Hrun; in_trace Hin;
      intuition (try discriminate; try not_in_loop);
      match goal with
      | H : (_ && _)%bool = true |- _ =>
          apply andb_true_iff in H; destruct H as [Hcfg Hcap]
      end;
      try assumption;
      eexists; (split; [find_event |]);
      apply scan_capabilities_spec; exact Hcap. }
  split; [exact Hlinks | split; [| split; [| split]]].
  - intros Hmissing ev Hin.
    destruct ev; try reflexivity. exfalso.
    destruct (Hlinks _ _ _ Hin) as (Hcfg & caps & Hcaps & Hhl).
    destruct Hmissing as [Hoff | Hnone]; [congruence |].
    exact (Hnone caps Hcaps Hhl).
  - intros hash entry rc Hin Hr. subst r. clear Hlinks.
    wrapper_run Hrun; in_trace Hin;
      try (exfalso; eapply Hnot; reflexivity);
      intuition (try discriminate; try not_in_loop);
      match goal with
      | H : ProgramWrapper.CacheLookup _ _ = ProgramWrapper.CacheLookup _ _
        |- _ => inversion H; subst; clear H
      end.
    do 2 eexists. split; [find_event | split; [find_event |]].
    unfold ProgramWrapper.materializations. simpl.
    rewrite !List.filter_app. simpl. rewrite !app_nil_r. assumption.
  - intros caps. apply scan_capabilities_spec.
  - intros caps source arguments env_vars program_id entry targets
      w1 w2 w3 w4 w5 w6 w7 w8 H1 H2 H3 H4 H5 H6 H7 H8 Htargets Hlog Hlink
      Hcopy Hcout Hcerr.
    clear Hlinks.
    unfold ProgramWrapper.handle_command in Hrun.
    cbn [ProgramWrapper.traced ProgramWrapper.traced_wrapper
           ProgramWrapper.resolve_args ProgramWrapper.get_capabilities
           ProgramWrapper.preprocess_source
           ProgramWrapper.get_relevant_arguments
           ProgramWrapper.get_relevant_env_vars ProgramWrapper.get_program_id
           ProgramWrapper.get_build_files ProgramWrapper.cache_lookup
           ProgramWrapper.cout ProgramWrapper.cerr
           ProgramWrapper.config_hard_links ProgramWrapper.hasher_final
           ProgramWrapper.join] in Hrun.
    rewrite try_catch_bind_recording in Hrun. cbn [fst snd app] in Hrun.
    rewrite H1 in Hrun.
    rewrite try_catch_bind_recording in Hrun. cbn [fst snd app] in Hrun.
    rewrite H2 in Hrun.
    rewrite try_catch_bind_recording in Hrun. cbn [fst snd app] in Hrun.
    rewrite H3 in Hrun.
    rewrite try_catch_bind_recording in Hrun. cbn [fst snd app] in Hrun.
    rewrite H4 in Hrun.
    rewrite try_catch_bind_recording in Hrun. cbn [fst snd app] in Hrun.
    rewrite H5 in Hrun.
    rewrite try_catch_bind_recording in Hrun. cbn [fst snd app] in Hrun.
    rewrite H6 in Hrun.
    rewrite try_catch_bind_recording in Hrun. cbn [fst snd app] in Hrun.
    rewrite H7 in Hrun.
    rewrite try_catch_bind_recording in Hrun. cbn [fst snd app] in Hrun.
    rewrite H8 in Hrun.
    rewrite try_catch_bind in Hrun.
    match type of Hrun with
    | context [ProgramWrapper.materialize _ ?h ?a ?t ?cf ?s] =>
        pose proof (materialize_returns C h a t cf s Htargets Hlog Hlink
                      Hcopy) as Hret;
        destruct (ProgramWrapper.materialize (ProgramWrapper.traced C) h a t
                    cf s) as [rm [wm trm]] eqn:Hmat
    end.
    cbn [fst] in Hret. subst rm.
    apply materialize_trace in Hmat.
    destruct Hmat as (new & Htr & _ & Hfull). cbn [fst snd] in Htr. subst trm.
    specialize (Hfull eq_refl).
    rewrite try_catch_bind_recording in Hrun. cbn [fst snd app] in Hrun.
    destruct (Hcout (ProgramWrapper.std_out entry) wm) as ([] & w9 & Hw9).
    rewrite Hw9 in Hrun.
    rewrite try_catch_bind_recording in Hrun. cbn [fst snd app] in Hrun.
    destruct (Hcerr (ProgramWrapper.std_err entry) w9) as ([] & w10 & Hw10).
    rewrite Hw10 in Hrun.
    cbn [try_catch ret] in Hrun. inversion Hrun; subst; clear Hrun.
    assert (Hmat :
      ProgramWrapper.materializations
        ((([ProgramWrapper.ResolveArgs (Normal tt);
            ProgramWrapper.GetCapabilities (Normal caps);
            ProgramWrapper.PreprocessSource (Normal source);
            ProgramWrapper.GetRelevantArguments (Normal arguments);
            ProgramWrapper.GetRelevantEnvVars (Normal env_vars);
            ProgramWrapper.GetProgramId (Normal program_id);
            ProgramWrapper.CacheLookup
              (ProgramWrapper.hasher_final C
                 [ProgramWrapper.Text source;
                  ProgramWrapper.Text
                    (ProgramWrapper.join C " " true arguments);
                  ProgramWrapper.Pairs env_vars;
                  ProgramWrapper.Text program_id])
              (Normal (Some entry));
            ProgramWrapper.GetBuildFiles (Normal targets)] ++ new)
          ++ [ProgramWrapper.Cout (ProgramWrapper.std_out entry) (Normal tt)])
         ++ [ProgramWrapper.Cerr (ProgramWrapper.std_err entry) (Normal tt)])
      = ProgramWrapper.expected_materializations
          (ProgramWrapper.config_hard_links C
           && ProgramWrapper.hard_links
                (ProgramWrapper.make_capabilities caps))
          targets (ProgramWrapper.files entry)).
    { unfold ProgramWrapper.materializations.
      rewrite !List.filter_app. simpl. rewrite !app_nil_r. exact Hfull. }
    split; [reflexivity | split; [exact Hmat |]].
    pose proof (expected_materializations_length
                  (ProgramWrapper.config_hard_links C
                   && ProgramWrapper.hard_links
                        (ProgramWrapper.make_capabilities caps))
                  targets (ProgramWrapper.files entry) Htargets) as Hlen.
    rewrite <- Hmat in Hlen. exact Hlen.
Qed.

(** ** The statements on concrete worlds *)

Section OnFixtures.

Import Cache Reference Fixtures.

(** A witness of C1, on the header example: with [hdr.h] changed to "#define X 2" a
    direct lookup misses; with [hdr.h] unchanged it goes on to the regular
    lookup of the recorded hash. *)
Lemma lookup_direct_checks_implicit_inputs_witness :
  lookup_direct unlimited "d1" object_expected false false 1
    (direct_world "#define X 2")
  = (Normal (false, 1),
     with_stats direct_miss
       (with_log [(INFO, direct_miss_line "d1")] (direct_world "#define X 2")))
  /\ lookup_direct unlimited "d1" object_expected false false 1
       (direct_world "#define X 1")
     = lookup unlimited "h1" object_expected false false 1
         (with_stats direct_hit
            (with_log [(INFO, direct_hit_line "d1" "h1")]
               (direct_world "#define X 1"))).
Proof.
  split.
  - destruct (lookup_direct_checks_implicit_inputs plain_digest no_dir
                config_unlimited (direct_world "#define X 2") "d1"
                object_expected false false 1 header_manifest)
      as (_ & Hmiss & _); [vm_compute; reflexivity |].
    apply (Hmiss "hdr.h" "#define X 1");
      [left; reflexivity | vm_compute; discriminate].
  - destruct (lookup_direct_checks_implicit_inputs plain_digest no_dir
                config_unlimited (direct_world "#define X 1") "d1"
                object_expected false false 1 header_manifest)
      as (Hhit & _); [vm_compute; reflexivity |].
    apply Hhit. vm_compute. reflexivity.
Defined.

(** A witness of C2 as amended, on concrete worlds: a local entry with an unexpected file
    makes the local part of [lookup] a miss; [add] throws when the required
    output file is missing and when the cache directory cannot be written. *)
Lemma lookup_contains_errors_add_only_remote_ones_witness :
  fst (local_attempt unlimited "h1" object_expected false false 1
         mismatching_world) = Normal (false, 1)
  /\ add unlimited "h1" object_entry object_expected false unbuilt_world
     = (Raise (std_exception bare_exception_what), unbuilt_world)
  /\ add unlimited "h1" object_entry object_expected false read_only_world
     = (Raise (runtime_error "Unable to write to the cache"), read_only_world).
Proof.
  destruct (lookup_contains_errors_add_only_remote_ones unlimited "h1"
              object_expected false false 1 object_entry)
    as (_ & Hlocal & _ & Hsize & Hadd & _).
  split; [| split].
  - rewrite (Hlocal mismatching_world "Found unexpected cached file: depfile"
               (snd (lookup_in_local_cache unlimited "h1" object_expected
                       false false 1 mismatching_world))
               (snd (debug_log unlimited ERROR
                       "Local lookup of h1 failed: Found unexpected cached file: depfile"
                       (snd (lookup_in_local_cache unlimited "h1"
                               object_expected false false 1
                               mismatching_world)))));
      [reflexivity | vm_compute; reflexivity | vm_compute; reflexivity].
  - apply Hsize. vm_compute. reflexivity.
  - apply (Hadd read_only_world 128 read_only_world);
      vm_compute; reflexivity.
Defined.

(** A counterexample to C2 as stated: with a cache directory that cannot be written, the
    error of the local insert is not logged as a warning; it leaves [add]. *)
Lemma add_propagates_local_insert_error :
  fst (add unlimited "h1" object_entry object_expected false read_only_world)
  = Raise (runtime_error "Unable to write to the cache")
  /\ log (snd (add unlimited "h1" object_entry object_expected false
                 read_only_world)) = [].
Proof. split; vm_compute; reflexivity. Qed.

(** A witness of C3 as amended, on a remote hit of 128 bytes with no size
    limit. *)
Lemma remote_hit_is_promoted_within_limit_witness :
  exists w',
    lookup unlimited "h1" object_expected false false 1
      (remote_world (stored_object (filler 120)))
    = (Normal (true, 0), w')
    /\ files w' !! "out.o" = Some (filler 120)
    /\ out w' = "compiled"
    /\ option_map meta (local_entries w' !! "h1")
       = Some (promoted_entry unlimited object_entry)
    /\ stats w' = remote_hit.
Proof.
  destruct (remote_hit_is_promoted_within_limit plain_digest no_dir
              config_unlimited (remote_world (stored_object (filler 120)))
              "h1" object_expected false false 1
              (stored_object (filler 120)) 128)
    as (w' & Hl & Hf & Ho & He & Hfit & _);
    try (vm_compute; reflexivity).
  { vm_compute. discriminate. }
  destruct (Hfit eq_refl {[ "object" := filler 120 ]}) as (Hle & Hc & Hs);
    try (vm_compute; reflexivity).
  exists w'. split; [exact Hl |].
  rewrite Hf, Ho, Hle, Hs. repeat split; vm_compute; reflexivity.
Defined.

(** A counterexample to C3 as stated: with [max_local_entry_size = 64], a remote hit of
    128 bytes is returned as a hit, but the entry is not added to the local
    cache and the remote-hit counter stays at zero. *)
Lemma oversized_remote_hit_is_not_promoted :
  fst oversized_remote_run = Normal (true, 0)
  /\ local_entries (snd oversized_remote_run) !! "h1" = None
  /\ remote_hits (stats (snd oversized_remote_run)) = 0%nat.
Proof. repeat split; vm_compute; reflexivity. Qed.


(** A witness of C5, on an entry with 8 bytes of stdout and an output file
    of 120 bytes. *)
Lemma get_total_entry_size_meets_spec_witness :
  get_total_entry_size unlimited object_entry object_expected built_world
  = (Normal 128, built_world).
Proof.
  pose proof (get_total_entry_size_meets_spec unlimited built_world
                (sizes_on (files built_world)) object_entry object_expected
                (reference_reads_sizes plain_digest no_dir config_unlimited
                   built_world)) as H.
  assert (E : spec_total_size (sizes_on (files built_world)) object_entry
                object_expected = Some 128) by (vm_compute; reflexivity).
  rewrite E in H. apply H.
  - apply sizes_on_nonneg.
  - vm_compute. discriminate.
Defined.

(** A witness of C6 as amended, on the entry of 128 bytes with [max_local_entry_size = 64]
    and an empty local cache. *)
Lemma local_insert_is_gated_by_size_witness :
  local_entries world_after_skip = local_entries built_world
  /\ In (WARNING, too_large_message "local" 128) (log world_after_skip)
  /\ fst (local_lookup limited "h1" world_after_skip) = Normal None.
Proof.
  destruct (local_insert_is_gated_by_size plain_digest no_dir config_64 built_world "h1"
              object_entry object_expected false 128) as (Hskip & _);
    [vm_compute; reflexivity | vm_compute; discriminate |].
  destruct Hskip as (H1 & H2 & _ & H4);
    [vm_compute; discriminate | reflexivity |].
  split; [exact H1 | split; [exact H2 |]].
  apply H4. vm_compute. reflexivity.
Defined.

(** A counterexample to C6 as stated: the oversized insert is skipped, and a local lookup
    of the hash finds the entry that was stored before. *)
Lemma skipped_insert_leaves_older_entry :
  spec_total_size (sizes_on (files stale_world)) object_entry object_expected
  = Some 128
  /\ max_local_entry_size (config limited) = 64
  /\ fst (local_lookup limited "h1"
            (snd (add limited "h1" object_entry object_expected false
                    stale_world)))
     = Normal (Some object_entry).
Proof. repeat split; vm_compute; reflexivity. Qed.

(** A witness of C10, with the remote cache out of reach. *)
Lemma remote_miss_counted_only_after_connected_lookup_witness :
  lookup_in_remote_cache (traced unlimited) "h1" object_expected false false 1
    (empty_world, [])
  = (Normal (false, 1), (empty_world, [RemoteConnect (Normal false)])).
Proof.
  apply (proj1 (remote_miss_counted_only_after_connected_lookup unlimited "h1"
                  object_expected false false 1 empty_world)).
  vm_compute. reflexivity.
Defined.

End OnFixtures.

Section OnScriptedWrapper.

Import ProgramWrapper Fixtures.

(** A witness of C7, on a tool that exits with code 1: nothing is added to
    the cache. *)
Lemma failed_runs_are_not_cached_witness :
  (forall ev, In ev (snd (snd failing_run)) -> is_cache_add ev = false)
  /\ fst failing_run = Normal (true, 1).
Proof.
  apply (proj2 (failed_runs_are_not_cached (scripted true 1)
                  (object_wrapper ["hard_links"]) cold_cache (fst failing_run)
                  (fst (snd failing_run)) (snd (snd failing_run))
                  ltac:(vm_compute; reflexivity))
           ["cc"; "-c"; "a.c"] false (tool_result 1)).
  - vm_compute. tauto.
  - vm_compute. discriminate.
Defined.

(** A witness of C9, on two cache hits: with hard links configured and
    reported by the wrapper the cached file is linked, and with neither it
    is copied. *)
Lemma hard_links_need_config_and_capability_witness :
  fst hard_link_run = Normal (true, 0)
  /\ materializations (snd (snd hard_link_run))
     = [LinkOrCopy "cache/h1/object" "out.o" (Normal tt)]
  /\ fst Scenarios.warm_run = Normal (true, 0)
  /\ materializations (snd (snd Scenarios.warm_run))
     = [Copy "cache/h1/object" "out.o" (Normal tt)].
Proof.
  assert (Hquiet : forall hl code,
    (forall l m, never_fails (debug_log (scripted hl code) l m))
    /\ (forall a b, never_fails (link_or_copy (scripted hl code) a b))
    /\ (forall a b, never_fails (copy (scripted hl code) a b))
    /\ (forall t, never_fails (cout (scripted hl code) t))
    /\ (forall t, never_fails (cerr (scripted hl code) t))).
  { intros hl code. repeat split; intros; intros w0; now exists tt, w0. }
  destruct (Hquiet true 0) as (L1 & L2 & L3 & L4 & L5).
  destruct (Hquiet false 0) as (C1 & C2 & C3 & C4 & C5).
  destruct (proj2 (proj2 (proj2 (proj2
              (hard_links_need_config_and_capability (scripted true 0)
                 (object_wrapper ["hard_links"]) warm_cache
                 (fst hard_link_run) (fst (snd hard_link_run))
                 (snd (snd hard_link_run))
                 ltac:(vm_compute; reflexivity)))))
              ["hard_links"] "int main(){return 0;}" ["-c"] [] "cc-1.0"
              cached_object [("object", "out.o")]
              warm_cache warm_cache warm_cache warm_cache warm_cache
              warm_cache warm_cache warm_cache
              eq_refl eq_refl eq_refl eq_refl eq_refl eq_refl
              ltac:(vm_compute; reflexivity) eq_refl
              ltac:(intros id src [Heq | []]; inversion Heq; discriminate)
              L1 L2 L3 L4 L5)
    as (Hr1 & Hm1 & _).
  destruct (proj2 (proj2 (proj2 (proj2
              (hard_links_need_config_and_capability (scripted false 0)
                 (object_wrapper []) warm_cache
                 (fst Scenarios.warm_run) (fst (snd Scenarios.warm_run))
                 (snd (snd Scenarios.warm_run))
                 ltac:(vm_compute; reflexivity)))))
              [] "int main(){return 0;}" ["-c"] [] "cc-1.0"
              cached_object [("object", "out.o")]
              warm_cache warm_cache warm_cache warm_cache warm_cache
              warm_cache warm_cache warm_cache
              eq_refl eq_refl eq_refl eq_refl eq_refl eq_refl
              ltac:(vm_compute; reflexivity) eq_refl
              ltac:(intros id src [Heq | []]; inversion Heq; discriminate)
              C1 C2 C3 C4 C5)
    as (Hr2 & Hm2 & _).
  split; [exact Hr1 | split; [rewrite Hm1; reflexivity |]].
  split; [exact Hr2 | rewrite Hm2; reflexivity].
Defined.

End OnScriptedWrapper.

(** C8. [-M SIZE] and [--max-size SIZE] do not set the budget: whatever
    [SIZE] is, the program writes that setting the max size is not
    implemented, leaves the configured budget as it was, and exits with
    code 0. *)
Theorem max_size_is_not_implemented (size_arg : string) (w : Main.console) :
  let after :=
    {| Main.max_cache_size := Main.max_cache_size w;
       Main.written_out :=
         Main.written_out w
           ++ "*** Setting the max size has not yet implemented" ++ Main.nl;
       Main.written_err := Main.written_err w |} in
  Main.main Main.console_collaborators "buildcache" ["-M"; size_arg] w
  = (Normal 0, after)
  /\ Main.main Main.console_collaborators "/usr/bin/buildcache"
       ["--max-size"; size_arg] w
     = (Normal 0, after).
Proof. split; reflexivity. Qed.

(** * Further properties of the embedded code *)

(** ** Reading a run backwards *)

Lemma bind_normal_inv {W A B} (c : M W A) (k : A -> M W B) w b w' :
  bind c k w = (Normal b, w') ->
  exists a w1, c w = (Normal a, w1) /\ k a w1 = (Normal b, w').
Proof.
  unfold bind. destruct (c w) as [[a | e | ] w1]; intros H;
    [eauto | discriminate ..].
Qed.

Lemma try_catch_normal_inv {W A} (body : M W A) (h : handler W A) w b w' :
  try_catch body h w = (Normal b, w') ->
  body w = (Normal b, w')
  \/ exists e w1 k,
       body w = (Raise e, w1) /\ h e = Some k /\ k w1 = (Normal b, w').
Proof.
  unfold try_catch. destruct (body w) as [[a | e | ] w1]; intros H;
    [now left | | discriminate].
  destruct (h e) as [k |] eqn:Hh; [| discriminate].
  right. eauto 6.
Qed.

Lemma noexcept_normal_inv {W A} (body : M W A) w b w' :
  noexcept body w = (Normal b, w') -> body w = (Normal b, w').
Proof.
  unfold noexcept. destruct (body w) as [[a | e | ] w1]; intros H;
    [exact H | discriminate ..].
Qed.

(** Splits a run that returned, kept in [H], at its first [bind]. *)
Ltac unbind H :=
  let a := fresh "a" in
  let w1 := fresh "w" in
  let H1 := fresh "Hstep" in
  apply bind_normal_inv in H; destruct H as (a & w1 & H1 & H).

Section ReturnCode.

Import Cache.
Context {W : Type} (C : collaborators W).

Lemma lookup_in_local_cache_miss_code hash x allow create rc0 w rc w' :
  lookup_in_local_cache C hash x allow create rc0 w = (Normal (false, rc), w') ->
  rc = rc0.
Proof.
  rewrite lookup_in_local_cache_eq. intros H. unbind H.
  destruct a as [e |]; [| now inversion H].
  do 3 unbind H. inversion H.
Qed.

Lemma lookup_in_remote_cache_miss_code hash x allow create rc0 w rc w' :
  lookup_in_remote_cache C hash x allow create rc0 w
    = (Normal (false, rc), w') ->
  rc = rc0.
Proof.
  rewrite lookup_in_remote_cache_eq. intros H. unbind H.
  destruct (negb a); [now inversion H |].
  unbind H. destruct a0 as [e |].
  - do 4 unbind H. inversion H.
  - unbind H. now inversion H.
Qed.

Lemma local_attempt_miss_code hash x allow create rc0 w rc w' :
  local_attempt C hash x allow create rc0 w = (Normal (false, rc), w') ->
  rc = rc0.
Proof.
  rewrite local_attempt_eq. intros H.
  apply try_catch_normal_inv in H. destruct H as [H | (e & w1 & k & _ & Hk & H)].
  - eapply lookup_in_local_cache_miss_code; eassumption.
  - destruct e; simpl in Hk; inversion Hk; subst; clear Hk.
    unbind H. now inversion H.
Qed.

(** A std::runtime_error leaves the promotion only out of the log call of
    its [catch] clause. *)
Lemma promote_raise_inv hash x allow e w what w' :
  promote C hash x allow e w = (Raise (runtime_error what), w') ->
  exists what0 w1,
    debug_log C ERROR (CacheCalls.promotion_error_message what0) w1
    = (Raise (runtime_error what), w').
Proof.
  unfold promote, try_catch, CacheCalls.promotion_error_message.
  match goal with
  | |- (match ?b with _ => _ end) = _ -> _ =>
      destruct b as [[[] | e0 | ] w1]
  end; try discriminate.
  destruct e0 as [what0 | what0 | ]; cbn [catch_std_exception];
    [eauto | eauto | discriminate].
Qed.

(** When an exception leaves [lookup_in_remote_cache], [return_code] is as
    it was at the call, unless the exception comes out of the promotion of an
    entry that the remote cache returned. *)
Lemma lookup_in_remote_cache_raise_inv hash x allow create rc0 w ex w' rc1 :
  lookup_in_remote_cache_ref C hash x allow create (w, rc0)
    = (Raise ex, (w', rc1)) ->
  rc1 = rc0
  \/ exists e w2 w3 w4,
       remote_lookup C hash w2 = (Normal (Some e), w3)
       /\ promote C hash x allow e w4 = (Raise ex, w')
       /\ rc1 = return_code e.
Proof.
  unfold lookup_in_remote_cache_ref, bind, call, assign, ret. cbn [fst snd].
  destruct (remote_connect C w) as [[[|] | ex0 | ] w2];
    try (intros H; inversion H; now left).
  cbn [negb fst snd].
  destruct (remote_lookup C hash w2) as [[[e |] | ex0 | ] w3] eqn:Hlookup;
    cbn [fst snd]; try (intros H; inversion H; now left).
  - destruct (retrieve_remote_files C hash x create e (file_ids e) w3)
      as [[[] | ex0 | ] w4]; cbn [fst snd];
      try (intros H; inversion H; now left).
    destruct (print_raw_stdout C (std_out e) w4) as [[[] | ex0 | ] w5];
      cbn [fst snd]; try (intros H; inversion H; now left).
    destruct (print_raw_stderr C (std_err e) w5) as [[[] | ex0 | ] w6];
      cbn [fst snd]; try (intros H; inversion H; now left).
    destruct (promote C hash x allow e w6) as [[[] | ex0 | ] w7] eqn:Hp;
      cbn [fst snd]; intros H; inversion H; subst.
    right. eauto 8.
  - destruct (local_update_stats C hash remote_miss w3)
      as [[[] | ex0 | ] w4]; cbn [fst snd]; intros H; inversion H; now left.
Qed.

(** [return_code] after the remote part of [lookup] returned false. *)
Lemma remote_attempt_miss_code hash x allow create rc0 w rc w' :
  remote_attempt C hash x allow create rc0 w = (Normal (false, rc), w') ->
  rc = rc0
  \/ exists e w2 w3 what w4 what' w5,
       remote_lookup C hash w2 = (Normal (Some e), w3)
       /\ debug_log C ERROR (CacheCalls.promotion_error_message what) w4
          = (Raise (runtime_error what'), w5)
       /\ rc = return_code e.
Proof.
  unfold remote_attempt, remote_attempt_ref, pass, try_catch.
  destruct (lookup_in_remote_cache_ref C hash x allow create (w, rc0))
    as [[b | ex | ] [w1 rc1]] eqn:Hrun; [| | discriminate].
  - cbn [fst snd]. intros H. inversion H; subst. left.
    apply (lookup_in_remote_cache_miss_code hash x allow create rc0 w rc w').
    unfold lookup_in_remote_cache, pass. now rewrite Hrun.
  - destruct ex as [what' | what' | ]; cbn [catch_runtime_error];
      [| discriminate ..].
    unfold bind, call, ret. cbn [fst snd].
    destruct (debug_log C ERROR _ w1) as [[[] | ex0 | ] w2];
      cbn [fst snd]; intros H; inversion H; subst.
    apply lookup_in_remote_cache_raise_inv in Hrun.
    destruct Hrun as [-> | (e & w3 & w4 & w5 & Hl & Hp & ->)]; [now left |].
    apply promote_raise_inv in Hp. destruct Hp as (what0 & w6 & Hlog).
    right. eauto 10.
Qed.

Lemma lookup_miss_code hash x allow create rc0 w rc w' :
  lookup C hash x allow create rc0 w = (Normal (false, rc), w') ->
  rc = rc0
  \/ exists e w2 w3 what w4 what' w5,
       remote_lookup C hash w2 = (Normal (Some e), w3)
       /\ debug_log C ERROR (CacheCalls.promotion_error_message what) w4
          = (Raise (runtime_error what'), w5)
       /\ rc = return_code e.
Proof.
  rewrite lookup_eq. intros H. apply noexcept_normal_inv in H. unbind H.
  destruct a as [b1 rc1]. simpl in H.
  destruct b1; [inversion H |].
  apply local_attempt_miss_code in Hstep. subst rc1.
  unbind H. destruct a as [b2 rc2]. simpl in H.
  destruct b2; inversion H; subst.
  eapply remote_attempt_miss_code; eassumption.
Qed.

End ReturnCode.

(** X1. A lookup that returns false hands the caller's [return_code] back
    as it received it, with one exception: [lookup_in_remote_cache] assigns
    [return_code] before it adds the remote entry to the local cache, so
    when the log call that reports a failed promotion itself throws a
    std::runtime_error, [lookup] catches that exception and returns false with
    [return_code] holding the return code of the remote entry. With a debug
    log whose ERROR lines never throw a std::runtime_error, [lookup] and
    [lookup_direct] assign the out-parameter on a hit only. *)
Theorem miss_leaves_return_code
    {W : Type} (C : Cache.collaborators W) (hash : string)
    (x : string_map Cache.expected_file_t) (allow create : bool)
    (rc0 rc : Z) (w w' : W) :
  let promotion_log_threw :=
    exists h e w2 w3 what w4 what' w5,
      Cache.remote_lookup C h w2 = (Normal (Some e), w3)
      /\ Cache.debug_log C ERROR (CacheCalls.promotion_error_message what) w4
         = (Raise (runtime_error what'), w5)
      /\ rc = Cache.return_code e in
  (Cache.lookup C hash x allow create rc0 w = (Normal (false, rc), w') ->
   rc = rc0 \/ promotion_log_threw)
  /\ (Cache.lookup_direct C hash x allow create rc0 w
        = (Normal (false, rc), w') ->
      rc = rc0 \/ promotion_log_threw)
  /\ ((forall msg w0 what,
         fst (Cache.debug_log C ERROR msg w0) <> Raise (runtime_error what)) ->
      Cache.lookup C hash x allow create rc0 w = (Normal (false, rc), w')
      \/ Cache.lookup_direct C hash x allow create rc0 w
         = (Normal (false, rc), w') ->
      rc = rc0).
Proof.
  intros promotion_log_threw.
  assert (Hlookup :
    Cache.lookup C hash x allow create rc0 w = (Normal (false, rc), w') ->
    rc = rc0 \/ promotion_log_threw).
  { intros H. apply lookup_miss_code in H.
    destruct H as [H | (e & w2 & w3 & what & w4 & what' & w5 & H)];
      [now left | right].
    exists hash, e, w2, w3, what, w4, what', w5. exact H. }
  assert (Hdirect :
    Cache.lookup_direct C hash x allow create rc0 w
      = (Normal (false, rc), w') ->
    rc = rc0 \/ promotion_log_threw).
  { rewrite lookup_direct_eq. intros H. apply noexcept_normal_inv in H.
    unbind H. destruct a as [h |]; [| inversion H; now left].
    apply lookup_miss_code in H.
    destruct H as [H | (e & w2 & w3 & what & w4 & what' & w5 & H)];
      [now left | right].
    exists h, e, w2, w3, what, w4, what', w5. exact H. }
  split; [exact Hlookup | split; [exact Hdirect |]].
  intros Hquiet Hmiss.
  assert (Hcases : rc = rc0 \/ promotion_log_threw)
    by (destruct Hmiss; auto).
  destruct Hcases as [H | (h & e & w2 & w3 & what & w4 & what' & w5 & _ & Hlog
                            & _)]; [exact H |].
  exfalso.
  apply (Hquiet (CacheCalls.promotion_error_message what) w4 what').
  now rewrite Hlog.
Qed.

(** ** Direct mode entries *)

Lemma map_insert_in {T} (key : string) (v : T) (m : string_map T) k x :
  In (k, x) (map_insert key v m) -> (k, x) = (key, v) \/ In (k, x) m.
Proof.
  induction m as [| [k0 x0] rest IH]; simpl.
  - intros [H | []]. now left.
  - destruct (String.compare key k0); simpl.
    + tauto.
    + intros [H | H]; [now left | right; exact H].
    + intros [H | H]; [right; now left |].
      destruct (IH H) as [H1 | H1]; [now left | right; now right].
Qed.

Lemma map_insert_Forall {T} (P : string * T -> Prop) key v (m : string_map T) :
  Forall P m -> P (key, v) -> Forall P (map_insert key v m).
Proof.
  intros Hm Hk. apply List.Forall_forall. intros [k x] Hin.
  destruct (map_insert_in _ _ _ _ _ Hin) as [H | H].
  - now rewrite H.
  - exact (proj1 (List.Forall_forall _ _) Hm _ H).
Qed.

Section DirectEntries.

Import Cache.
Context {W : Type} (C : collaborators W).

(** The loop of [add_direct], call by call: it only hashes files. When it
    returns, every call returned, every path was hashed, and every hash of
    the table was returned by a call (or was in the table before). When it
    does not return, the last call is the one that did not. *)
Lemma hash_implicit_inputs_trace paths acc s r s' :
  hash_implicit_inputs (traced C) paths acc s = (r, s') ->
  exists new,
    snd s' = (snd s ++ new)%list
    /\ match r with
       | Normal acc' =>
           Forall (fun ev => exists p hp, ev = HashFile p (Normal hp)) new
           /\ Forall (fun p => exists hp, In (HashFile p (Normal hp)) new) paths
           /\ forall p hp,
                In (p, hp) acc' ->
                In (p, hp) acc \/ In (HashFile p (Normal hp)) new
       | Raise e =>
           exists pre p,
             new = (pre ++ [HashFile p (Raise e)])%list
             /\ Forall (fun ev => exists p hp, ev = HashFile p (Normal hp)) pre
       | Terminate =>
           exists pre p,
             new = (pre ++ [HashFile p Terminate])%list
             /\ Forall (fun ev => exists p hp, ev = HashFile p (Normal hp)) pre
       end.
Proof.
  revert acc s. induction paths as [| p rest IH]; intros acc s Hrun;
    simpl in Hrun.
  - inversion Hrun; subst. exists []. rewrite app_nil_r. auto.
  - rewrite bind_recording in Hrun.
    destruct (hash_file C p (fst s)) as [[h | e | ] w1].
    + destruct (IH _ _ Hrun) as (new & Hnew & Hr).
      exists (HashFile p (Normal h) :: new). cbn [snd] in Hnew.
      rewrite Hnew, <- app_assoc. split; [reflexivity |].
      destruct r as [acc' | e | ].
      * destruct Hr as (Hall & Hpaths & Hacc). split; [constructor; eauto |].
        split.
        -- constructor; [exists h; now left |].
           eapply List.Forall_impl; [| exact Hpaths].
           intros q (hq & Hq). exists hq. now right.
        -- intros q hq Hin. destruct (Hacc q hq Hin) as [H | H].
           ++ destruct (map_insert_in _ _ _ _ _ H) as [H1 | H1].
              ** inversion H1; subst. right. now left.
              ** now left.
           ++ right. now right.
      * destruct Hr as (pre & q & -> & Hpre).
        exists (HashFile p (Normal h) :: pre), q.
        split; [reflexivity | constructor; eauto].
      * destruct Hr as (pre & q & -> & Hpre).
        exists (HashFile p (Normal h) :: pre), q.
        split; [reflexivity | constructor; eauto].
    + inversion Hrun; subst. exists [HashFile p (Raise e)].
      split; [reflexivity |]. exists [], p. auto.
    + inversion Hrun; subst. exists [HashFile p Terminate].
      split; [reflexivity |]. exists [], p. auto.
Qed.

End DirectEntries.

(** Splits the membership [H] of an event in a trace into its cases, and
    closes those in which the event would be in a part of the trace that
    holds other kinds of events. *)
Ltac trace_split H :=
  in_trace H;
  repeat (destruct H as [H | H]);
  try contradiction;
  try discriminate;
  try (match goal with
       | Hk : forall ev, In ev ?l -> _ |- _ =>
           match type of H with
           | In _ l =>
               apply Hk in H; simpl in H;
               first [ contradiction
                     | destruct H as (? & ? & ?); discriminate ]
           end
       end).

(** X2. Whatever the hasher and the local cache do, [add_direct] stores a
    manifest only after every implicit input file was hashed: the manifest
    is stored under the given direct hash, records the given preprocessor
    hash, and each hash in its table was returned by hashing that path. When
    hashing a file throws a std::runtime_error, no manifest is stored, the
    failure is logged at ERROR level, and [add_direct] ends as that log call
    ends. *)
Theorem add_direct_stores_complete_manifests_only
    {W : Type} (C : Cache.collaborators W) (direct_hash hash : string)
    (paths : list string) (w : W) (r : outcome unit) (w' : W)
    (tr : list Cache.event) :
  Cache.add_direct (Cache.traced C) direct_hash hash paths (w, [])
  = (r, (w', tr)) ->
  (forall d m res,
     In (Cache.LocalAddDirect d m res) tr ->
     d = direct_hash
     /\ Cache.hash m = hash
     /\ Forall (fun p => exists hp, In (Cache.HashFile p (Normal hp)) tr) paths
     /\ forall p hp,
          In (p, hp) (Cache.files_with_hashes m) ->
          In (Cache.HashFile p (Normal hp)) tr)
  /\ (forall p what,
        In (Cache.HashFile p (Raise (runtime_error what))) tr ->
        (forall d m res, ~ In (Cache.LocalAddDirect d m res) tr)
        /\ exists res,
             In (Cache.DebugLog ERROR
                   ("Creation of direct mode entry " ++ direct_hash
                      ++ " failed: " ++ what) res) tr
             /\ r = res).
Proof.
  intros Hrun. unfold Cache.add_direct in Hrun.
  rewrite try_catch_bind in Hrun.
  destruct (Cache.hash_implicit_inputs (Cache.traced C) paths [] (w, []))
    as [[acc | e | ] [w1 tr1]] eqn:Hloop;
    apply hash_implicit_inputs_trace in Hloop;
    destruct Hloop as (new & Hnew & Hr); cbn [fst snd app] in Hnew;
    subst tr1.
  - (* every file was hashed: the manifest is handed to the local cache *)
    destruct Hr as (Hall & Hpaths & Hacc).
    assert (Hnew : forall ev, In ev new ->
              exists p hp, ev = Cache.HashFile p (Normal hp))
      by (apply List.Forall_forall; exact Hall).
    assert (Hstored : forall tail,
              Forall (fun p => exists hp,
                        In (Cache.HashFile p (Normal hp)) (new ++ tail)) paths
              /\ forall p hp,
                   In (p, hp) acc ->
                   In (Cache.HashFile p (Normal hp)) (new ++ tail)).
    { intros tail. split.
      - eapply List.Forall_impl; [| exact Hpaths].
        intros q (hq & Hq). exists hq. apply List.in_app_iff. now left.
      - intros q hq Hq. apply List.in_app_iff.
        destruct (Hacc q hq Hq) as [[] | Hq']. now left. }
    cbn [Cache.traced Cache.local_add_direct] in Hrun.
    unfold try_catch in Hrun. rewrite run_recording in Hrun.
    cbn [fst snd] in Hrun.
    destruct (Cache.local_add_direct C direct_hash _ w1) as [[[] | e | ] w2];
      cbn [fst snd] in Hrun;
      [| destruct e as [what | what | ]; cbn in Hrun;
         [rewrite run_recording in Hrun; cbn [fst snd] in Hrun | ..] |];
      inversion Hrun; subst; clear Hrun;
      try rewrite <- app_assoc; (split;
      [ intros d m res Hin; trace_split Hin;
        inversion Hin; subst; cbn [Cache.hash Cache.files_with_hashes];
        repeat split; apply Hstored
      | intros p what' Hin; exfalso; trace_split Hin ]).
  - (* hashing a file threw *)
    destruct Hr as (pre & q & -> & Hpre).
    assert (Hnew : forall ev, In ev pre ->
              exists p hp, ev = Cache.HashFile p (Normal hp))
      by (apply List.Forall_forall; exact Hpre).
    destruct e as [what | what | ]; cbn in Hrun;
      [rewrite run_recording in Hrun; cbn [fst snd] in Hrun | ..];
      inversion Hrun; subst; clear Hrun;
      (split; [intros d m res Hin; exfalso; trace_split Hin |]);
      intros p what' Hin; trace_split Hin.
    inversion Hin; subst; clear Hin. split.
    + intros d m res Hin. trace_split Hin.
    + eexists. split; [find_event | reflexivity].
  - (* hashing a file ended the process *)
    destruct Hr as (pre & q & -> & Hpre).
    assert (Hnew : forall ev, In ev pre ->
              exists p hp, ev = Cache.HashFile p (Normal hp))
      by (apply List.Forall_forall; exact Hpre).
    inversion Hrun; subst; clear Hrun; split.
    + intros d m res Hin. exfalso. trace_split Hin.
    + intros p what' Hin. exfalso. trace_split Hin.
Qed.

(** ** Direct mode entries in the reference world *)

Section DirectRoundTrip.

Import Cache Reference.

Variable digest : string -> string.
Variable dir_part : string -> string.
Variable cfg : config_t.

Local Abbreviation R := (reference digest dir_part cfg).

(** With every implicit input file on disk, the loop of [add_direct] leaves
    the world as it is, and every hash of the table is that of the file as
    it is on disk. *)
Lemma hash_implicit_inputs_reference paths acc (w : world) :
  Forall (fun p => is_Some (files w !! p)) paths ->
  Forall (fun item => still_hashes_to digest (files w) item = true) acc ->
  exists acc',
    hash_implicit_inputs R paths acc w = (Normal acc', w)
    /\ Forall (fun item => still_hashes_to digest (files w) item = true) acc'.
Proof.
  revert acc. induction paths as [| p rest IH]; intros acc Hpaths Hacc.
  - exists acc. split; [reflexivity | exact Hacc].
  - inversion Hpaths as [| ? ? [bytes Hp] Hrest]; subst.
    destruct (IH (map_insert p (digest bytes) acc) Hrest) as (acc' & Hrun & Hok).
    { apply map_insert_Forall; [exact Hacc |].
      unfold still_hashes_to. simpl. rewrite Hp. apply String.eqb_refl. }
    exists acc'. split; [| exact Hok].
    simpl. unfold bind. simpl. unfold ref_hash_file. rewrite Hp. exact Hrun.
Qed.

(** The loop stops at the first implicit input file that is not on disk. *)
Lemma hash_implicit_inputs_unreadable paths acc (w : world) :
  Exists (fun p => files w !! p = None) paths ->
  exists p,
    In p paths /\ files w !! p = None
    /\ hash_implicit_inputs R paths acc w
       = (Raise (runtime_error ("Unable to read file: " ++ p)), w).
Proof.
  revert acc. induction paths as [| p rest IH]; intros acc Hex.
  - inversion Hex.
  - simpl. unfold bind. simpl. unfold ref_hash_file.
    destruct (files w !! p) as [bytes |] eqn:Hp.
    + inversion Hex as [? ? Hnone | ? ? Hrest]; subst; [congruence |].
      destruct (IH (map_insert p (digest bytes) acc) Hrest)
        as (q & Hin & Hq & Hrun).
      exists q. auto.
    + exists p. auto.
Qed.

End DirectRoundTrip.

(** X3. In the reference world, a direct mode entry that was added is found
    again: when the cache directory can be written and every implicit input
    file is on disk, [add_direct] stores a manifest with the given
    preprocessor hash under the direct hash, and a [lookup_direct] of that
    direct hash counts a direct hit and goes on to the regular [lookup] of
    the preprocessor hash. When some implicit input file is not on disk,
    [add_direct] returns with the manifests as they were and the failure in
    the log. *)
Theorem direct_entry_round_trip
    (digest dir_part : string -> string) (cfg : Cache.config_t)
    (w : Reference.world) (direct_hash hash : string) (paths : list string) :
  let R := Reference.reference digest dir_part cfg in
  (Reference.local_writable w = true ->
   Forall (fun p => is_Some (Reference.files w !! p)) paths ->
   exists m,
     Cache.hash m = hash
     /\ Cache.add_direct R direct_hash hash paths w
        = (Normal tt,
           Reference.with_local_manifests
             (<[direct_hash := m]> (Reference.local_manifests w)) w)
     /\ forall x allow create rc0,
          let w1 := snd (Cache.add_direct R direct_hash hash paths w) in
          Cache.lookup_direct R direct_hash x allow create rc0 w1
          = Cache.lookup R hash x allow create rc0
              (Reference.with_stats
                 (Cache.add_stats (Reference.stats w1) Cache.direct_hit)
                 (Reference.with_log
                    (Reference.log w1
                       ++ [(INFO,
                            Reference.direct_hit_line direct_hash hash)])%list
                    w1)))
  /\ (Exists (fun p => Reference.files w !! p = None) paths ->
      exists p,
        In p paths /\ Reference.files w !! p = None
        /\ Cache.add_direct R direct_hash hash paths w
           = (Normal tt,
              Reference.with_log
                (Reference.log w
                   ++ [(ERROR,
                        ("Creation of direct mode entry " ++ direct_hash
                           ++ " failed: Unable to read file: " ++ p)%string)])%list
                w)).
Proof.
  intros R. split.
  - intros Hw Hpaths.
    destruct (hash_implicit_inputs_reference digest dir_part cfg paths [] w
                Hpaths (List.Forall_nil _)) as (acc & Hrun & Hok).
    exists {| Cache.hash := hash; Cache.files_with_hashes := acc |}.
    assert (Hadd : Cache.add_direct R direct_hash hash paths w
                   = (Normal tt,
                      Reference.with_local_manifests
                        (<[direct_hash :=
                             {| Cache.hash := hash;
                                Cache.files_with_hashes := acc |}]>
                           (Reference.local_manifests w)) w)).
    { unfold Cache.add_direct. rewrite try_catch_bind.
      subst R. rewrite Hrun. simpl.
      unfold try_catch, Reference.ref_local_add_direct. now rewrite Hw. }
    split; [reflexivity | split; [exact Hadd |]].
    intros x allow create rc0 w1. subst w1. rewrite Hadd. cbn [snd].
    apply (lookup_direct_match digest dir_part cfg direct_hash x allow create
             rc0 _ {| Cache.hash := hash; Cache.files_with_hashes := acc |}).
    + simpl. apply lookup_insert_eq.
    + simpl. apply forallb_forall. apply List.Forall_forall. exact Hok.
  - intros Hex.
    destruct (hash_implicit_inputs_unreadable digest dir_part cfg paths [] w
                Hex) as (p & Hin & Hp & Hrun).
    exists p. split; [exact Hin | split; [exact Hp |]].
    unfold Cache.add_direct. rewrite try_catch_bind.
    subst R. rewrite Hrun. reflexivity.
Qed.

(** ** Local hits in the reference world *)

Section LocalHit.

Import Cache Reference.

Variable digest : string -> string.
Variable dir_part : string -> string.
Variable cfg : config_t.

Local Abbreviation R := (reference digest dir_part cfg).

(** The retrieval of the files of a local entry: each listed file is written
    to its target path, and a line is logged for each. *)
Lemma retrieve_local_files_succeeds hash x allow create e se ids (w : world) :
  local_entries w !! hash = Some se ->
  retrievable x (payload se) ids = true ->
  exists l,
    retrieve_local_files R hash x allow create e ids w
    = (Normal tt,
       with_log (log w ++ l)%list
         (with_files (materialized_files x (payload se) ids (files w)) w)).
Proof.
  revert w. induction ids as [| file_id rest IH]; intros w Hse Hr.
  - exists []. simpl. unfold ret. rewrite app_nil_r. now destruct w.
  - simpl in Hr. apply andb_true_iff in Hr. destruct Hr as [Hid Hrest].
    apply andb_true_iff in Hid. destruct Hid as [Hexp Hst].
    unfold unexpected in Hexp. simpl.
    destruct (map_find file_id x) as [f|]; [| discriminate].
    destruct (payload se !! file_id) as [bytes|] eqn:Hb; [| discriminate].
    unfold bind at 1. simpl.
    assert (Hstep : forall w0,
      local_entries w0 !! hash = Some se ->
      ((if create
        then ref_create_dir_with_parents (dir_part (path f))
        else ret tt) ;;;
       ref_local_get_file hash file_id (path f)
         (comp_mode_eqb (compression_mode e) ALL) allow ;;;
       retrieve_local_files R hash x allow create e rest) w0
      = retrieve_local_files R hash x allow create e rest
          (with_files (<[path f := bytes]> (files w0)) w0)).
    { intros w0 Hse0.
      destruct create; unfold bind at 1; simpl; unfold bind at 1;
        unfold ref_local_get_file, get_file_from; rewrite Hse0, Hb;
        reflexivity. }
    rewrite Hstep by assumption.
    match goal with
    | |- context [retrieve_local_files _ _ _ _ _ _ rest ?w1] =>
        destruct (IH w1) as (l & Hl); [assumption .. |]
    end.
    rewrite Hl. eexists. simpl. rewrite <- app_assoc. reflexivity.
Qed.

(** An entry whose files can be retrieved is not corrupted. *)
Lemma retrievable_intact x se :
  retrievable x (payload se) (file_ids (meta se)) = true -> intact se = true.
Proof.
  unfold retrievable, intact. rewrite !forallb_forall.
  intros H file_id Hin. specialize (H file_id Hin).
  apply andb_true_iff in H. tauto.
Qed.

(** A local entry whose files can be retrieved is a hit of
    [lookup_in_local_cache], which the local cache counts. *)
Lemma lookup_in_local_cache_hit hash x allow create rc0 (w : world) se :
  local_entries w !! hash = Some se ->
  retrievable x (payload se) (file_ids (meta se)) = true ->
  exists l,
    lookup_in_local_cache R hash x allow create rc0 w
    = (Normal (true, return_code (meta se)),
       with_err (err w ++ std_err (meta se))
         (with_out (out w ++ std_out (meta se))
            (with_log (log w ++ l)%list
               (with_files
                  (materialized_files x (payload se) (file_ids (meta se))
                     (files w))
                  (with_stats (add_stats (stats w) local_hit) w))))).
Proof.
  intros Hse Hr.
  destruct (retrieve_local_files_succeeds hash x allow create (meta se) se
              (file_ids (meta se))
              (with_stats (add_stats (stats w) local_hit) w) Hse Hr)
    as (l & Hl).
  exists l. rewrite lookup_in_local_cache_eq.
  unfold bind at 1. simpl. unfold ref_local_lookup.
  rewrite Hse, (retrievable_intact _ _ Hr).
  unfold bind at 1. rewrite Hl. reflexivity.
Qed.

Lemma lookup_local_hit hash x allow create rc0 (w : world) se :
  local_entries w !! hash = Some se ->
  retrievable x (payload se) (file_ids (meta se)) = true ->
  exists l,
    lookup R hash x allow create rc0 w
    = (Normal (true, return_code (meta se)),
       with_err (err w ++ std_err (meta se))
         (with_out (out w ++ std_out (meta se))
            (with_log (log w ++ l)%list
               (with_files
                  (materialized_files x (payload se) (file_ids (meta se))
                     (files w))
                  (with_stats (add_stats (stats w) local_hit) w))))).
Proof.
  intros Hse Hr.
  destruct (lookup_in_local_cache_hit hash x allow create rc0 w se Hse Hr)
    as (l & Hl).
  exists l. rewrite lookup_eq. unfold noexcept, bind.
  rewrite local_attempt_eq. unfold try_catch. rewrite Hl. reflexivity.
Qed.

(** A path that holds the bytes it has in [orig] keeps holding them while
    files whose stored bytes are those of [orig] are written. *)
Lemma materialized_files_settled x stored ids
    (orig fs : gmap string string) q :
  (forall file_id f,
     In file_id ids -> map_find file_id x = Some f ->
     stored !! file_id = orig !! path f) ->
  fs !! q = orig !! q ->
  materialized_files x stored ids fs !! q = orig !! q.
Proof.
  revert fs. induction ids as [| file_id rest IH]; intros fs Hget Hq.
  - exact Hq.
  - simpl. destruct (map_find file_id x) as [f |] eqn:Hf; [| exact Hq].
    destruct (stored !! file_id) as [bytes |] eqn:Hb; [| exact Hq].
    apply IH.
    + intros i g Hin Hg. apply Hget; [now right | exact Hg].
    + destruct (decide (q = path f)) as [-> | Hne].
      * rewrite lookup_insert_eq, <- Hb. apply Hget; [now left | exact Hf].
      * now rewrite lookup_insert_ne by congruence.
Qed.

(** After the files were written, each target path holds the bytes of
    [orig]. *)
Lemma materialized_files_restores x stored ids
    (orig fs : gmap string string) :
  retrievable x stored ids = true ->
  (forall file_id f,
     In file_id ids -> map_find file_id x = Some f ->
     stored !! file_id = orig !! path f) ->
  forall file_id f,
    In file_id ids -> map_find file_id x = Some f ->
    materialized_files x stored ids fs !! path f = orig !! path f.
Proof.
  revert fs. induction ids as [| i rest IH]; intros fs Hr Hget file_id f Hin Hf.
  - destruct Hin.
  - simpl in Hr. apply andb_true_iff in Hr. destruct Hr as [Hid Hrest].
    apply andb_true_iff in Hid. destruct Hid as [Hexp Hst].
    unfold unexpected in Hexp. simpl.
    destruct (map_find i x) as [g |] eqn:Hg; [| discriminate].
    destruct (stored !! i) as [bytes |] eqn:Hb; [| discriminate].
    assert (Hrestget : forall j h,
              In j rest -> map_find j x = Some h ->
              stored !! j = orig !! path h)
      by (intros j h Hj Hh; apply Hget; [now right | exact Hh]).
    destruct Hin as [-> | Hin].
    + assert (g = f) by congruence. subst g.
      apply materialized_files_settled; [exact Hrestget |].
      rewrite lookup_insert_eq, <- Hb. apply Hget; [now left | exact Hf].
    + exact (IH _ Hrest Hrestget file_id f Hin Hf).
Qed.

(** With every listed file on disk, the payload of the stored entry holds,
    for each file id, the bytes at its target path. *)
Lemma collect_payload_on_disk fs x ids :
  Forall (fun file_id =>
            exists f, map_find file_id x = Some f /\ is_Some (fs !! path f))
    ids ->
  exists p,
    collect_payload fs x ids = Some p
    /\ retrievable x p ids = true
    /\ forall file_id f,
         In file_id ids -> map_find file_id x = Some f ->
         p !! file_id = fs !! path f.
Proof.
  induction ids as [| file_id rest IH]; intros Hall.
  - exists ∅. repeat split; intros ? ? [].
  - inversion Hall as [| ? ? (f & Hf & bytes & Hb) Hrest]; subst.
    destruct (IH Hrest) as (p & Hp & Hr & Hget).
    assert (Hnew : forall i g,
              In i (file_id :: rest) -> map_find i x = Some g ->
              <[file_id := bytes]> p !! i = fs !! path g).
    { intros i g Hin Hg.
      destruct (decide (i = file_id)) as [-> | Hne].
      - rewrite lookup_insert_eq. congruence.
      - rewrite lookup_insert_ne by congruence.
        destruct Hin as [Heq | Hin]; [congruence |]. now apply Hget. }
    exists (<[file_id := bytes]> p). split; [| split; [| exact Hnew]].
    + simpl. rewrite Hf, Hb, Hp. reflexivity.
    + apply forallb_forall. intros i Hin.
      inversion Hall as [| ? ? _ _]; subst.
      destruct (proj1 (List.Forall_forall _ _) Hall i Hin)
        as (g & Hg & b & Hgb).
      unfold unexpected. rewrite Hg. simpl.
      rewrite (Hnew i g Hin Hg), Hgb. reflexivity.
Qed.

(** In the reference world the remote half of [add] returns: what the
    remote cache throws is a std::runtime_error, which is caught. *)
Lemma remote_insert_returns hash entry x size (w : world) :
  fst (remote_insert R hash entry x size w) = Normal tt.
Proof.
  unfold remote_insert, bind. simpl.
  destruct (remote_connected w && negb (read_only_remote cfg)) eqn:Hc;
    [| reflexivity].
  destruct (fits size (max_remote_entry_size cfg)); [| reflexivity].
  unfold try_catch, ref_remote_add.
  destruct (remote_connected w); [| reflexivity].
  destruct (collect_payload (files w) x (file_ids (remote_entry_of entry)));
    reflexivity.
Qed.

End LocalHit.

(** X4. In the reference world, a local hit stays local: when the local
    cache holds an entry under the hash and every file the entry lists is
    expected and stored, [lookup] writes each listed file to its target path,
    emits the captured stdout and stderr, and returns a hit with the return
    code of the entry, without connecting to the remote cache and with the
    two stores left as they were. Of the statistics, the local-hit counter
    is incremented by one, by the local cache itself, and nothing else
    changes. *)
Theorem local_hit_stays_local
    (digest dir_part : string -> string) (cfg : Cache.config_t)
    (w : Reference.world) (hash : string)
    (x : string_map Cache.expected_file_t) (allow create : bool) (rc0 : Z)
    (se : Reference.stored_entry) :
  let R := Reference.reference digest dir_part cfg in
  let e := Reference.meta se in
  Reference.local_entries w !! hash = Some se ->
  Reference.retrievable x (Reference.payload se) (Cache.file_ids e) = true ->
  exists w',
    Cache.lookup R hash x allow create rc0 w
    = (Normal (true, Cache.return_code e), w')
    /\ Reference.files w'
       = Reference.materialized_files x (Reference.payload se)
           (Cache.file_ids e) (Reference.files w)
    /\ Reference.out w' = Reference.out w ++ Cache.std_out e
    /\ Reference.err w' = Reference.err w ++ Cache.std_err e
    /\ Reference.same_stores w w'
    /\ Reference.stats w'
       = Cache.add_stats (Reference.stats w) Cache.local_hit.
Proof.
  intros R e Hse Hr.
  destruct (lookup_local_hit digest dir_part cfg hash x allow create rc0 w se
              Hse Hr) as (l & Hl).
  eexists. split; [exact Hl |]. unfold Reference.same_stores. simpl.
  repeat split.
Qed.

(** X5. In the reference world, what [add] stored a later [lookup]
    restores: when the entry is small enough for the local cache, the cache
    directory can be written and every file the entry lists is expected and
    on disk, [add] returns, and from then on, whatever has become of the
    file system, [lookup] of the same hash is a hit that returns the return
    code of the entry, emits its stdout and stderr, and leaves at each
    target path the bytes that were there when the entry was added. *)
Theorem added_entry_is_restored
    (digest dir_part : string -> string) (cfg : Cache.config_t)
    (w : Reference.world) (hash : string) (entry : Cache.cache_entry_t)
    (x : string_map Cache.expected_file_t) (allow : bool) (S : Z) :
  let R := Reference.reference digest dir_part cfg in
  Cache.spec_total_size (Reference.sizes_on (Reference.files w)) entry x
    = Some S ->
  S <= max_int64 ->
  Cache.fits S (Cache.max_local_entry_size cfg) = true ->
  Reference.local_writable w = true ->
  Forall (fun file_id =>
            exists f,
              map_find file_id x = Some f
              /\ is_Some (Reference.files w !! Cache.path f))
    (Cache.file_ids entry) ->
  exists w1,
    Cache.add R hash entry x allow w = (Normal tt, w1)
    /\ forall fs allow' create rc0,
       exists w2,
         Cache.lookup R hash x allow' create rc0 (Reference.with_files fs w1)
         = (Normal (true, Cache.return_code entry), w2)
         /\ (forall file_id f,
               In file_id (Cache.file_ids entry) ->
               map_find file_id x = Some f ->
               Reference.files w2 !! Cache.path f
               = Reference.files w !! Cache.path f)
         /\ Reference.out w2 = Reference.out w1 ++ Cache.std_out entry
         /\ Reference.err w2 = Reference.err w1 ++ Cache.std_err entry.
Proof.
  intros R HS Hmax Hfits Hw Hall.
  destruct (collect_payload_on_disk (Reference.files w) x
              (Cache.file_ids entry) Hall) as (p & Hp & Hr & Hget).
  pose proof (add_inserting digest dir_part cfg hash entry x allow w S p HS
                Hmax Hfits Hw Hp) as Hadd.
  fold R in Hadd.
  set (w0 := Reference.with_local_entries _ w) in Hadd.
  pose proof (remote_insert_returns digest dir_part cfg hash entry x S w0)
    as Hret.
  destruct (remote_insert_frame digest dir_part cfg hash entry x S w0)
    as (Hle & _ & _ & _ & _).
  fold R in Hret, Hle.
  destruct (Cache.remote_insert R hash entry x S w0) as [r w1] eqn:Hrun.
  simpl in Hret, Hle. subst r.
  exists w1. split; [exact Hadd |].
  intros fs allow' create rc0.
  set (se := {| Reference.meta := entry; Reference.payload := p |}).
  assert (Hse : Reference.local_entries (Reference.with_files fs w1) !! hash
                = Some se).
  { simpl. rewrite Hle. subst w0. simpl. apply lookup_insert_eq. }
  destruct (lookup_local_hit digest dir_part cfg hash x allow' create rc0
              (Reference.with_files fs w1) se Hse Hr) as (l & Hl).
  eexists. split; [exact Hl |]. simpl. repeat split.
  intros file_id f Hin Hf.
  exact (materialized_files_restores x p (Cache.file_ids entry)
           (Reference.files w) fs Hr Hget file_id f Hin Hf).
Qed.

(** ** The calls of a local lookup *)

Section LocalTrace.

Import Cache CacheCalls.
Context {W : Type} (C : collaborators W).

(** The calls of the loop over the files of a local entry, when the loop
    returns: each listed file id is expected, and the calls are those of
    [local_retrieval_calls], each of which returned. *)
Lemma retrieve_local_files_calls hash x allow create e ids s s' :
  retrieve_local_files (traced C) hash x allow create e ids s
    = (Normal tt, s') ->
  snd s'
  = (snd s
     ++ local_retrieval_calls (get_dir_part C) hash x allow create e ids)%list
  /\ Forall (fun file_id => map_find file_id x <> None) ids.
Proof.
  revert s. induction ids as [| file_id rest IH]; intros s Hrun;
    simpl in Hrun.
  - inversion Hrun; subst. simpl. rewrite app_nil_r. auto.
  - simpl. destruct (map_find file_id x) as [f |] eqn:Hf; [| discriminate].
    rewrite bind_recording in Hrun.
    destruct (debug_log C INFO _ (fst s)) as [[[] | e0 | ] w1];
      try discriminate.
    destruct create; cbn [create_dir_with_parents traced get_dir_part] in Hrun.
    + rewrite bind_recording in Hrun; cbn [fst snd] in Hrun.
      destruct (create_dir_with_parents C _ w1) as [[[] | e0 | ] w2];
        try discriminate.
      cbn [local_get_file] in Hrun.
      rewrite bind_recording in Hrun; cbn [fst snd] in Hrun.
      destruct (local_get_file C hash file_id _ _ allow w2)
        as [[[] | e0 | ] w3]; try discriminate.
      destruct (IH _ Hrun) as (Hnew & Hall).
      rewrite Hnew. cbn [snd]. rewrite <- !app_assoc. simpl.
      split; [reflexivity | constructor; [congruence | exact Hall]].
    + unfold bind at 1 in Hrun. cbn [ret] in Hrun.
      cbn [local_get_file] in Hrun.
      rewrite bind_recording in Hrun; cbn [fst snd] in Hrun.
      destruct (local_get_file C hash file_id _ _ allow w1)
        as [[[] | e0 | ] w3]; try discriminate.
      destruct (IH _ Hrun) as (Hnew & Hall).
      rewrite Hnew. cbn [snd]. rewrite <- !app_assoc. simpl.
      split; [reflexivity | constructor; [congruence | exact Hall]].
Qed.

Lemma local_retrieval_calls_are_local dir_part hash x allow create e ids :
  Forall local_retrieval
    (local_retrieval_calls dir_part hash x allow create e ids).
Proof.
  induction ids as [| file_id rest IH]; simpl; [constructor |].
  destruct (map_find file_id x) as [f |]; [| constructor].
  constructor; [exact I |].
  apply Forall_app. split; [destruct create; repeat constructor |].
  constructor; [exact I | exact IH].
Qed.

End LocalTrace.

Section LookupTrace.

Import Cache CacheCalls.
Context {W : Type} (C : collaborators W).

(** A hit of [lookup_in_local_cache], call by call. *)
Lemma lookup_in_local_cache_hit_trace hash x allow create rc0 s rc s' :
  lookup_in_local_cache (traced C) hash x allow create rc0 s
    = (Normal (true, rc), s') ->
  exists e,
    snd s'
    = (snd s
       ++ LocalLookup hash (Normal (Some e))
          :: local_retrieval_calls (get_dir_part C) hash x allow create e
               (file_ids e)
          ++ [PrintRawStdout (std_out e) (Normal tt);
              PrintRawStderr (std_err e) (Normal tt)])%list
    /\ rc = return_code e
    /\ Forall (fun file_id => map_find file_id x <> None) (file_ids e).
Proof.
  rewrite lookup_in_local_cache_eq. cbn [traced local_lookup].
  rewrite bind_recording. intros Hrun.
  destruct (local_lookup C hash (fst s)) as [[[e |] | e0 | ] w1];
    try discriminate.
  unfold bind at 1 in Hrun.
  match type of Hrun with
  | context [retrieve_local_files ?c ?h ?x ?a ?cr ?e ?ids ?s0] =>
      destruct (retrieve_local_files c h x a cr e ids s0)
        as [[[] | e0 | ] s1] eqn:Hloop; try discriminate
  end.
  apply retrieve_local_files_calls in Hloop.
  destruct Hloop as (Hnew & Hall). cbn [snd] in Hnew.
  cbn [traced print_raw_stdout print_raw_stderr] in Hrun.
  rewrite bind_recording in Hrun.
  destruct (print_raw_stdout C (std_out e) (fst s1)) as [[[] | e0 | ] w2];
    try discriminate.
  rewrite bind_recording in Hrun. cbn [fst snd] in Hrun.
  destruct (print_raw_stderr C (std_err e) w2) as [[[] | e0 | ] w3];
    try discriminate.
  inversion Hrun; subst. exists e. cbn [snd]. rewrite Hnew.
  split; [| auto].
  rewrite <- !app_assoc. reflexivity.
Qed.

(** [remote_attempt] begins by connecting. *)
Lemma remote_attempt_connects hash x allow create rc0 s r s' :
  remote_attempt (traced C) hash x allow create rc0 s = (r, s') ->
  exists res new,
    snd s' = (snd s ++ RemoteConnect res :: new)%list.
Proof.
  rewrite remote_attempt_eq.
  rewrite (try_catch_ext _ _ _ _
             (lookup_in_remote_cache_eq (traced C) hash x allow create rc0 s)).
  generalize (snd (snd (lookup_in_remote_cache_ref (traced C) hash x allow
                          create (s, rc0)))).
  intros rc1.
  cbn [traced remote_connect]. rewrite try_catch_bind_recording.
  destruct (remote_connect C (fst s)) as [[connected | e | ] w1].
  - intros Hrun.
    match type of Hrun with
    | try_catch ?body ?h ?s0 = _ =>
        assert (Ha : appends (fun _ : event => True) (try_catch body h))
    end.
    { apply appends_try_catch.
      - destruct (negb connected); [apply appends_ret |].
        apply appends_bind; [apply appends_recording; auto | intros [e |]].
        + apply appends_bind; [apply retrieve_remote_files_appends; auto |].
          intros _. apply appends_bind; [apply appends_recording; auto |].
          intros _. apply appends_bind; [apply appends_recording; auto |].
          intros _. apply appends_bind; [| intros; apply appends_ret].
          apply promote_appends; auto.
        + apply appends_bind; [apply appends_recording; auto |].
          intros; apply appends_ret.
      - apply appends_catch_runtime_error. intros what.
        apply appends_bind; [apply appends_recording; auto |].
        intros; apply appends_ret. }
    specialize (Ha (w1, (snd s ++ [RemoteConnect (Normal connected)])%list)).
    rewrite Hrun in Ha. destruct Ha as (new & Hnew & _). cbn [snd] in Hnew.
    exists (Normal connected), new. rewrite Hnew, <- app_assoc. reflexivity.
  - destruct e as [what | what | ]; cbn [catch_runtime_error].
    + cbn [traced debug_log]. rewrite bind_recording.
      destruct (debug_log C ERROR _ _) as [[[] | e | ] w2];
        intros Hrun; inversion Hrun; subst; cbn [fst snd];
        do 2 eexists; rewrite <- app_assoc; reflexivity.
    + intros Hrun; inversion Hrun; subst. cbn [snd].
      exists (Raise (std_exception what)), []. reflexivity.
    + intros Hrun; inversion Hrun; subst. cbn [snd].
      exists (Raise foreign_exception), []. reflexivity.
  - intros Hrun; inversion Hrun; subst. cbn [snd].
    exists Terminate, []. reflexivity.
Qed.

End LookupTrace.

(** X6. Whatever the local cache and the file system do, a hit of
    [lookup_in_local_cache] is made of exactly these calls, in this order,
    each of which returned: the lookup of the hash, which returned the
    entry; for each file id the entry lists, a log line that names the hash,
    the file id and the target path, the creation of the directory of the
    target path if and only if the caller asked for it, and one fetch of that
    file to the path the caller expects it at, decompressed when the entry
    has compression mode ALL and with the caller's hard-link flag; then the
    captured stdout and the captured stderr. Every file id the entry lists is
    one the caller expects, and the return code is that of the entry. *)
Theorem local_hit_fetches_each_listed_file
    {W : Type} (C : Cache.collaborators W) (hash : string)
    (x : string_map Cache.expected_file_t) (allow create : bool)
    (rc0 rc : Z) (w w' : W) (tr : list Cache.event) :
  Cache.lookup_in_local_cache (Cache.traced C) hash x allow create rc0
    (w, []) = (Normal (true, rc), (w', tr)) ->
  exists e,
    tr = (Cache.LocalLookup hash (Normal (Some e))
          :: CacheCalls.local_retrieval_calls (Cache.get_dir_part C) hash x
               allow create e (Cache.file_ids e)
          ++ [Cache.PrintRawStdout (Cache.std_out e) (Normal tt);
              Cache.PrintRawStderr (Cache.std_err e) (Normal tt)])%list
    /\ rc = Cache.return_code e
    /\ Forall (fun file_id => map_find file_id x <> None) (Cache.file_ids e).
Proof.
  intros Hrun. apply lookup_in_local_cache_hit_trace in Hrun.
  exact Hrun.
Qed.

(** X7. [lookup] turns to the remote cache only after the local cache
    missed: when [lookup_in_local_cache] returns a hit, [lookup] returns
    that hit and has made no other call, so none to the remote cache, none
    that adds to the local cache and none that updates the statistics; when
    [lookup_in_local_cache] returns a miss, [lookup] goes on to connect to
    the remote cache. *)
Theorem remote_cache_is_consulted_after_a_local_miss_only
    {W : Type} (C : Cache.collaborators W) (hash : string)
    (x : string_map Cache.expected_file_t) (allow create : bool)
    (rc0 rc : Z) (w : W) (s1 : W * list Cache.event) :
  (Cache.lookup_in_local_cache (Cache.traced C) hash x allow create rc0
     (w, []) = (Normal (true, rc), s1) ->
   Cache.lookup (Cache.traced C) hash x allow create rc0 (w, [])
   = (Normal (true, rc), s1)
   /\ Forall CacheCalls.local_retrieval (snd s1))
  /\ (Cache.lookup_in_local_cache (Cache.traced C) hash x allow create rc0
        (w, []) = (Normal (false, rc), s1) ->
      exists res new,
        snd (snd (Cache.lookup (Cache.traced C) hash x allow create rc0
                    (w, [])))
        = (snd s1 ++ Cache.RemoteConnect res :: new)%list).
Proof.
  split; intros Hlocal.
  - split.
    + rewrite lookup_eq. unfold noexcept, bind. rewrite local_attempt_eq.
      unfold try_catch. rewrite Hlocal. reflexivity.
    + apply lookup_in_local_cache_hit_trace in Hlocal.
      destruct Hlocal as (e & -> & _ & _). cbn [snd app].
      constructor; [exact I |]. apply Forall_app. split.
      * apply local_retrieval_calls_are_local.
      * repeat constructor.
  - rewrite lookup_eq. unfold noexcept, bind at 1. rewrite local_attempt_eq.
    unfold try_catch at 1. rewrite Hlocal.
    cbn [fst snd]. unfold bind.
    destruct (Cache.remote_attempt (Cache.traced C) hash x allow create rc s1)
      as [r2 s2] eqn:Hremote.
    apply remote_attempt_connects in Hremote.
    destruct Hremote as (res & new & Hs2).
    exists res, new. rewrite <- Hs2.
    destruct r2 as [[[] rc2] | e | ]; reflexivity.
Qed.

(** ** The calls of [add] *)

Section AddTrace.

Import Cache.
Context {W : Type} (C : collaborators W).

(** The size computation only asks for the sizes of files. *)
Lemma get_total_entry_size_trace entry x s r s' :
  get_total_entry_size (traced C) entry x s = (r, s') ->
  exists new,
    snd s' = (snd s ++ new)%list
    /\ forall ev, In ev new -> exists p res, ev = GetFileInfo p res.
Proof.
  intros Hrun. destruct s' as [w' tr].
  assert (Ha : appends (fun ev => exists p res, ev = GetFileInfo p res)
                 (get_total_entry_size (traced C) entry x))
    by (apply add_file_sizes_appends; eauto).
  destruct (appends_from_nil _ _ _ _ _ _ Ha Hrun) as (new & Htr & Hall).
  exists new. split; [exact Htr |]. apply List.Forall_forall. exact Hall.
Qed.

End AddTrace.

(** Finds an event in a trace, in a part whose shape is known or in a part
    it is known to be in. *)
Ltac pick_event :=
  match goal with
  | |- _ \/ _ => (left; pick_event) || (right; pick_event)
  | |- _ = _ => reflexivity
  | |- In _ _ => eassumption
  end.

Ltac event_found :=
  repeat (progress (simpl; repeat rewrite List.in_app_iff)); pick_event.

(** Ends a path of [add] whose run is over: every membership in the trace
    is split into its cases. *)
Ltac add_trace_end Hrun Hnew :=
  inversion Hrun; subst; clear Hrun;
  (split; [| split]);
  [ intros h e x' res Hin; trace_split Hin;
    inversion Hin; subst;
    repeat (split; [first [reflexivity | assumption | event_found] |]);
    do 2 eexists; (split; [reflexivity | assumption])
  | intros h e x' exn Hin; trace_split Hin;
    inversion Hin; subst;
    eexists; (split; [event_found | reflexivity])
  | intros h e x' a exn Hin; trace_split Hin;
    inversion Hin; subst;
    (split; [reflexivity |]);
    intros ev Hev; trace_split Hev; subst; try exact I;
    destruct (Hnew _ Hev) as (? & ? & ->); exact I ].

(** X8. Whatever the caches and the file system do, [add] sends an entry to
    the remote cache only when the remote cache said it is connected, the
    remote cache is not configured read-only and the total size passes the
    test against [max_remote_entry_size]; what it sends is the entry with
    compression mode ALL, under the same hash and with the same expected
    files. When the remote insert throws, whatever it throws, a warning is
    logged and [add] ends as that log call ends. When the local insert
    throws, nothing is asked of the remote cache. *)
Theorem remote_insert_is_gated
    {W : Type} (C : Cache.collaborators W) (hash : string)
    (entry : Cache.cache_entry_t) (x : string_map Cache.expected_file_t)
    (allow : bool) (w : W) (r : outcome unit) (w' : W)
    (tr : list Cache.event) :
  Cache.add (Cache.traced C) hash entry x allow (w, []) = (r, (w', tr)) ->
  (forall h e x' res,
     In (Cache.RemoteAdd h e x' res) tr ->
     h = hash /\ e = Cache.remote_entry_of entry /\ x' = x
     /\ In (Cache.RemoteIsConnected (Normal true)) tr
     /\ Cache.read_only_remote (Cache.config C) = false
     /\ exists size s1,
          Cache.get_total_entry_size (Cache.traced C) entry x (w, [])
          = (Normal size, s1)
          /\ Cache.fits size (Cache.max_remote_entry_size (Cache.config C))
             = true)
  /\ (forall h e x' exn,
        In (Cache.RemoteAdd h e x' (Raise exn)) tr ->
        exists res,
          In (Cache.DebugLog WARNING (Cache.remote_error_message exn) res) tr
          /\ r = res)
  /\ (forall h e x' a exn,
        In (Cache.LocalAdd h e x' a (Raise exn)) tr ->
        r = Raise exn
        /\ forall ev, In ev tr ->
             match ev with
             | Cache.RemoteIsConnected _ => False
             | Cache.RemoteAdd _ _ _ _ => False
             | _ => True
             end).
Proof.
  intros Hrun. unfold Cache.add in Hrun. unfold bind at 1 in Hrun.
  destruct (Cache.get_total_entry_size (Cache.traced C) entry x (w, []))
    as [[size | e0 | ] [w1 tr1]] eqn:Hsize.
  all: destruct (get_total_entry_size_trace C _ _ _ _ _ Hsize)
         as (new & Htr1 & Hnew).
  all: cbn [snd app] in Htr1; subst tr1.
  2, 3: solve [add_trace_end Hrun Hnew].
  unfold Cache.local_insert, Cache.remote_insert in Hrun.
  cbn [Cache.traced Cache.config Cache.local_add Cache.debug_log
         Cache.remote_is_connected Cache.remote_add] in Hrun.
  destruct (Cache.fits size (Cache.max_local_entry_size (Cache.config C)));
    rewrite bind_recording in Hrun; cbn [fst snd] in Hrun;
    match type of Hrun with
    | match ?op ?w0 with _ => _ end = _ =>
        destruct (op w0) as [[[] | e0 | ] w2]
    end;
    try solve [add_trace_end Hrun Hnew].
  all: rewrite bind_recording in Hrun; cbn [fst snd] in Hrun;
    destruct (Cache.remote_is_connected C w2) as [[[|] | e0 | ] w3];
    try solve [add_trace_end Hrun Hnew];
    destruct (Cache.read_only_remote (Cache.config C)) eqn:Hro;
    cbn [andb negb] in Hrun;
    try solve [add_trace_end Hrun Hnew];
    destruct (Cache.fits size (Cache.max_remote_entry_size (Cache.config C)))
      eqn:Hfits;
    [ unfold try_catch in Hrun; rewrite run_recording in Hrun;
      cbn [fst snd] in Hrun;
      destruct (Cache.remote_add C hash (Cache.remote_entry_of entry) x w3)
        as [[[] | exn | ] w4]; cbn [fst snd] in Hrun;
      [ | destruct exn as [what | what | ];
          cbn [or_else catch_std_exception catch_any] in Hrun;
          rewrite run_recording in Hrun; cbn [fst snd] in Hrun | ]
    | rewrite run_recording in Hrun; cbn [fst snd] in Hrun ];
    add_trace_end Hrun Hnew.
Qed.

(** ** The promotion of a remote hit *)

Section RemoteHitTrace.

Import Cache CacheCalls.
Context {W : Type} (C : collaborators W).

(** The events of the loop over the files of a remote entry. *)
Lemma retrieve_remote_files_trace hash x create e ids s r s' :
  retrieve_remote_files (traced C) hash x create e ids s = (r, s') ->
  exists new,
    snd s' = (snd s ++ new)%list
    /\ Forall (remote_fetch_event create) new.
Proof.
  revert s. induction ids as [| file_id rest IH]; intros s Hrun;
    simpl in Hrun.
  - inversion Hrun; subst. exists []. simpl. rewrite app_nil_r. auto.
  - simpl. destruct (map_find file_id x) as [f |].
    2: { inversion Hrun; subst. exists []. simpl. rewrite app_nil_r.
         auto. }
    rewrite bind_recording in Hrun.
    destruct (debug_log C INFO _ (fst s)) as [[[] | e0 | ] w1];
      [| inversion Hrun; subst; eexists; simpl;
         (split; [reflexivity | repeat constructor]) ..].
    destruct create; cbn [create_dir_with_parents traced] in Hrun.
    + rewrite bind_recording in Hrun; cbn [fst snd] in Hrun.
      destruct (create_dir_with_parents C _ w1) as [[[] | e0 | ] w2];
        [| inversion Hrun; subst; eexists; simpl; rewrite <- app_assoc;
           (split; [reflexivity | repeat constructor]) ..].
      cbn [remote_get_file] in Hrun.
      rewrite bind_recording in Hrun; cbn [fst snd] in Hrun.
      destruct (remote_get_file C hash file_id _ _ w2)
        as [[[] | e0 | ] w3];
        [| inversion Hrun; subst; eexists; simpl; rewrite <- !app_assoc;
           (split; [reflexivity | repeat constructor]) ..].
      destruct (IH _ Hrun) as (new & Hnew & Hall).
      eexists. rewrite Hnew. cbn [snd]. rewrite <- !app_assoc. simpl.
      split; [reflexivity | repeat constructor; assumption].
    + unfold bind at 1 in Hrun. cbn [ret] in Hrun.
      cbn [remote_get_file] in Hrun.
      rewrite bind_recording in Hrun; cbn [fst snd] in Hrun.
      destruct (remote_get_file C hash file_id _ _ w1)
        as [[[] | e0 | ] w3];
        [| inversion Hrun; subst; eexists; simpl; rewrite <- !app_assoc;
           (split; [reflexivity | repeat constructor]) ..].
      destruct (IH _ Hrun) as (new & Hnew & Hall).
      eexists. rewrite Hnew. cbn [snd]. rewrite <- !app_assoc. simpl.
      split; [reflexivity | repeat constructor; assumption].
Qed.

(** The calls of the loop over the files of a remote entry, when the loop
    returns. *)
Lemma retrieve_remote_files_calls hash x create e ids s s' :
  retrieve_remote_files (traced C) hash x create e ids s = (Normal tt, s') ->
  snd s'
  = (snd s
     ++ remote_retrieval_calls (get_dir_part C) hash x create e ids)%list
  /\ Forall (fun file_id => map_find file_id x <> None) ids.
Proof.
  revert s. induction ids as [| file_id rest IH]; intros s Hrun;
    simpl in Hrun.
  - inversion Hrun; subst. simpl. rewrite app_nil_r. auto.
  - simpl. destruct (map_find file_id x) as [f |] eqn:Hf; [| discriminate].
    rewrite bind_recording in Hrun.
    destruct (debug_log C INFO _ (fst s)) as [[[] | e0 | ] w1];
      try discriminate.
    destruct create; cbn [create_dir_with_parents traced get_dir_part] in Hrun.
    + rewrite bind_recording in Hrun; cbn [fst snd] in Hrun.
      destruct (create_dir_with_parents C _ w1) as [[[] | e0 | ] w2];
        try discriminate.
      cbn [remote_get_file] in Hrun.
      rewrite bind_recording in Hrun; cbn [fst snd] in Hrun.
      destruct (remote_get_file C hash file_id _ _ w2)
        as [[[] | e0 | ] w3]; try discriminate.
      destruct (IH _ Hrun) as (Hnew & Hall).
      rewrite Hnew. cbn [snd]. rewrite <- !app_assoc. simpl.
      split; [reflexivity | constructor; [congruence | exact Hall]].
    + unfold bind at 1 in Hrun. cbn [ret] in Hrun.
      cbn [remote_get_file] in Hrun.
      rewrite bind_recording in Hrun; cbn [fst snd] in Hrun.
      destruct (remote_get_file C hash file_id _ _ w1)
        as [[[] | e0 | ] w3]; try discriminate.
      destruct (IH _ Hrun) as (Hnew & Hall).
      rewrite Hnew. cbn [snd]. rewrite <- !app_assoc. simpl.
      split; [reflexivity | constructor; [congruence | exact Hall]].
Qed.

End RemoteHitTrace.

(** Ends a path of [promote] whose run is over. *)
Ltac promote_trace_end Hrun Hsizes :=
  inversion Hrun; subst; clear Hrun;
  eexists; (split; [cbn [snd]; rewrite <- ?app_assoc; reflexivity |]);
  (split; [| split]);
  [ intros h e' x' a res Hin; trace_split Hin;
    inversion Hin; subst;
    repeat (split; [reflexivity |]);
    intros what' [Hres | Hres]; inversion Hres; subst;
    (split;
     [ intros h' d res' Hst; trace_split Hst
     | eexists; (split; [event_found | reflexivity]) ])
  | intros h d res Hin; trace_split Hin;
    inversion Hin; subst;
    repeat (split; [reflexivity |]); event_found
  | intros ev Hin; trace_split Hin; subst; try exact I;
    destruct (Hsizes _ Hin) as (? & ? & ->); exact I ].

Section PromoteTrace.

Import Cache CacheCalls.
Context {W : Type} (C : collaborators W).

(** The last [try] block of [lookup_in_remote_cache], call by call. *)
Lemma promote_trace hash x allow e s r s' :
  promote (traced C) hash x allow e s = (r, s') ->
  exists new,
    snd s' = (snd s ++ new)%list
    /\ (forall h e' x' a res,
          In (LocalAdd h e' x' a res) new ->
          h = hash /\ e' = promoted_entry C e /\ x' = x /\ a = allow
          /\ forall what,
               res = Raise (runtime_error what)
               \/ res = Raise (std_exception what) ->
               (forall h' d res', ~ In (LocalUpdateStats h' d res') new)
               /\ exists logged,
                    In (DebugLog ERROR (promotion_error_message what) logged)
                      new
                    /\ r = logged)
    /\ (forall h d res,
          In (LocalUpdateStats h d res) new ->
          h = hash /\ d = remote_hit
          /\ In (LocalAdd hash (promoted_entry C e) x allow (Normal tt)) new)
    /\ (forall ev, In ev new ->
          match ev with
          | GetFileInfo _ _ | LocalAdd _ _ _ _ _ | LocalUpdateStats _ _ _
          | DebugLog _ _ _ => True
          | _ => False
          end).
Proof.
  intros Hrun. unfold promote in Hrun. rewrite try_catch_bind in Hrun.
  destruct (get_total_entry_size (traced C) e x s)
    as [[size | e0 | ] [w1 tr1]] eqn:Hsize;
    destruct (get_total_entry_size_trace C _ _ _ _ _ Hsize)
      as (sizes & Htr1 & Hsizes);
    cbn [snd] in Htr1; subst tr1; clear Hsize.
  - cbn [traced config local_add local_update_stats debug_log] in Hrun.
    destruct (fits size (max_local_entry_size (config C))).
    + rewrite try_catch_bind_recording in Hrun. cbn [fst snd] in Hrun.
      destruct (local_add C hash (promoted_entry (traced C) e) x allow w1)
        as [[[] | e0 | ] w2].
      * unfold try_catch in Hrun. rewrite run_recording in Hrun.
        cbn [fst snd] in Hrun.
        destruct (local_update_stats C hash remote_hit w2)
          as [[[] | e0 | ] w3]; cbn [fst snd] in Hrun;
          [ | destruct e0 as [what | what | ];
              cbn [catch_std_exception] in Hrun;
              [ rewrite run_recording in Hrun; cbn [fst snd] in Hrun
              | rewrite run_recording in Hrun; cbn [fst snd] in Hrun | ] | ];
          promote_trace_end Hrun Hsizes.
      * destruct e0 as [what | what | ]; cbn [catch_std_exception] in Hrun;
          [ rewrite run_recording in Hrun; cbn [fst snd] in Hrun
          | rewrite run_recording in Hrun; cbn [fst snd] in Hrun | ];
          promote_trace_end Hrun Hsizes.
      * promote_trace_end Hrun Hsizes.
    + unfold try_catch in Hrun. rewrite run_recording in Hrun.
      cbn [fst snd] in Hrun.
      destruct (debug_log C WARNING (too_large_message "local" size) w1)
        as [[[] | e0 | ] w2]; cbn [fst snd] in Hrun;
        [ | destruct e0 as [what | what | ];
            cbn [catch_std_exception] in Hrun;
            [ rewrite run_recording in Hrun; cbn [fst snd] in Hrun
            | rewrite run_recording in Hrun; cbn [fst snd] in Hrun | ] | ];
        promote_trace_end Hrun Hsizes.
  - destruct e0 as [what | what | ]; cbn [catch_std_exception] in Hrun;
      [ cbn [traced debug_log] in Hrun;
        rewrite run_recording in Hrun; cbn [fst snd] in Hrun
      | cbn [traced debug_log] in Hrun;
        rewrite run_recording in Hrun; cbn [fst snd] in Hrun | ];
      promote_trace_end Hrun Hsizes.
  - promote_trace_end Hrun Hsizes.
Qed.

End PromoteTrace.

(** Ends a path of [lookup_in_remote_cache] that is over before the
    promotion: the local cache was not asked to add anything, and no remote
    hit was counted. *)
Ltac remote_prefix_end Hrun :=
  inversion Hrun; subst; clear Hrun;
  (split;
   [ intros h e x' a res Hin; exfalso; trace_split Hin
   | intros h res Hin; exfalso; trace_split Hin ]).

(** X9. Whatever the caches and the file system do, the promotion of a
    remote hit to the local cache comes last in [lookup_in_remote_cache] and
    cannot undo the hit: the local cache is asked to add an entry only after
    the remote entry was found, its files retrieved and its output emitted;
    the entry added is the remote one with the compression mode taken from
    the configuration. When that insert throws an exception derived from
    std::exception, the remote-hit counter is not touched, the failure is
    logged at ERROR level, and the lookup still returns a hit with the
    return code of the entry (unless the log call itself does not return).
    The remote-hit counter is updated only after the insert returned. *)
Theorem failed_promotion_keeps_the_remote_hit
    {W : Type} (C : Cache.collaborators W) (hash : string)
    (x : string_map Cache.expected_file_t) (allow create : bool) (rc0 : Z)
    (w : W) (r : outcome (bool * Z)) (w' : W) (tr : list Cache.event) :
  Cache.lookup_in_remote_cache (Cache.traced C) hash x allow create rc0
    (w, []) = (r, (w', tr)) ->
  (forall h e x' a res,
     In (Cache.LocalAdd h e x' a res) tr ->
     exists entry,
       In (Cache.RemoteLookup hash (Normal (Some entry))) tr
       /\ In (Cache.PrintRawStderr (Cache.std_err entry) (Normal tt)) tr
       /\ h = hash /\ e = Cache.promoted_entry C entry /\ x' = x /\ a = allow
       /\ forall what,
            res = Raise (runtime_error what)
            \/ res = Raise (std_exception what) ->
            (forall h' d res', ~ In (Cache.LocalUpdateStats h' d res') tr)
            /\ exists logged,
                 In (Cache.DebugLog ERROR
                       (CacheCalls.promotion_error_message what) logged) tr
                 /\ r = CacheCalls.hit_unless logged
                          (Cache.return_code entry))
  /\ (forall h res,
        In (Cache.LocalUpdateStats h Cache.remote_hit res) tr ->
        exists e x' a, In (Cache.LocalAdd h e x' a (Normal tt)) tr).
Proof.
  intros Hrun. rewrite lookup_in_remote_cache_eq in Hrun.
  cbn [Cache.traced Cache.remote_connect Cache.remote_lookup
         Cache.local_update_stats Cache.print_raw_stdout
         Cache.print_raw_stderr] in Hrun.
  rewrite bind_recording in Hrun. cbn [fst snd app] in Hrun.
  destruct (Cache.remote_connect C w) as [[[|] | e0 | ] w1];
    cbn [negb] in Hrun; try solve [remote_prefix_end Hrun].
  rewrite bind_recording in Hrun. cbn [fst snd app] in Hrun.
  destruct (Cache.remote_lookup C hash w1) as [[[entry |] | e0 | ] w2];
    try solve [remote_prefix_end Hrun].
  2: { rewrite bind_recording in Hrun. cbn [fst snd app] in Hrun.
       destruct (Cache.local_update_stats C hash Cache.remote_miss w2)
         as [[[] | e0 | ] w3]; remote_prefix_end Hrun. }
  unfold bind at 1 in Hrun.
  match type of Hrun with
  | context [Cache.retrieve_remote_files ?c ?h ?x ?cr ?e ?ids ?s0] =>
      destruct (Cache.retrieve_remote_files c h x cr e ids s0)
        as [[[] | e0 | ] [w3 tr3]] eqn:Hloop
  end.
  all: apply retrieve_remote_files_trace in Hloop;
    destruct Hloop as (files & Htr3 & Hfiles0);
    cbn [snd] in Htr3; subst tr3.
  all: assert (Hfiles : forall ev, In ev files ->
                 CacheCalls.remote_fetch_event create ev)
         by (apply List.Forall_forall; exact Hfiles0); clear Hfiles0.
  2, 3: solve [remote_prefix_end Hrun].
  rewrite bind_recording in Hrun. cbn [fst snd] in Hrun.
  destruct (Cache.print_raw_stdout C (Cache.std_out entry) w3)
    as [[[] | e0 | ] w4]; try solve [remote_prefix_end Hrun].
  rewrite bind_recording in Hrun. cbn [fst snd] in Hrun.
  destruct (Cache.print_raw_stderr C (Cache.std_err entry) w4)
    as [[[] | e0 | ] w5]; try solve [remote_prefix_end Hrun].
  unfold bind in Hrun.
  match type of Hrun with
  | context [Cache.promote ?c ?h ?x ?a ?e ?s0] =>
      destruct (Cache.promote c h x a e s0) as [rp [wp trp]] eqn:Hp
  end.
  apply promote_trace in Hp.
  destruct Hp as (new & Htrp & Hadd & Hstats & Hkinds).
  cbn [snd] in Htrp. subst trp.
  assert (Hr : r = CacheCalls.hit_unless rp (Cache.return_code entry)
               /\ tr = (((([Cache.RemoteConnect (Normal true);
                            Cache.RemoteLookup hash (Normal (Some entry))]
                            ++ files)
                           ++ [Cache.PrintRawStdout (Cache.std_out entry)
                                 (Normal tt)])
                          ++ [Cache.PrintRawStderr (Cache.std_err entry)
                                (Normal tt)]) ++ new)%list).
  { destruct rp as [[] | e0 | ]; inversion Hrun; subst; split; reflexivity. }
  destruct Hr as [-> ->]. clear Hrun. split.
  - intros h e x' a res Hin. trace_split Hin.
    destruct (Hadd _ _ _ _ _ Hin) as (-> & -> & -> & -> & Hfail).
    exists entry. split; [event_found |]. split; [event_found |].
    repeat (split; [reflexivity |]).
    intros what Hres. destruct (Hfail what Hres) as (Hnone & logged & Hlog & ->).
    split.
    + intros h' d res' Hst. trace_split Hst. exact (Hnone _ _ _ Hst).
    + exists logged. split; [| reflexivity].
      repeat (rewrite List.in_app_iff). right. exact Hlog.
  - intros h res Hin. trace_split Hin.
    destruct (Hstats _ _ _ Hin) as (-> & _ & Hadded).
    do 3 eexists. repeat (rewrite List.in_app_iff). right. exact Hadded.
Qed.

(** ** The calls of a remote hit *)

(** X10. Whatever the caches and the file system do, a hit of
    [lookup_in_remote_cache] is made of exactly these calls, in this order:
    a connection attempt that returned true; the lookup of the hash, which
    returned the entry; for each file id the entry lists, a log line that
    names the hash, the file id and the target path, the creation of the
    directory of the target path if and only if the caller asked for it, and
    one fetch of that file to the path the caller expects it at,
    decompressed when the entry has compression mode ALL, each of which
    returned; the captured stdout and the captured stderr; and then only the
    calls of the promotion to the local cache. Every file id the entry lists
    is one the caller expects, and the return code is that of the entry. *)
Theorem remote_hit_fetches_each_listed_file
    {W : Type} (C : Cache.collaborators W) (hash : string)
    (x : string_map Cache.expected_file_t) (allow create : bool)
    (rc0 rc : Z) (w w' : W) (tr : list Cache.event) :
  Cache.lookup_in_remote_cache (Cache.traced C) hash x allow create rc0
    (w, []) = (Normal (true, rc), (w', tr)) ->
  exists e promotion,
    tr = (Cache.RemoteConnect (Normal true)
          :: Cache.RemoteLookup hash (Normal (Some e))
          :: CacheCalls.remote_retrieval_calls (Cache.get_dir_part C) hash x
               create e (Cache.file_ids e)
          ++ Cache.PrintRawStdout (Cache.std_out e) (Normal tt)
             :: Cache.PrintRawStderr (Cache.std_err e) (Normal tt)
             :: promotion)%list
    /\ rc = Cache.return_code e
    /\ Forall (fun file_id => map_find file_id x <> None) (Cache.file_ids e)
    /\ Forall CacheCalls.promotion_event promotion.
Proof.
  intros Hrun. rewrite lookup_in_remote_cache_eq in Hrun.
  cbn [Cache.traced Cache.remote_connect Cache.remote_lookup
         Cache.local_update_stats Cache.print_raw_stdout
         Cache.print_raw_stderr] in Hrun.
  rewrite bind_recording in Hrun. cbn [fst snd app] in Hrun.
  destruct (Cache.remote_connect C w) as [[[|] | e0 | ] w1];
    cbn [negb] in Hrun; try discriminate.
  rewrite bind_recording in Hrun. cbn [fst snd app] in Hrun.
  destruct (Cache.remote_lookup C hash w1) as [[[e |] | e0 | ] w2];
    try discriminate.
  2: { rewrite bind_recording in Hrun.
       destruct (Cache.local_update_stats C hash Cache.remote_miss _)
         as [[[] | e0 | ] w3]; discriminate. }
  unfold bind at 1 in Hrun.
  match type of Hrun with
  | context [Cache.retrieve_remote_files ?c ?h ?x ?cr ?e ?ids ?s0] =>
      destruct (Cache.retrieve_remote_files c h x cr e ids s0)
        as [[[] | e0 | ] [w3 tr3]] eqn:Hloop; try discriminate
  end.
  apply retrieve_remote_files_calls in Hloop.
  destruct Hloop as (Htr3 & Hall).
  cbn [snd] in Htr3. subst tr3.
  rewrite bind_recording in Hrun. cbn [fst snd] in Hrun.
  destruct (Cache.print_raw_stdout C (Cache.std_out e) w3)
    as [[[] | e0 | ] w4]; try discriminate.
  rewrite bind_recording in Hrun. cbn [fst snd] in Hrun.
  destruct (Cache.print_raw_stderr C (Cache.std_err e) w4)
    as [[[] | e0 | ] w5]; try discriminate.
  unfold bind in Hrun.
  match type of Hrun with
  | context [Cache.promote ?c ?h ?x ?a ?e ?s0] =>
      destruct (Cache.promote c h x a e s0) as [rp [wp trp]] eqn:Hp
  end.
  apply promote_trace in Hp.
  destruct Hp as (promotion & Htrp & _ & _ & Hkinds).
  cbn [snd] in Htrp. subst trp.
  destruct rp as [[] | e0 | ]; try discriminate.
  inversion Hrun; subst.
  exists e, promotion.
  split; [simpl; rewrite <- !app_assoc; reflexivity |].
  split; [reflexivity |]. split; [exact Hall |].
  apply List.Forall_forall. exact Hkinds.
Qed.

(** ** The size queries of [get_total_entry_size] *)

Section SizeQueries.

Import Cache CacheCalls.
Context {W : Type} (C : collaborators W).

(** The loop of [get_total_entry_size], call by call. *)
Lemma add_file_sizes_queries items total s r s' :
  add_file_sizes (traced C) items total s = (r, s') ->
  exists new,
    snd s' = (snd s ++ new)%list
    /\ Forall (fun ev => exists p res, ev = GetFileInfo p res) new
    /\ match r with
       | Normal _ => size_queries new = expected_paths items
       | Raise e =>
           exists done item rest,
             items = (done ++ item :: rest)%list
             /\ size_queries new = expected_paths (done ++ [item])%list
             /\ ((e = std_exception bare_exception_what
                  /\ required (snd item) = true)
                 \/ e = foreign_exception)
       | Terminate => True
       end.
Proof.
  revert total s. induction items as [| [k f] rest IH]; intros total s Hrun;
    simpl in Hrun.
  - inversion Hrun; subst. exists []. rewrite app_nil_r. auto.
  - unfold bind at 1 in Hrun.
    cbn [traced get_file_info_size] in Hrun.
    rewrite try_catch_bind_recording in Hrun. cbn [fst snd] in Hrun.
    assert (Hgo : forall total' w1 res,
              add_file_sizes (traced C) rest total'
                (w1, (snd s ++ [GetFileInfo (path f) res])%list) = (r, s') ->
              exists new,
                snd s' = (snd s ++ new)%list
                /\ Forall (fun ev => exists p res, ev = GetFileInfo p res) new
                /\ match r with
                   | Normal _ =>
                       size_queries new = expected_paths ((k, f) :: rest)
                   | Raise e =>
                       exists done item rest',
                         (k, f) :: rest = (done ++ item :: rest')%list
                         /\ size_queries new = expected_paths (done ++ [item])%list
                         /\ ((e = std_exception bare_exception_what
                              /\ required (snd item) = true)
                             \/ e = foreign_exception)
                   | Terminate => True
                   end).
    { intros total' w1 res Hrest.
      destruct (IH _ _ Hrest) as (new & Hnew & Hall & Hr).
      exists (GetFileInfo (path f) res :: new). cbn [snd] in Hnew.
      rewrite Hnew, <- app_assoc. split; [reflexivity |].
      split; [constructor; eauto |].
      destruct r as [size | e | ]; [| | exact I].
      - simpl. now rewrite Hr.
      - destruct Hr as (done & item & rest' & -> & Hq & He).
        exists ((k, f) :: done), item, rest'.
        split; [reflexivity |]. split; [| exact He].
        simpl. now rewrite Hq. }
    assert (Hstop : forall e,
              (e = std_exception bare_exception_what /\ required f = true)
              \/ e = foreign_exception ->
              forall res,
              exists done item rest',
                (k, f) :: rest = (done ++ item :: rest')%list
                /\ size_queries [GetFileInfo (path f) res]
                   = expected_paths (done ++ [item])%list
                /\ ((e = std_exception bare_exception_what
                     /\ required (snd item) = true)
                    \/ e = foreign_exception)).
    { intros e He res. exists [], (k, f), rest. auto. }
    destruct (get_file_info_size C (path f) (fst s)) as [[size | e | ] w1].
    + cbn [try_catch ret] in Hrun. eapply Hgo. exact Hrun.
    + destruct e as [what | what | ]; cbn [catch_std_exception] in Hrun.
      * destruct (required f) eqn:Hreq.
        -- inversion Hrun; subst. eexists. split; [reflexivity |].
           split; [repeat constructor; eauto |]. apply Hstop. auto.
        -- cbn [ret] in Hrun. eapply Hgo. exact Hrun.
      * destruct (required f) eqn:Hreq.
        -- inversion Hrun; subst. eexists. split; [reflexivity |].
           split; [repeat constructor; eauto |]. apply Hstop. auto.
        -- cbn [ret] in Hrun. eapply Hgo. exact Hrun.
      * inversion Hrun; subst. eexists. split; [reflexivity |].
        split; [repeat constructor; eauto |]. apply Hstop. auto.
    + inversion Hrun; subst. eexists. split; [reflexivity |].
      split; [repeat constructor; eauto | exact I].
Qed.

End SizeQueries.

(** X11. Whatever the file system does, [get_total_entry_size] asks for the
    size of each expected file once, in the order of the map, optional files
    included, and for nothing else. When it throws, it has stopped at the
    first file whose size could not be had, and what it throws is a bare
    std::exception for a required file (the exception that was caught is
    copied as its std::exception base, so the type and the text of the
    original are lost), or the thrown value itself when that is not derived
    from std::exception (then also for an optional file). *)
Theorem total_size_asks_each_expected_file_once
    {W : Type} (C : Cache.collaborators W) (entry : Cache.cache_entry_t)
    (x : string_map Cache.expected_file_t) (w : W) (r : outcome Z) (w' : W)
    (tr : list Cache.event) :
  Cache.get_total_entry_size (Cache.traced C) entry x (w, [])
  = (r, (w', tr)) ->
  Forall (fun ev => exists p res, ev = Cache.GetFileInfo p res) tr
  /\ (forall size,
        r = Normal size ->
        CacheCalls.size_queries tr = CacheCalls.expected_paths x)
  /\ (forall e,
        r = Raise e ->
        exists done item rest,
          x = (done ++ item :: rest)%list
          /\ CacheCalls.size_queries tr
             = CacheCalls.expected_paths (done ++ [item])%list
          /\ ((e = std_exception bare_exception_what
               /\ Cache.required (snd item) = true)
              \/ e = foreign_exception)).
Proof.
  intros Hrun. unfold Cache.get_total_entry_size in Hrun.
  apply add_file_sizes_queries in Hrun.
  destruct Hrun as (new & Htr & Hall & Hr). cbn [snd app] in Htr. subst tr.
  split; [exact Hall |]. split.
  - intros size ->. exact Hr.
  - intros e ->. exact Hr.
Qed.

(** ** Exceptions that [lookup] does not catch *)

(** X12. [lookup] and [lookup_direct] are [noexcept] and catch
    std::runtime_error only: any other exception thrown by the local lookup,
    by the remote lookup after a local miss, or by the lookup of the
    manifest, is not turned into a cache miss; it ends the process. *)
Theorem other_exceptions_end_the_process
    {W : Type} (C : Cache.collaborators W) (hash : string)
    (x : string_map Cache.expected_file_t) (allow create : bool) (rc0 : Z)
    (w : W) (e : exception) (w1 : W) :
  (forall what, e <> runtime_error what) ->
  (Cache.lookup_in_local_cache C hash x allow create rc0 w = (Raise e, w1) ->
   Cache.lookup C hash x allow create rc0 w = (Terminate, w1))
  /\ (forall w0 rc1,
        Cache.local_attempt C hash x allow create rc0 w0
          = (Normal (false, rc1), w) ->
        Cache.lookup_in_remote_cache C hash x allow create rc1 w
          = (Raise e, w1) ->
        Cache.lookup C hash x allow create rc0 w0 = (Terminate, w1))
  /\ (Cache.local_lookup_direct C hash w = (Raise e, w1) ->
      Cache.lookup_direct C hash x allow create rc0 w = (Terminate, w1)).
Proof.
  intros He.
  assert (Hh : forall A (k : string -> M W A), catch_runtime_error k e = None).
  { intros A k. destruct e as [what | what | ]; [| reflexivity ..].
    now destruct (He what). }
  split; [| split].
  - intros Hlocal.
    rewrite lookup_eq. unfold noexcept, bind. rewrite local_attempt_eq.
    unfold try_catch. rewrite Hlocal, Hh. reflexivity.
  - intros w0 rc1 Hlocal Hremote.
    rewrite lookup_eq. unfold noexcept, bind.
    rewrite Hlocal. cbn [fst snd]. rewrite remote_attempt_eq.
    unfold try_catch. rewrite Hremote, Hh. reflexivity.
  - intros Hdirect.
    rewrite lookup_direct_eq. unfold noexcept, bind, try_catch.
    rewrite Hdirect, Hh. reflexivity.
Qed.

(** ** The calls of a regular lookup and of a direct mode lookup *)

Section RegularLookup.

Import Cache CacheCalls.
Context {W : Type} (C : collaborators W).

Lemma retrieve_local_files_appends (P : event -> Prop) hash x allow create e
    ids :
  (forall l m r, P (DebugLog l m r)) ->
  (forall d r, P (CreateDirWithParents d r)) ->
  (forall i t c a r, P (LocalGetFile hash i t c a r)) ->
  appends P (retrieve_local_files (traced C) hash x allow create e ids).
Proof.
  intros H1 H2 H3.
  induction ids as [| file_id rest IH]; simpl.
  - apply appends_ret.
  - destruct (map_find file_id x) as [f|]; [| apply appends_throw].
    apply appends_bind; [apply appends_recording; auto | intros _].
    apply appends_bind.
    { destruct create; [apply appends_recording; auto | apply appends_ret]. }
    intros _. apply appends_bind; [apply appends_recording; auto | intros _].
    exact IH.
Qed.

Lemma retrieve_remote_files_regular hash x create e ids :
  appends (regular_lookup_event hash)
    (retrieve_remote_files (traced C) hash x create e ids).
Proof.
  induction ids as [| file_id rest IH]; simpl.
  - apply appends_ret.
  - destruct (map_find file_id x) as [f|]; [| apply appends_throw].
    apply appends_bind; [apply appends_recording; simpl; auto | intros _].
    apply appends_bind.
    { destruct create;
        [apply appends_recording; simpl; auto | apply appends_ret]. }
    intros _.
    apply appends_bind; [apply appends_recording; simpl; auto | intros _].
    exact IH.
Qed.

(** Every call of a regular lookup is one a regular lookup may make. *)
Lemma lookup_regular hash x allow create rc0 :
  appends (regular_lookup_event hash)
    (lookup (traced C) hash x allow create rc0).
Proof.
  intros s. rewrite lookup_eq. revert s.
  apply appends_noexcept. apply appends_bind.
  - intros s. rewrite local_attempt_eq. revert s. apply appends_try_catch.
    + intros s. rewrite lookup_in_local_cache_eq. revert s.
      apply appends_bind; [apply appends_recording; simpl; auto |].
      intros [e |]; [| apply appends_ret].
      apply appends_bind;
        [apply retrieve_local_files_appends; simpl; auto |].
      intros _.
      apply appends_bind; [apply appends_recording; simpl; auto |].
      intros _.
      apply appends_bind; [apply appends_recording; simpl; auto |].
      intros _. apply appends_ret.
    + apply appends_catch_runtime_error. intros what.
      apply appends_bind; [apply appends_recording; simpl; auto |].
      intros _. apply appends_ret.
  - intros [b rc1]. cbn [fst snd]. destruct b; [apply appends_ret |].
    apply appends_bind.
    2: { intros [b2 rc2]. cbn [fst snd]. destruct b2; apply appends_ret. }
    intros s. rewrite remote_attempt_eq.
    match goal with
    | |- context [snd (snd ?run)] =>
        match run with
        | lookup_in_remote_cache_ref _ _ _ _ _ _ => generalize (snd (snd run))
        end
    end.
    intros rc2. revert s. apply appends_try_catch.
    + intros s. rewrite lookup_in_remote_cache_eq. revert s.
      apply appends_bind; [apply appends_recording; simpl; auto |].
      intros connected. destruct (negb connected); [apply appends_ret |].
      apply appends_bind; [apply appends_recording; simpl; auto |].
      intros [e |].
      * apply appends_bind; [apply retrieve_remote_files_regular |].
        intros _.
        apply appends_bind; [apply appends_recording; simpl; auto |].
        intros _.
        apply appends_bind; [apply appends_recording; simpl; auto |].
        intros _. apply appends_bind; [| intros; apply appends_ret].
        apply promote_appends; simpl; auto.
      * apply appends_bind; [apply appends_recording; simpl; auto |].
        intros _. apply appends_ret.
    + apply appends_catch_runtime_error. intros what.
      apply appends_bind; [apply appends_recording; simpl; auto |].
      intros _. apply appends_ret.
Qed.

End RegularLookup.

(** Ends a path of the direct mode part of [lookup_direct] on which no
    hash is found: a direct miss is logged and counted, or the exception was
    not a std::runtime_error, or the process has ended. *)
Ltac direct_miss_end :=
  try (rewrite bind_recording; cbn [fst snd app];
       match goal with
       | |- match ?op ?w0 with _ => _ end = _ -> _ =>
           destruct (op w0) as [[[] | ? | ] ?]
       end);
  try (rewrite bind_recording; cbn [fst snd app];
       match goal with
       | |- match ?op ?w0 with _ => _ end = _ -> _ =>
           destruct (op w0) as [[[] | ? | ] ?]
       end);
  cbn [ret];
  let Hrun := fresh "Hrun" in
  let Hin := fresh "Hin" in
  intros Hrun; inversion Hrun; subst;
  eexists; cbn [snd]; rewrite <- ?app_assoc;
  (split; [reflexivity |]);
  (split; [intros ev Hin; trace_split Hin; subst; simpl; auto | exact I]).

Section DirectLookupTrace.

Import Cache CacheCalls.
Context {W : Type} (C : collaborators W).

(** The [try] block of [lookup_direct] with its [catch] clause, call by
    call: it yields a hash only after the manifest was found and the direct
    hit was logged and counted, and then no direct miss was counted. *)
Lemma direct_part_trace direct_hash s found s' :
  try_catch
    (manifest <- local_lookup_direct (traced C) direct_hash ;;
     match manifest with
     | None => throw (runtime_error "No matching direct mode entry found")
     | Some m =>
         debug_log (traced C) INFO
           ("Direct mode cache hit (" ++ direct_hash ++ "): " ++ hash m) ;;;
         local_update_stats (traced C) direct_hash direct_hit ;;;
         ret (Some (hash m))
     end)
    (catch_runtime_error
       (fun what =>
          debug_log (traced C) INFO
            ("Direct mode cache miss (" ++ direct_hash ++ "): " ++ what) ;;;
          local_update_stats (traced C) direct_hash direct_miss ;;;
          ret None)) s
  = (found, s') ->
  exists new,
    snd s' = (snd s ++ new)%list
    /\ (forall ev, In ev new -> direct_event direct_hash ev)
    /\ match found with
       | Normal (Some h) =>
           exists m,
             h = hash m
             /\ In (LocalLookupDirect direct_hash (Normal (Some m))) new
             /\ In (LocalUpdateStats direct_hash direct_hit (Normal tt)) new
             /\ forall res,
                  ~ In (LocalUpdateStats direct_hash direct_miss res) new
       | _ => True
       end.
Proof.
  cbn [traced local_lookup_direct debug_log local_update_stats].
  rewrite try_catch_bind_recording. cbn [fst snd app].
  destruct (local_lookup_direct C direct_hash (fst s))
    as [[[m |] | e0 | ] w1].
  - rewrite try_catch_bind_recording. cbn [fst snd app].
    destruct (debug_log C INFO _ w1) as [[[] | e1 | ] w2].
    + rewrite try_catch_bind_recording. cbn [fst snd app].
      destruct (local_update_stats C direct_hash direct_hit w2)
        as [[[] | e2 | ] w3].
      * cbn [try_catch ret]. intros Hrun. inversion Hrun; subst.
        eexists. cbn [snd]. rewrite <- !app_assoc.
        split; [reflexivity |]. split.
        -- intros ev Hin. trace_split Hin; subst; simpl; auto.
        -- exists m. split; [reflexivity |].
           split; [event_found | split; [event_found |]].
           intros res Hin. trace_split Hin.
      * destruct e2; cbn [catch_runtime_error]; direct_miss_end.
      * direct_miss_end.
    + destruct e1; cbn [catch_runtime_error]; direct_miss_end.
    + direct_miss_end.
  - cbn [try_catch throw catch_runtime_error]. direct_miss_end.
  - destruct e0; cbn [catch_runtime_error]; direct_miss_end.
  - direct_miss_end.
Qed.

End DirectLookupTrace.

(** X13. Whatever the caches do, [lookup_direct] makes a regular lookup
    only after the manifest was found and the direct hit was logged and
    counted, and the hash it then looks up in the two caches is the one the
    manifest records. Once a direct miss is counted, no regular lookup
    follows: [lookup_direct] returns false with the caller's return code
    (or the process ends, when counting the miss throws). *)
Theorem regular_lookup_follows_a_direct_hit
    {W : Type} (C : Cache.collaborators W) (direct_hash : string)
    (x : string_map Cache.expected_file_t) (allow create : bool) (rc0 : Z)
    (w : W) (r : outcome (bool * Z)) (w' : W) (tr : list Cache.event) :
  Cache.lookup_direct (Cache.traced C) direct_hash x allow create rc0 (w, [])
  = (r, (w', tr)) ->
  (forall ev,
     In ev tr ->
     CacheCalls.direct_event direct_hash ev
     \/ exists m,
          In (Cache.LocalLookupDirect direct_hash (Normal (Some m))) tr
          /\ In (Cache.LocalUpdateStats direct_hash Cache.direct_hit
                   (Normal tt)) tr
          /\ CacheCalls.regular_lookup_event (Cache.hash m) ev)
  /\ (forall res,
        In (Cache.LocalUpdateStats direct_hash Cache.direct_miss res) tr ->
        (forall ev, In ev tr -> CacheCalls.direct_event direct_hash ev)
        /\ (r = Normal (false, rc0) \/ r = Terminate)).
Proof.
  intros Hrun.
  rewrite lookup_direct_eq in Hrun. unfold noexcept in Hrun.
  unfold bind at 1 in Hrun.
  match type of Hrun with
  | context [try_catch ?body ?h (w, [])] =>
      destruct (try_catch body h (w, [])) as [found [w1 tr1]] eqn:Hdirect
  end.
  apply direct_part_trace in Hdirect.
  destruct Hdirect as (new & Htr1 & Hnew & Hfound).
  cbn [snd app] in Htr1. subst tr1.
  destruct found as [[h |] | e | ].
  - destruct Hfound as (m & -> & Hm & Hhit & Hnomiss).
    destruct (Cache.lookup (Cache.traced C) (Cache.hash m) x allow create rc0
                (w1, new)) as [rl [wl trl]] eqn:Hl.
    destruct (appends_from_nil _ _ _ _ _ _
                (lookup_regular C (Cache.hash m) x allow create rc0) Hl)
      as (more & Htrl & Hmore0).
    cbn [snd] in Htrl. subst trl.
    assert (Hmore : forall ev, In ev more ->
              CacheCalls.regular_lookup_event (Cache.hash m) ev)
      by (apply List.Forall_forall; exact Hmore0).
    assert (Htr : tr = (new ++ more)%list)
      by (destruct rl as [? | ? | ]; now inversion Hrun).
    subst tr. clear Hrun Hl. split.
    + intros ev Hin. apply List.in_app_iff in Hin.
      destruct Hin as [Hin | Hin]; [left; auto |].
      right. exists m. rewrite !List.in_app_iff. auto.
    + intros res Hin. exfalso. apply List.in_app_iff in Hin.
      destruct Hin as [Hin | Hin]; [exact (Hnomiss _ Hin) |].
      apply Hmore in Hin. simpl in Hin.
      destruct Hin as (_ & [Hd | Hd]); discriminate.
  - cbn [ret] in Hrun. inversion Hrun; subst. split; auto.
  - inversion Hrun; subst. split; auto.
  - inversion Hrun; subst. split; auto.
Qed.

(** ** Further properties of [handle_command] *)

Section HandleCommandResult.

Import ProgramWrapper.
Context {W : Type} (C : collaborators W) (V : Wrapper W).

Lemma bind_raise_inv {A B} (c : M W A) (k : A -> M W B) w e w' :
  bind c k w = (Raise e, w') ->
  c w = (Raise e, w')
  \/ exists a w1, c w = (Normal a, w1) /\ k a w1 = (Raise e, w').
Proof.
  unfold bind. destruct (c w) as [[a | e0 | ] w1]; intros H;
    [right; eauto | left; now inversion H | discriminate].
Qed.

(** What the two [catch] clauses of [handle_command] run for an
    exception: one line in the log, at DEBUG or at ERROR level, and then
    [return false] with [return_code] still 1. *)
Lemma handler_runs_the_log (e : exception) :
  exists lvl msg,
    (lvl = DEBUG \/ lvl = ERROR)
    /\ or_else
         (catch_std_exception
            (fun what =>
               debug_log C DEBUG ("Exception: " ++ what) ;;; ret (false, 1)))
         (catch_any
            (debug_log C ERROR "UNEXPECTED EXCEPTION" ;;; ret (false, 1))) e
       = Some (debug_log C lvl msg ;;; ret (false, 1)).
Proof.
  destruct e as [what | what | ]; do 2 eexists;
    (split; [| reflexivity]); auto.
Qed.

End HandleCommandResult.

(** X14. No exception thrown inside [handle_command] leaves it: whatever
    the wrapper, the cache and the wrapped program throw is caught, logged,
    and answered by returning false. A false result always comes with
    [return_code] 1. The one exception that can leave [handle_command] is
    one thrown by the log call of its own [catch] clauses. *)
Theorem handle_command_contains_exceptions
    {W : Type} (C : ProgramWrapper.collaborators W)
    (V : ProgramWrapper.Wrapper W) (w : W) (r : outcome (bool * Z)) (w' : W) :
  ProgramWrapper.handle_command C V w = (r, w') ->
  (forall rc, r = Normal (false, rc) -> rc = 1)
  /\ (forall e,
        r = Raise e ->
        exists lvl msg w0,
          (lvl = DEBUG \/ lvl = ERROR)
          /\ ProgramWrapper.debug_log C lvl msg w0 = (Raise e, w')).
Proof.
  intros Hrun. unfold ProgramWrapper.handle_command in Hrun.
  unfold try_catch in Hrun.
  match type of Hrun with
  | match ?body w with _ => _ end = _ =>
      destruct (body w) as [[[b rc1] | e0 | ] w1] eqn:Hbody
  end.
  - (* the [try] block returned: it never returns false *)
    inversion Hrun; subst. split; [| discriminate].
    intros rc Hr. inversion Hr; subst. exfalso.
    do 7 unbind Hbody.
    match type of Hbody with
    | context [match ?o with Some _ => _ | None => _ end] => destruct o
    end.
    + do 4 unbind Hbody. inversion Hbody.
    + do 5 unbind Hbody. inversion Hbody.
  - (* an exception was caught *)
    destruct (handler_runs_the_log C e0) as (lvl & msg & Hlvl & Hh).
    rewrite Hh in Hrun. split.
    + intros rc Hr. subst r. unbind Hrun. now inversion Hrun.
    + intros e Hr. subst r. apply bind_raise_inv in Hrun.
      destruct Hrun as [Hlog | (a & w2 & _ & Hret)]; [| discriminate].
      exists lvl, msg, w1. auto.
  - inversion Hrun; subst. split; discriminate.
Qed.

(** Goes through the events of a trace whose shape is known, to check
    that each is of an allowed kind. *)
Ltac event_cases Hev :=
  in_trace Hev;
  repeat (destruct Hev as [Hev | Hev]);
  subst; try exact I; try contradiction;
  match goal with
  | Hl : Forall (ProgramWrapper.loop_event _) ?n, Hi : In ?ev ?n |- _ =>
      apply (proj1 (List.Forall_forall _ _) Hl) in Hi;
      destruct ev; simpl in Hi; try contradiction; exact I
  end.

(** X15. Whatever the wrapper and the cache do, a cache hit replaces the run
    of the wrapped program: once the cache returned an entry,
    [handle_command] neither runs the program nor adds to the cache, and
    when it reports the command as handled, the return code is the cached
    one and the cached stdout and stderr were written. On a cache miss no
    cached file is materialized and [handle_command] writes nothing to the
    standard streams itself. *)
Theorem cache_hit_replaces_the_run
    {W : Type} (C : ProgramWrapper.collaborators W)
    (V : ProgramWrapper.Wrapper W) (w : W)
    (r : outcome (bool * Z)) (w' : W) (tr : list ProgramWrapper.event) :
  ProgramWrapper.handle_command (ProgramWrapper.traced C)
    (ProgramWrapper.traced_wrapper V) (w, [])
  = (r, (w', tr)) ->
  (forall hash entry,
     In (ProgramWrapper.CacheLookup hash (Normal (Some entry))) tr ->
     (forall ev, In ev tr ->
        match ev with
        | ProgramWrapper.RunWithPrefix _ _ _ => False
        | ProgramWrapper.CacheAdd _ _ _ _ => False
        | _ => True
        end)
     /\ forall rc,
          r = Normal (true, rc) ->
          rc = ProgramWrapper.return_code entry
          /\ In (ProgramWrapper.Cout (ProgramWrapper.std_out entry)
                   (Normal tt)) tr
          /\ In (ProgramWrapper.Cerr (ProgramWrapper.std_err entry)
                   (Normal tt)) tr)
  /\ (forall hash,
        In (ProgramWrapper.CacheLookup hash (Normal None)) tr ->
        forall ev, In ev tr ->
          match ev with
          | ProgramWrapper.LinkOrCopy _ _ _ => False
          | ProgramWrapper.Copy _ _ _ => False
          | ProgramWrapper.Cout _ _ => False
          | ProgramWrapper.Cerr _ _ => False
          | _ => True
          end).
Proof.
  intros Hrun. split.
  - intros hash entry Hin. split.
    + intros ev Hev.
      wrapper_run Hrun; in_trace Hin;
        intuition (try discriminate; try not_in_loop);
        match goal with
        | H : ProgramWrapper.CacheLookup _ _ = ProgramWrapper.CacheLookup _ _
          |- _ => inversion H; subst; clear H
        end;
        event_cases Hev.
    + intros rc Hr. subst r.
      wrapper_run Hrun; in_trace Hin;
        try (exfalso; eapply Hnot; reflexivity);
        intuition (try discriminate; try not_in_loop);
        match goal with
        | H : ProgramWrapper.CacheLookup _ _ = ProgramWrapper.CacheLookup _ _
          |- _ => inversion H; subst; clear H
        end;
        repeat match goal with u : unit |- _ => destruct u end;
        first [reflexivity | event_found].
  - intros hash Hin ev Hev.
    wrapper_run Hrun; in_trace Hin;
      intuition (try discriminate; try not_in_loop);
      event_cases Hev.
Qed.

(** X16. Whatever the wrapper and the cache do, the hash under which
    [handle_command] looks up the cache is the digest of, in this order, the
    preprocessed source, the relevant arguments joined by spaces, the
    relevant environment variables and the program id, each as the wrapper
    returned it; and an entry is added under that same hash, after the
    lookup returned no entry, with the build files the wrapper reported and
    with hard links allowed exactly when they are configured and among the
    capabilities the wrapper reported. *)
Theorem entries_are_keyed_by_the_fingerprint
    {W : Type} (C : ProgramWrapper.collaborators W)
    (V : ProgramWrapper.Wrapper W) (w : W)
    (r : outcome (bool * Z)) (w' : W) (tr : list ProgramWrapper.event) :
  ProgramWrapper.handle_command (ProgramWrapper.traced C)
    (ProgramWrapper.traced_wrapper V) (w, [])
  = (r, (w', tr)) ->
  (forall hash res,
     In (ProgramWrapper.CacheLookup hash res) tr ->
     exists source arguments env_vars program_id,
       In (ProgramWrapper.PreprocessSource (Normal source)) tr
       /\ In (ProgramWrapper.GetRelevantArguments (Normal arguments)) tr
       /\ In (ProgramWrapper.GetRelevantEnvVars (Normal env_vars)) tr
       /\ In (ProgramWrapper.GetProgramId (Normal program_id)) tr
       /\ hash
          = ProgramWrapper.hasher_final C
              [ProgramWrapper.Text source;
               ProgramWrapper.Text
                 (ProgramWrapper.join C " " true arguments);
               ProgramWrapper.Pairs env_vars;
               ProgramWrapper.Text program_id])
  /\ (forall hash entry allow res,
        In (ProgramWrapper.CacheAdd hash entry allow res) tr ->
        In (ProgramWrapper.CacheLookup hash (Normal None)) tr
        /\ In (ProgramWrapper.GetBuildFiles
                 (Normal (ProgramWrapper.files entry))) tr
        /\ exists caps,
             In (ProgramWrapper.GetCapabilities (Normal caps)) tr
             /\ allow
                = ProgramWrapper.config_hard_links C
                  && ProgramWrapper.hard_links
                       (ProgramWrapper.make_capabilities caps)).
Proof.
  intros Hrun. split.
  - intros hash res Hin.
    wrapper_run Hrun; in_trace Hin;
      intuition (try discriminate; try not_in_loop);
      match goal with
      | H : ProgramWrapper.CacheLookup _ _ = ProgramWrapper.CacheLookup _ _
        |- _ => inversion H; subst; clear H
      end;
      do 4 eexists.
    all: do 4 (split; [event_found |]); reflexivity.
  - intros hash entry allow res Hin.
    wrapper_run Hrun; in_trace Hin;
      intuition (try discriminate; try not_in_loop);
      match goal with
      | H : ProgramWrapper.CacheAdd _ _ _ _ = ProgramWrapper.CacheAdd _ _ _ _
        |- _ => inversion H; subst; clear H
      end;
      first [ event_found
            | eexists; split; [event_found | reflexivity] ].
Qed.

(** ** The default wrapper *)

(** Reads what the default implementations returned off the equations
    that a run of [handle_command] leaves in the context. *)
Ltac default_calls :=
  repeat match goal with
         | H : ProgramWrapper.resolve_args _ = _ |- _ =>
             cbn in H; inversion H; subst; clear H
         | H : ProgramWrapper.get_capabilities _ = _ |- _ =>
             cbn in H; inversion H; subst; clear H
         | H : ProgramWrapper.preprocess_source _ = _ |- _ =>
             cbn in H; inversion H; subst; clear H
         | H : ProgramWrapper.get_relevant_arguments _ = _ |- _ =>
             cbn in H; inversion H; subst; clear H
         | H : ProgramWrapper.get_relevant_env_vars _ = _ |- _ =>
             cbn in H; inversion H; subst; clear H
         | H : ProgramWrapper.get_build_files _ = _ |- _ =>
             cbn in H; inversion H; subst; clear H
         | H : ProgramWrapper.get_program_id _ = _ |- _ =>
             cbn [ProgramWrapper.get_program_id
                    ProgramWrapper.default_wrapper] in H
         end.

(** Goes through the events of a trace whose shape is known, to check
    that none is a [link_or_copy]. *)
Ltac event_kinds Hev :=
  in_trace Hev;
  repeat (destruct Hev as [Hev | Hev]);
  subst; try reflexivity; try contradiction;
  match goal with
  | Hl : Forall (ProgramWrapper.loop_event _) ?n, Hi : In ?ev ?n |- _ =>
      apply (proj1 (List.Forall_forall _ _) Hl) in Hi;
      destruct ev; simpl in Hi; try reflexivity; try contradiction;
      discriminate
  end.

(** X17. With the default implementations of the wrapper interface, the
    cache key is the digest of the empty preprocessed source, of all the
    arguments joined by spaces, of no environment variable and of the hash
    of the program file named by the first argument; cached files are never
    hard linked, whatever the configuration says; and an entry that is added
    lists no file. *)
Theorem default_wrapper_keys_by_command_line_and_program
    {W : Type} (C : ProgramWrapper.collaborators W) (w : W)
    (r : outcome (bool * Z)) (w' : W) (tr : list ProgramWrapper.event) :
  ProgramWrapper.handle_command (ProgramWrapper.traced C)
    (ProgramWrapper.traced_wrapper (ProgramWrapper.default_wrapper C))
    (w, [])
  = (r, (w', tr)) ->
  (forall hash res,
     In (ProgramWrapper.CacheLookup hash res) tr ->
     exists program_id w1,
       ProgramWrapper.hasher_file C (hd "" (ProgramWrapper.m_args C w)) w
       = (Normal program_id, w1)
       /\ hash
          = ProgramWrapper.hasher_final C
              [ProgramWrapper.Text "";
               ProgramWrapper.Text
                 (ProgramWrapper.join C " " true (ProgramWrapper.m_args C w));
               ProgramWrapper.Pairs [];
               ProgramWrapper.Text program_id])
  /\ (forall ev, In ev tr -> ProgramWrapper.is_link_or_copy ev = false)
  /\ (forall hash entry allow res,
        In (ProgramWrapper.CacheAdd hash entry allow res) tr ->
        allow = false /\ ProgramWrapper.files entry = []).
Proof.
  intros Hrun. split; [| split].
  - intros hash res Hin.
    wrapper_run Hrun; in_trace Hin;
      intuition (try discriminate; try not_in_loop);
      match goal with
      | H : ProgramWrapper.CacheLookup _ _ = ProgramWrapper.CacheLookup _ _
        |- _ => inversion H; subst; clear H
      end;
      default_calls;
      do 2 eexists; (split; [eassumption | reflexivity]).
  - intros ev Hin.
    wrapper_run Hrun; default_calls;
      rewrite ?andb_false_r in *; event_kinds Hin.
  - intros hash entry allow res Hin.
    wrapper_run Hrun; in_trace Hin;
      intuition (try discriminate; try not_in_loop);
      match goal with
      | H : ProgramWrapper.CacheAdd _ _ _ _ = ProgramWrapper.CacheAdd _ _ _ _
        |- _ => inversion H; subst; clear H
      end;
      default_calls; simpl; auto using andb_false_r.
Qed.

(** ** The command line *)

Section MainTrace.

Import Main MainCalls.
Context {W : Type} (C : collaborators W).

(** [print_help] returns and writes to standard output only. *)
Lemma print_help_trace program_name (s : W * list event) :
  exists w' new,
    print_help (traced C) program_name s = (Normal tt, (w', (snd s ++ new)%list))
    /\ Forall printing new.
Proof.
  unfold print_help, bind, say, traced. cbn [cout fst snd].
  do 2 eexists. rewrite <- !app_assoc. split; [reflexivity |].
  cbn [app]. repeat (constructor; [exact I |]). constructor.
Qed.

End MainTrace.

(** Ends a path of an administrative command whose run is over. *)
Ltac command_end :=
  let Hrun := fresh "Hrun" in
  let Hin := fresh "Hin" in
  intros Hrun; inversion Hrun; subst; clear Hrun;
  eexists; cbn [snd]; rewrite <- ?app_assoc;
  (split; [reflexivity |]);
  (split; [repeat (constructor; [exact I |]); constructor |]);
  (split; [auto |]);
  (split;
   [ intros ? Hin; in_trace Hin;
     intuition (try discriminate);
     eexists; event_found
   | intros Hin; first [discriminate | event_found] ]).

(** The run of a cache command: the cache object is made, the command is
    run, and what either throws is reported. *)
Ltac cache_command_run :=
  rewrite try_catch_bind_recording; cbn [fst snd app];
  match goal with
  | |- match ?op ?w0 with _ => _ end = _ -> _ =>
      destruct (op w0) as [[[] | [? | ? | ] | ] ?]
  end;
  [ rewrite try_catch_bind_recording; cbn [fst snd app];
    match goal with
    | |- match ?op ?w0 with _ => _ end = _ -> _ =>
        destruct (op w0) as [[[] | [? | ? | ] | ] ?]
    end
  | .. ];
  cbn [try_catch ret Main.report_unexpected or_else catch_std_exception
         catch_any];
  unfold bind, Main.complain; cbn [MainCalls.traced Main.cerr fst snd ret];
  command_end.

Section Commands.

Import Main MainCalls.
Context {W : Type} (C : collaborators W).

(** [clear_cache_and_exit], call by call. *)
Lemma clear_cache_trace (s : W * list event) r s' :
  clear_cache_and_exit (traced C) s = (r, s') ->
  exists new,
    snd s' = (snd s ++ new)%list
    /\ Forall clearing new
    /\ (r = Normal 0 \/ r = Normal 1 \/ r = Terminate)
    /\ (forall e,
          In (NewCache (Raise e)) new \/ In (CacheClear (Raise e)) new ->
          r = Normal 1 /\ exists text, In (Cerr text) new)
    /\ (r = Normal 0 -> In (CacheClear (Normal tt)) new).
Proof.
  unfold clear_cache_and_exit. cbn [traced new_cache cache_clear].
  cache_command_run.
Qed.

(** [show_stats_and_exit], call by call. *)
Lemma show_stats_trace (s : W * list event) r s' :
  show_stats_and_exit (traced C) s = (r, s') ->
  exists new,
    snd s' = (snd s ++ new)%list
    /\ Forall reporting new
    /\ (r = Normal 0 \/ r = Normal 1 \/ r = Terminate)
    /\ (forall e,
          In (NewCache (Raise e)) new \/ In (CacheShowStats (Raise e)) new ->
          r = Normal 1 /\ exists text, In (Cerr text) new)
    /\ (r = Normal 0 -> In (CacheShowStats (Normal tt)) new).
Proof.
  unfold show_stats_and_exit. cbn [traced new_cache cache_show_stats].
  cache_command_run.
Qed.

End Commands.

Section Options.

Import Main MainCalls.
Context {W : Type} (C : collaborators W).

Lemma clearing_is_administrative ev : clearing ev -> administrative ev.
Proof. destruct ev; simpl; auto. Qed.

Lemma reporting_is_administrative ev : reporting ev -> administrative ev.
Proof. destruct ev; simpl; auto. Qed.

Lemma printing_is_reporting ev : printing ev -> reporting ev.
Proof. destruct ev; simpl; auto. Qed.

(** The options other than [-C]: the cache is looked at, at most. *)
Lemma other_options_trace argv0 arg rest (s : W * list event) r s' :
  Ascii.eqb (first_char arg) "-"%char = true ->
  (if compare_arg arg "-s" "--show-stats" then show_stats_and_exit (traced C)
   else if compare_arg arg "-V" "--version"
   then print_version_and_exit (traced C)
   else if compare_arg arg "-M" "--max-size" then
     match rest with
     | [] =>
         complain (traced C)
           (argv0 ++ ": option requires an argument -- " ++ arg ++ nl) ;;;
         print_help (traced C) argv0 ;;;
         ret 1
     | size_arg :: _ => set_max_size_and_exit (traced C) size_arg
     end
   else if compare_arg arg "-h" "--help" then
     print_help (traced C) argv0 ;;; ret 0
   else if Ascii.eqb (first_char arg) "-"%char then
     complain (traced C) (argv0 ++ ": invalid option -- " ++ arg ++ nl) ;;;
     print_help (traced C) argv0 ;;;
     ret 1
   else wrap_compiler_and_exit (traced C) (arg :: rest)) s = (r, s') ->
  exists new,
    snd s' = (snd s ++ new)%list
    /\ Forall reporting new
    /\ (r = Normal 0 \/ r = Normal 1 \/ r = Terminate)
    /\ (forall e,
          In (NewCache (Raise e)) new \/ In (CacheShowStats (Raise e)) new ->
          r = Normal 1 /\ exists text, In (Cerr text) new)
    /\ (compare_arg arg "-s" "--show-stats" = false ->
        Forall printing new /\ (r = Normal 0 \/ r = Normal 1))
    /\ (compare_arg arg "-s" "--show-stats" = false ->
        compare_arg arg "-V" "--version" = false ->
        compare_arg arg "-M" "--max-size" = false ->
        compare_arg arg "-h" "--help" = false ->
        r = Normal 1
        /\ In (Cerr (argv0 ++ ": invalid option -- " ++ arg ++ nl)) new).
Proof.
  intros Hdash. rewrite Hdash.
  destruct (compare_arg arg "-s" "--show-stats").
  { intros Hrun. apply show_stats_trace in Hrun.
    destruct Hrun as (new & Htr & Hall & Hr & Hfail & _).
    exists new. repeat (split; [assumption |]). split; discriminate. }
  assert (Hprints : forall new r0,
            Forall printing new -> r0 = Normal 0 \/ r0 = Normal 1 ->
            forall e,
              In (NewCache (Raise e)) new \/ In (CacheShowStats (Raise e)) new ->
              r0 = Normal 1 /\ exists text, In (Cerr text) new).
  { intros new r0 Hall _ e [Hin | Hin];
      apply (proj1 (List.Forall_forall _ _) Hall) in Hin; destruct Hin. }
  assert (Hrep : forall new, Forall printing new -> Forall reporting new).
  { intros new Hall. eapply List.Forall_impl; [| exact Hall].
    exact printing_is_reporting. }
  destruct (compare_arg arg "-V" "--version").
  { unfold print_version_and_exit, bind, say.
    cbn [traced cout fst snd ret]. intros Hrun. inversion Hrun; subst.
    eexists. cbn [snd]. split; [reflexivity |].
    assert (Hall : Forall printing
                     [Cout ("BuildCache version 0.0-dev" ++ nl)])
      by (repeat constructor).
    split; [auto |]. split; [auto |]. split; [apply Hprints; auto |].
    split; [auto | discriminate]. }
  destruct (compare_arg arg "-M" "--max-size").
  { destruct rest as [| size_arg rest'].
    - unfold bind at 1, complain. cbn [traced cerr fst snd].
      unfold bind.
      match goal with
      | |- context [print_help ?c ?n ?s0] =>
          destruct (print_help_trace C n s0) as (w1 & new & -> & Hnew)
      end.
      cbn [ret snd]. intros Hrun. inversion Hrun; subst.
      eexists. rewrite <- app_assoc. split; [reflexivity |].
      assert (Hall : Forall printing
                       ([Cerr (argv0 ++ ": option requires an argument -- "
                                 ++ arg ++ nl)] ++ new)%list)
        by (constructor; [exact I | exact Hnew]).
      split; [auto |]. split; [auto |]. split; [apply Hprints; auto |].
      split; [auto | discriminate].
    - unfold set_max_size_and_exit, try_catch, bind, say.
      cbn [traced cout fst snd ret]. intros Hrun. inversion Hrun; subst.
      eexists. cbn [snd]. split; [reflexivity |].
      assert (Hall : Forall printing
                       [Cout ("*** Setting the max size has not yet implemented"
                                ++ nl)])
        by (repeat constructor).
      split; [auto |]. split; [auto |]. split; [apply Hprints; auto |].
      split; [auto | discriminate]. }
  destruct (compare_arg arg "-h" "--help").
  { unfold bind.
    match goal with
    | |- context [print_help ?c ?n ?s0] =>
        destruct (print_help_trace C n s0) as (w1 & new & -> & Hnew)
    end.
    cbn [ret snd]. intros Hrun. inversion Hrun; subst.
    eexists. split; [reflexivity |].
    split; [auto |]. split; [auto |]. split; [apply Hprints; auto |].
    split; [auto | discriminate]. }
  unfold bind at 1, complain. cbn [traced cerr fst snd].
  unfold bind.
  match goal with
  | |- context [print_help ?c ?n ?s0] =>
      destruct (print_help_trace C n s0) as (w1 & new & -> & Hnew)
  end.
  cbn [ret snd]. intros Hrun. inversion Hrun; subst.
  eexists. rewrite <- app_assoc. split; [reflexivity |].
  assert (Hall : Forall printing
                   ([Cerr (argv0 ++ ": invalid option -- " ++ arg ++ nl)]
                      ++ new)%list)
    by (constructor; [exact I | exact Hnew]).
  split; [auto |]. split; [auto |]. split; [apply Hprints; auto |].
  split; [auto |]. intros _ _ _ _. split; [reflexivity | now left].
Qed.

End Options.

(** X18. Invoked under its own name with an option as first argument,
    [main] runs an administrative command and nothing else: it does not
    look for a compiler, asks no wrapper and runs no program; nothing it
    calls can make it throw, and the exit code is 0 or 1 (unless a call ends
    the process). An exception thrown by the cache object is reported on
    standard error and gives exit code 1. The cache is cleared for [-C] and
    [--clear] only. An option that is none of the ten known spellings is
    reported as invalid on standard error, with exit code 1 and without
    touching the cache. *)
Theorem options_never_run_a_compiler
    {W : Type} (C : Main.collaborators W) (argv0 arg : string)
    (rest : list string) (w : W) (r : outcome Z) (w' : W)
    (tr : list MainCalls.event) :
  String.eqb (Main.get_file_part C argv0 false) Main.BUILDCACHE_EXE_NAME
    = true ->
  Main.first_char arg = "-"%char ->
  Main.main (MainCalls.traced C) argv0 (arg :: rest) (w, []) = (r, (w', tr)) ->
  Forall MainCalls.administrative tr
  /\ (r = Normal 0 \/ r = Normal 1 \/ r = Terminate)
  /\ (forall e,
        In (MainCalls.NewCache (Raise e)) tr
        \/ In (MainCalls.CacheClear (Raise e)) tr
        \/ In (MainCalls.CacheShowStats (Raise e)) tr ->
        r = Normal 1 /\ exists text, In (MainCalls.Cerr text) tr)
  /\ (forall res,
        In (MainCalls.CacheClear res) tr ->
        Main.compare_arg arg "-C" "--clear" = true)
  /\ (Main.compare_arg arg "-C" "--clear" = false ->
      Main.compare_arg arg "-s" "--show-stats" = false ->
      Main.compare_arg arg "-V" "--version" = false ->
      Main.compare_arg arg "-M" "--max-size" = false ->
      Main.compare_arg arg "-h" "--help" = false ->
      r = Normal 1
      /\ In (MainCalls.Cerr (argv0 ++ ": invalid option -- " ++ arg ++ Main.nl))
           tr
      /\ Forall MainCalls.printing tr).
Proof.
  intros Hname Hdash Hrun. unfold Main.main in Hrun.
  cbn [MainCalls.traced Main.get_file_part] in Hrun.
  rewrite Hname in Hrun. cbn [negb] in Hrun.
  assert (Hdash' : Ascii.eqb (Main.first_char arg) "-"%char = true)
    by (rewrite Hdash; reflexivity).
  destruct (Main.compare_arg arg "-C" "--clear") eqn:HC.
  - apply clear_cache_trace in Hrun.
    destruct Hrun as (new & Htr & Hall & Hr & Hfail & _).
    cbn [snd app] in Htr. subst tr.
    split; [eapply List.Forall_impl; [| exact Hall];
            exact clearing_is_administrative |].
    split; [exact Hr |]. split; [| split; [reflexivity | discriminate]].
    intros e [Hin | [Hin | Hin]]; [apply (Hfail e); auto ..|].
    apply (proj1 (List.Forall_forall _ _) Hall) in Hin. destruct Hin.
  - apply (other_options_trace C argv0 arg rest) in Hrun; [| exact Hdash'].
    destruct Hrun as (new & Htr & Hall & Hr & Hfail & Hprint & Hinvalid).
    cbn [snd app] in Htr. subst tr.
    split; [eapply List.Forall_impl; [| exact Hall];
            exact reporting_is_administrative |].
    split; [exact Hr |]. split; [| split].
    + intros e [Hin | [Hin | Hin]]; [apply (Hfail e); auto | | apply (Hfail e); auto].
      apply (proj1 (List.Forall_forall _ _) Hall) in Hin. destruct Hin.
    + intros res Hin.
      apply (proj1 (List.Forall_forall _ _) Hall) in Hin. destruct Hin.
    + intros _ Hs HV HM Hh.
      destruct (Hinvalid Hs HV HM Hh) as [Hr1 Hcerr].
      split; [exact Hr1 |]. split; [exact Hcerr |]. apply Hprint, Hs.
Qed.

(** ** Wrapping a compiler *)

Lemma try_catch_bind_assoc {W A B D} (c : M W A) (f : A -> M W B)
    (g : B -> M W D) (h : handler W D) (s : W) :
  try_catch (bind (bind c f) g) h s
  = try_catch (bind c (fun a => bind (f a) g)) h s.
Proof.
  unfold try_catch, bind. now destruct (c s) as [[a | e | ] s1].
Qed.

Lemma try_catch_bind_ret {W A B} (a : A) (g : A -> M W B) (h : handler W B)
    (s : W) :
  try_catch (bind (ret a) g) h s = try_catch (g a) h s.
Proof. reflexivity. Qed.

(** Ends a path of the inner [try] block of [wrap_compiler_and_exit]
    whose run is over. *)
Ltac attempt_end :=
  let Hrun := fresh "Hrun" in
  let Hin := fresh "Hin" in
  let Hr := fresh "Hr" in
  intros Hrun; rewrite <- ?app_assoc in Hrun;
  inversion Hrun; subst; clear Hrun;
  eexists; cbn [snd];
  (split; [reflexivity |]);
  (split; [cbn [app]; repeat (constructor; [exact I |]); constructor |]);
  (split; [| split]);
  [ intros ? ? ? ? Hin; in_trace Hin;
    repeat (destruct Hin as [Hin | Hin]);
    try discriminate; try contradiction;
    inversion Hin; subst;
    repeat (split; [first [reflexivity | event_found
                          | simpl; auto; split; event_found] |]);
    intros ? Hr; inversion Hr; subst; reflexivity
  | intros ? Hr; inversion Hr; subst; eexists; event_found
  | intros ? Hr;
    first [discriminate | inversion Hr; subst; eexists; event_found] ].

(** The path on which the exception [e] is answered by the two [catch]
    clauses of the inner [try] block. *)
Ltac attempt_caught e :=
  destruct e as [? | ? | ];
  cbn [or_else catch_std_exception catch_any];
  rewrite bind_recording; cbn [fst snd app];
  match goal with
  | |- match ?op ?w0 with _ => _ end = _ -> _ =>
      destruct (op w0) as [[[] | ? | ] ?]
  end;
  cbn [ret]; attempt_end.

(** The path on which a wrapper was selected and is run. *)
Ltac attempt_handle :=
  rewrite try_catch_bind_ret; unfold try_catch at 1;
  rewrite run_recording; cbn [fst snd app];
  match goal with
  | |- context [Main.wrapper_handle_command ?c ?k ?a ?rc ?w0] =>
      let e := fresh "e" in
      destruct (Main.wrapper_handle_command c k a rc w0)
        as [[[[|] ?] | e | ] ?]; cbn [fst snd];
      [attempt_end | attempt_end | attempt_caught e | attempt_end]
  end.

Section WrappingAttempt.

Import Main MainCalls.
Context {W : Type} (C : collaborators W).

Lemma earlier_declined_mono p kind (l l' : list event) :
  (forall ev, In ev l -> In ev l') ->
  earlier_declined p kind l -> earlier_declined p kind l'.
Proof.
  intros Hsub. destruct kind; simpl; auto.
  intros [H1 H2]. auto.
Qed.

(** The inner [try] block of [wrap_compiler_and_exit], call by call. *)
Lemma wrapping_attempt_trace p rest (s : W * list event) wrapped s' :
  try_catch
    (new_cache (traced C) ;;;
     wrapper <- select_wrapper (traced C) p ;;
     match wrapper with
     | Some kind => wrapper_handle_command (traced C) kind (p :: rest) 1
     | None => ret (false, 1)
     end)
    (or_else
       (catch_std_exception
          (fun what =>
             debug_log (traced C) ERROR ("Unexpected error: " ++ what) ;;;
             ret (false, 1)))
       (catch_any
          (debug_log (traced C) ERROR "Unexpected error." ;;;
           ret (false, 1)))) s
  = (wrapped, s') ->
  exists new,
    snd s' = (snd s ++ new)%list
    /\ Forall wrapping new
    /\ (forall kind a rc res,
          In (WrapperHandleCommand kind a rc res) new ->
          a = p :: rest /\ rc = 1
          /\ In (CanHandleCommand kind p (Normal true)) new
          /\ earlier_declined p kind new
          /\ forall code, res = Normal (true, code) ->
               wrapped = Normal (true, code))
    /\ (forall code,
          wrapped = Normal (true, code) ->
          exists kind,
            In (WrapperHandleCommand kind (p :: rest) 1 (Normal (true, code)))
              new)
    /\ (forall e,
          wrapped = Raise e ->
          exists msg, In (DebugLog ERROR msg (Raise e)) new).
Proof.
  cbn [traced new_cache can_handle_command wrapper_handle_command debug_log].
  rewrite try_catch_bind_recording. cbn [fst snd app].
  destruct (new_cache C (fst s)) as [[[] | e0 | ] w1];
    [| attempt_caught e0 | attempt_end].
  unfold select_wrapper.
  cbn [traced can_handle_command debug_log].
  rewrite try_catch_bind_assoc, try_catch_bind_recording. cbn [fst snd app].
  destruct (can_handle_command C gcc_wrapper p w1) as [[[|] | e0 | ] w2];
    [attempt_handle | | attempt_caught e0 | attempt_end].
  rewrite try_catch_bind_assoc, try_catch_bind_recording. cbn [fst snd app].
  destruct (can_handle_command C ghs_wrapper p w2) as [[[|] | e0 | ] w3];
    [attempt_handle | | attempt_caught e0 | attempt_end].
  rewrite try_catch_bind_assoc, try_catch_bind_recording. cbn [fst snd app].
  destruct (can_handle_command C msvc_wrapper p w3) as [[[|] | e0 | ] w4];
    [attempt_handle | | attempt_caught e0 | attempt_end].
  rewrite try_catch_bind_assoc, try_catch_bind_recording. cbn [fst snd app].
  destruct (debug_log C INFO ("No suitable wrapper for " ++ p) w4)
    as [[[] | e0 | ] w5];
    [rewrite try_catch_bind_ret; cbn [try_catch ret]; attempt_end
    | attempt_caught e0 | attempt_end].
Qed.

End WrappingAttempt.

(** Ends a path of [wrap_compiler_and_exit] whose run is over. *)
Ltac wrap_end Hrun Hnew Hhandle :=
  let Hin := fresh "Hin" in
  let Hcan := fresh "Hcan" in
  let Hearlier := fresh "Hearlier" in
  let Hres := fresh "Hres" in
  let Hc := fresh "Hc" in
  let Hw := fresh "Hw" in
  let Hrw := fresh "Hrw" in
  let Hr := fresh "Hr" in
  inversion Hrun; subst; clear Hrun;
  (split; [| split; [| split]]);
  [ intros ? ? ? ? Hin; trace_split Hin;
    destruct (Hhandle _ _ _ _ Hin) as (-> & -> & Hcan & Hearlier & Hres);
    do 3 eexists;
    (split; [reflexivity |]); (split; [event_found |]);
    (split; [reflexivity |]); (split; [reflexivity |]);
    (split; [event_found |]);
    (split;
     [ eapply earlier_declined_mono; [| exact Hearlier];
       intros; event_found |]);
    intros ? Hc; pose proof (Hres _ Hc) as Hw;
    first [ discriminate
          | inversion Hw; subst;
            (split; [reflexivity |]);
            intros ? ? ? Hrw; trace_split Hrw ]
  | intros ? ? ? Hin; trace_split Hin;
    inversion Hin; subst;
    (split; [reflexivity |]);
    (split;
     [ do 3 eexists; (split; [reflexivity |]);
       (split; [event_found | reflexivity]) |]);
    intros ? Hc; first [discriminate | inversion Hc; subst; reflexivity]
  | discriminate
  | intros ? Hr;
    first [discriminate | inversion Hr; subst; eexists; event_found] ].

(** Ends a path of [wrap_compiler_and_exit] on which the executable was
    not found. *)
Ltac wrap_failed_end Hrun :=
  let Hin := fresh "Hin" in
  let Hr := fresh "Hr" in
  inversion Hrun; subst; clear Hrun;
  (split; [| split; [| split]]);
  [ intros ? ? ? ? Hin; trace_split Hin
  | intros ? ? ? Hin; trace_split Hin
  | discriminate
  | intros ? Hr;
    first [discriminate | inversion Hr; subst; eexists; event_found] ].

(** X19. Whatever the wrappers and the programs do, [wrap_compiler_and_exit]
    works on the true path of the executable: a wrapper is run only after
    [find_executable] returned, on the arguments with the first one replaced
    by that path, with [return_code] 1, and only the first of gcc, ghs and
    msvc that says it can handle the command. When the wrapper reports the
    command as handled, its return code is the exit code and the command is
    not run again. The command is run as is on those same arguments, and
    when the run returns, its return code is the exit code. Without arguments nothing is called but the log, which is
    given the text "Unexpected error.Missing arguments.". An exception
    leaves [wrap_compiler_and_exit] only when the FATAL log call of its own
    [catch] clauses throws it. *)
Theorem fallback_runs_the_true_executable
    {W : Type} (C : Main.collaborators W) (args : list string) (w : W)
    (r : outcome Z) (w' : W) (tr : list MainCalls.event) :
  Main.wrap_compiler_and_exit (MainCalls.traced C) args (w, [])
  = (r, (w', tr)) ->
  (forall kind a rc res,
     In (MainCalls.WrapperHandleCommand kind a rc res) tr ->
     exists arg0 rest p,
       args = arg0 :: rest
       /\ In (MainCalls.FindExecutable arg0 Main.BUILDCACHE_EXE_NAME
                (Normal p)) tr
       /\ a = p :: rest /\ rc = 1
       /\ In (MainCalls.CanHandleCommand kind p (Normal true)) tr
       /\ MainCalls.earlier_declined p kind tr
       /\ forall code,
            res = Normal (true, code) ->
            r = Normal code
            /\ forall a' q res', ~ In (MainCalls.RunWithPrefix a' q res') tr)
  /\ (forall a q res,
        In (MainCalls.RunWithPrefix a q res) tr ->
        q = false
        /\ (exists arg0 rest p,
              args = arg0 :: rest
              /\ In (MainCalls.FindExecutable arg0 Main.BUILDCACHE_EXE_NAME
                       (Normal p)) tr
              /\ a = p :: rest)
        /\ forall code, res = Normal code -> r = Normal code)
  /\ (args = [] ->
      forall ev, In ev tr ->
        exists res,
          ev = MainCalls.DebugLog FATAL "Unexpected error.Missing arguments."
                 res)
  /\ (forall e,
        r = Raise e ->
        exists msg, In (MainCalls.DebugLog FATAL msg (Raise e)) tr).
Proof.
  intros Hrun. unfold Main.wrap_compiler_and_exit in Hrun.
  destruct args as [| arg0 rest].
  - (* no argument *)
    cbn [try_catch throw or_else catch_std_exception catch_any] in Hrun.
    cbn [MainCalls.traced Main.debug_log] in Hrun.
    rewrite bind_recording in Hrun. cbn [fst snd app] in Hrun.
    destruct (Main.debug_log C FATAL _ w) as [[[] | e0 | ] w1];
      inversion Hrun; subst; clear Hrun;
      (split; [intros ? ? ? ? Hin; simpl in Hin; intuition discriminate |]);
      (split; [intros ? ? ? Hin; simpl in Hin; intuition discriminate |]);
      (split;
       [ intros _ ev Hin; simpl in Hin; destruct Hin as [<- | []]; eauto
       | intros e Hr;
         first [discriminate | inversion Hr; subst; eexists; now left] ]).
  - change (Main.find_executable (MainCalls.traced C) arg0
              Main.BUILDCACHE_EXE_NAME)
      with (recording (MainCalls.FindExecutable arg0 Main.BUILDCACHE_EXE_NAME)
              (Main.find_executable C arg0 Main.BUILDCACHE_EXE_NAME)) in Hrun.
    rewrite try_catch_bind_recording in Hrun. cbn [fst snd app] in Hrun.
    destruct (Main.find_executable C arg0 Main.BUILDCACHE_EXE_NAME w)
      as [[p | e0 | ] w1].
    + rewrite try_catch_bind in Hrun.
      match type of Hrun with
      | match ?inner ?s0 with _ => _ end = _ =>
          destruct (inner s0) as [wrapped [w2 tr2]] eqn:Hinner
      end.
      apply wrapping_attempt_trace in Hinner.
      destruct Hinner as (new & Htr2 & Hall & Hhandle & Hhandled & Hraise).
      cbn [snd] in Htr2. subst tr2.
      assert (Hnew : forall ev, In ev new -> MainCalls.wrapping ev)
        by (apply List.Forall_forall; exact Hall).
      destruct wrapped as [[[|] code] | e1 | ]; cbn [fst snd] in Hrun.
      * cbn [try_catch ret] in Hrun. wrap_end Hrun Hnew Hhandle.
      * cbn [MainCalls.traced Main.run_with_prefix Main.debug_log] in Hrun.
        unfold try_catch in Hrun. rewrite run_recording in Hrun.
        cbn [fst snd] in Hrun.
        destruct (Main.run_with_prefix C (p :: rest) false w2)
          as [[c | e2 | ] w3]; cbn [fst snd] in Hrun;
          [ | destruct e2 as [? | ? | ];
              cbn [or_else catch_std_exception catch_any] in Hrun;
              rewrite bind_recording in Hrun; cbn [fst snd] in Hrun;
              match type of Hrun with
              | match ?op ?w0 with _ => _ end = _ =>
                  destruct (op w0) as [[[] | ? | ] ?]
              end; cbn [ret] in Hrun | ];
          wrap_end Hrun Hnew Hhandle.
      * destruct e1 as [? | ? | ];
          cbn [or_else catch_std_exception catch_any] in Hrun;
          cbn [MainCalls.traced Main.debug_log] in Hrun;
          rewrite bind_recording in Hrun; cbn [fst snd] in Hrun;
          match type of Hrun with
          | match ?op ?w0 with _ => _ end = _ =>
              destruct (op w0) as [[[] | ? | ] ?]
          end; cbn [ret] in Hrun;
          wrap_end Hrun Hnew Hhandle.
      * wrap_end Hrun Hnew Hhandle.
    + destruct e0 as [? | ? | ];
        cbn [or_else catch_std_exception catch_any] in Hrun;
        cbn [MainCalls.traced Main.debug_log] in Hrun;
        rewrite bind_recording in Hrun; cbn [fst snd] in Hrun;
        match type of Hrun with
        | match ?op ?w0 with _ => _ end = _ =>
            destruct (op w0) as [[[] | ? | ] ?]
        end; cbn [ret] in Hrun;
        wrap_failed_end Hrun.
    + wrap_failed_end Hrun.
Qed.

(** ** What [main] hands to [wrap_compiler_and_exit] *)

Lemma option_starts_with_dash arg short_form long_form :
  Main.compare_arg arg short_form long_form = true ->
  Main.first_char short_form = "-"%char ->
  Main.first_char long_form = "-"%char ->
  Main.first_char arg = "-"%char.
Proof.
  unfold Main.compare_arg. intros H Hs Hl.
  apply orb_true_iff in H. destruct H as [H | H];
    apply String.eqb_eq in H; now subst.
Qed.

(** X20. Invoked under another name than [buildcache], [main] interprets
    no option: after a DEBUG line it wraps the whole command line, the name
    it was invoked under being the compiler, so that even [-C] as first
    argument clears nothing. Invoked under its own name with a first
    argument that does not start with a dash, it wraps the arguments as
    they are; without arguments it prints the help text and exits with
    code 1. *)
Theorem main_wraps_what_is_not_an_option
    {W : Type} (C : Main.collaborators W) (argv0 : string)
    (arguments : list string) (w : W) :
  (String.eqb (Main.get_file_part C argv0 false) Main.BUILDCACHE_EXE_NAME
     = false ->
   forall w1,
     Main.debug_log C DEBUG ("Invoked as symlink: " ++ argv0) w
       = (Normal tt, w1) ->
     Main.main C argv0 arguments w
     = Main.wrap_compiler_and_exit C (argv0 :: arguments) w1)
  /\ (String.eqb (Main.get_file_part C argv0 false) Main.BUILDCACHE_EXE_NAME
        = true ->
      (forall arg rest,
         arguments = arg :: rest ->
         Main.first_char arg <> "-"%char ->
         Main.main C argv0 arguments w
         = Main.wrap_compiler_and_exit C arguments w)
      /\ (arguments = [] ->
          Main.main C argv0 arguments w
          = (Normal 1, snd (Main.print_help C argv0 w)))).
Proof.
  split.
  - intros Hname w1 Hlog. unfold Main.main. rewrite Hname. cbn [negb].
    unfold bind. rewrite Hlog. reflexivity.
  - intros Hname. split.
    + intros arg rest -> Hdash. unfold Main.main. rewrite Hname. cbn [negb].
      assert (Hno : forall short_form long_form,
                Main.first_char short_form = "-"%char ->
                Main.first_char long_form = "-"%char ->
                Main.compare_arg arg short_form long_form = false).
      { intros sf lf Hs Hl.
        destruct (Main.compare_arg arg sf lf) eqn:Hc; [| reflexivity].
        destruct Hdash. eapply option_starts_with_dash; eassumption. }
      rewrite !Hno by reflexivity.
      destruct (Ascii.eqb (Main.first_char arg) "-"%char) eqn:Hd;
        [| reflexivity].
      apply Ascii.eqb_eq in Hd. contradiction.
    + intros ->. unfold Main.main. rewrite Hname. cbn [negb].
      reflexivity.
Qed.

(** ** The further statements on concrete worlds *)

Section OnScenarios.

Import Cache Reference Fixtures Scenarios.

(** The exception of X1 on a run: the remote entry was retrieved and its
    promotion failed, the log call that reports the failure threw a
    std::runtime_error, and [lookup] returns false with the return code 0 of
    the remote entry, not the caller's 7; the file of the entry was written
    and its captured stdout emitted. *)
Lemma unlogged_promotion_hands_back_the_entry_code :
  fst unlogged_promotion_run = Normal (false, 0)
  /\ files (snd unlogged_promotion_run) !! "out.o" = Some "new"
  /\ out (snd unlogged_promotion_run) = "compiled"
  /\ log (snd unlogged_promotion_run)
     = [(INFO, "Remote cache hit (h1): object => out.o");
        (ERROR, "Remote lookup of h1 failed: Unable to write to the log")].
Proof.
  vm_compute. repeat split; reflexivity.
Qed.

(** A witness of X1: the local entry cannot be retrieved, the remote cache
    is out of reach, the log of the reference world never throws, and the
    caller's return code 7 comes back. *)
Lemma miss_leaves_return_code_witness :
  returned_code (fst missed_lookup) = 7.
Proof.
  apply (proj2 (proj2 (miss_leaves_return_code unlimited "h1" object_expected
                         false false 7 (returned_code (fst missed_lookup))
                         mismatching_world (snd missed_lookup)))).
  - intros msg w0 what. simpl. discriminate.
  - left. vm_compute. reflexivity.
Defined.

(** A witness of X2: hashing [gone.h] throws, no manifest is stored and the
    failure is logged. *)
Lemma add_direct_stores_complete_manifests_only_witness :
  (forall d m res,
     ~ In (LocalAddDirect d m res) (snd (snd unreadable_input_run)))
  /\ exists res,
       In (DebugLog ERROR
             "Creation of direct mode entry d2 failed: Unable to read file: gone.h"
             res)
         (snd (snd unreadable_input_run))
       /\ fst unreadable_input_run = res.
Proof.
  apply (proj2 (add_direct_stores_complete_manifests_only unlimited "d2" "h1"
                  ["hdr.h"; "gone.h"] (direct_world "#define X 1")
                  (fst unreadable_input_run)
                  (fst (snd unreadable_input_run))
                  (snd (snd unreadable_input_run))
                  ltac:(vm_compute; reflexivity))
           "gone.h" "Unable to read file: gone.h").
  vm_compute. right. left. reflexivity.
Defined.

(** A witness of X3: a manifest for [hdr.h] is stored under "d2", and the
    direct lookup of "d2" goes on to the regular lookup of "h2". *)
Lemma direct_entry_round_trip_witness :
  exists m,
    hash m = "h2"
    /\ add_direct unlimited "d2" "h2" ["hdr.h"] (direct_world "#define X 1")
       = (Normal tt,
          with_local_manifests
            (<["d2" := m]> (local_manifests (direct_world "#define X 1")))
            (direct_world "#define X 1"))
    /\ forall x allow create rc0,
         let w1 :=
           snd (add_direct unlimited "d2" "h2" ["hdr.h"]
                  (direct_world "#define X 1")) in
         lookup_direct unlimited "d2" x allow create rc0 w1
         = lookup unlimited "h2" x allow create rc0
             (with_stats (add_stats (stats w1) direct_hit)
                (with_log
                   (log w1 ++ [(INFO, direct_hit_line "d2" "h2")])%list w1)).
Proof.
  apply (proj1 (direct_entry_round_trip plain_digest no_dir config_unlimited
                  (direct_world "#define X 1") "d2" "h2" ["hdr.h"])).
  - reflexivity.
  - repeat constructor. vm_compute. eauto.
Defined.

(** A witness of X4: the entry stored under "h1" is a local hit that writes
    [out.o], leaves the stores as they were and counts one local hit. *)
Lemma local_hit_stays_local_witness :
  exists w',
    lookup unlimited "h1" object_expected false false 1 stale_world
    = (Normal (true, 0), w')
    /\ files w'
       = materialized_files object_expected {[ "object" := "old" ]}
           ["object"] (files stale_world)
    /\ out w' = out stale_world ++ "compiled"
    /\ err w' = err stale_world ++ ""
    /\ same_stores stale_world w'
    /\ stats w' = add_stats (stats stale_world) local_hit.
Proof.
  apply (local_hit_stays_local plain_digest no_dir config_unlimited
           stale_world "h1" object_expected false false 1
           (stored_object "old")); vm_compute; reflexivity.
Defined.

(** A witness of X5: the entry added in [built_world] is restored by a
    later lookup, whatever the file system has become. *)
Lemma added_entry_is_restored_witness :
  exists w1,
    add unlimited "h1" object_entry object_expected false built_world
    = (Normal tt, w1)
    /\ forall fs allow' create rc0,
       exists w2,
         lookup unlimited "h1" object_expected allow' create rc0
           (with_files fs w1)
         = (Normal (true, 0), w2)
         /\ (forall file_id f,
               In file_id ["object"] ->
               map_find file_id object_expected = Some f ->
               files w2 !! path f = files built_world !! path f)
         /\ out w2 = out w1 ++ "compiled"
         /\ err w2 = err w1 ++ "".
Proof.
  apply (added_entry_is_restored plain_digest no_dir config_unlimited
           built_world "h1" object_entry object_expected false 128).
  - vm_compute. reflexivity.
  - vm_compute. discriminate.
  - reflexivity.
  - reflexivity.
  - repeat constructor. eexists. split; [reflexivity |].
    vm_compute. eauto.
Defined.

(** A witness of X6, on the local hit of [stale_world]: the lookup, one
    log line and one fetch for the object file, no directory created, then
    stdout and stderr. *)
Lemma local_hit_fetches_each_listed_file_witness :
  exists e,
    snd (snd local_hit_run)
    = (LocalLookup "h1" (Normal (Some e))
       :: CacheCalls.local_retrieval_calls (get_dir_part unlimited) "h1"
            object_expected false false e (file_ids e)
       ++ [PrintRawStdout (std_out e) (Normal tt);
           PrintRawStderr (std_err e) (Normal tt)])%list
    /\ 0 = return_code e
    /\ Forall (fun file_id => map_find file_id object_expected <> None)
         (file_ids e).
Proof.
  apply (local_hit_fetches_each_listed_file unlimited "h1" object_expected
           false false 1 0 stale_world (fst (snd local_hit_run))).
  vm_compute. reflexivity.
Defined.

(** A witness of X7: the local hit is the whole lookup. *)
Lemma remote_cache_is_consulted_after_a_local_miss_only_witness :
  lookup (traced unlimited) "h1" object_expected false false 1
    (stale_world, [])
  = (Normal (true, 0), snd local_hit_run)
  /\ Forall CacheCalls.local_retrieval (snd (snd local_hit_run)).
Proof.
  apply (proj1 (remote_cache_is_consulted_after_a_local_miss_only unlimited
                  "h1" object_expected false false 1 0 stale_world
                  (snd local_hit_run))).
  vm_compute. reflexivity.
Defined.

(** A witness of X8: with the remote cache connected, the entry goes to the
    remote cache with compression mode ALL. *)
Lemma remote_insert_is_gated_witness :
  In (RemoteIsConnected (Normal true)) (snd (snd add_to_both_run))
  /\ read_only_remote (config unlimited) = false.
Proof.
  destruct (proj1 (remote_insert_is_gated unlimited "h2" object_entry
                     object_expected false connected_world
                     (fst add_to_both_run) (fst (snd add_to_both_run))
                     (snd (snd add_to_both_run))
                     ltac:(vm_compute; reflexivity))
              "h2" (remote_entry_of object_entry) object_expected (Normal tt)
              ltac:(vm_compute; tauto))
    as (_ & _ & _ & Hconnected & Hwritable & _).
  split; assumption.
Defined.

(** A witness of X9: the local cache cannot be written, the failure is
    logged and the remote hit stands. *)
Lemma failed_promotion_keeps_the_remote_hit_witness :
  exists logged,
    In (DebugLog ERROR
          (CacheCalls.promotion_error_message "Unable to write to the cache")
          logged) (snd (snd failed_promotion_run))
    /\ forall h d res,
         ~ In (LocalUpdateStats h d res) (snd (snd failed_promotion_run)).
Proof.
  destruct (proj1 (failed_promotion_keeps_the_remote_hit unlimited "h1"
                     object_expected false false 1 unwritable_world
                     (fst failed_promotion_run)
                     (fst (snd failed_promotion_run))
                     (snd (snd failed_promotion_run))
                     ltac:(vm_compute; reflexivity))
              "h1" (promoted_entry unlimited object_entry) object_expected
              false (Raise (runtime_error "Unable to write to the cache"))
              ltac:(vm_compute; tauto))
    as (entry & _ & _ & _ & _ & _ & _ & Hfail).
  destruct (Hfail "Unable to write to the cache" (or_introl eq_refl))
    as (Hnone & logged & Hlog & _).
  exists logged. split; assumption.
Defined.

(** A witness of X10, on a remote hit that is promoted. *)
Lemma remote_hit_fetches_each_listed_file_witness :
  exists e promotion,
    snd (snd remote_hit_run)
    = (RemoteConnect (Normal true)
       :: RemoteLookup "h1" (Normal (Some e))
       :: CacheCalls.remote_retrieval_calls (get_dir_part unlimited) "h1"
            object_expected false e (file_ids e)
       ++ PrintRawStdout (std_out e) (Normal tt)
          :: PrintRawStderr (std_err e) (Normal tt)
          :: promotion)%list
    /\ 0 = return_code e
    /\ Forall (fun file_id => map_find file_id object_expected <> None)
         (file_ids e)
    /\ Forall CacheCalls.promotion_event promotion.
Proof.
  apply (remote_hit_fetches_each_listed_file unlimited "h1" object_expected
           false false 1 0 (remote_world (stored_object "new"))
           (fst (snd remote_hit_run))).
  vm_compute. reflexivity.
Defined.

(** A witness of X11: the size of [out.o] is the one size asked for. *)
Lemma total_size_asks_each_expected_file_once_witness :
  CacheCalls.size_queries (snd (snd size_run))
  = CacheCalls.expected_paths object_expected.
Proof.
  apply (proj1 (proj2 (total_size_asks_each_expected_file_once unlimited
                         object_entry object_expected built_world
                         (fst size_run) (fst (snd size_run))
                         (snd (snd size_run))
                         ltac:(vm_compute; reflexivity)))
           128).
  vm_compute. reflexivity.
Defined.

(** A witness of X12: the local lookup runs out of memory, and the process
    ends. *)
Lemma other_exceptions_end_the_process_witness :
  lookup out_of_memory "h1" object_expected false false 1 empty_world
  = (Terminate, empty_world).
Proof.
  apply (proj1 (other_exceptions_end_the_process out_of_memory "h1"
                  object_expected false false 1 empty_world
                  (std_exception "std::bad_alloc") empty_world
                  ltac:(intros; discriminate))).
  reflexivity.
Defined.

(** A witness of X13: the changed header makes the direct lookup a miss,
    and no regular lookup follows. *)
Lemma regular_lookup_follows_a_direct_hit_witness :
  (forall ev,
     In ev (snd (snd direct_miss_run)) -> CacheCalls.direct_event "d1" ev)
  /\ (fst direct_miss_run = Normal (false, 1)
      \/ fst direct_miss_run = Terminate).
Proof.
  apply (proj2 (regular_lookup_follows_a_direct_hit unlimited "d1"
                  object_expected false false 1 (direct_world "#define X 2")
                  (fst direct_miss_run) (fst (snd direct_miss_run))
                  (snd (snd direct_miss_run))
                  ltac:(vm_compute; reflexivity))
           (Normal tt)).
  vm_compute. tauto.
Defined.

End OnScenarios.

Section OnWrapperScenarios.

Import ProgramWrapper Fixtures Scenarios.

(** A witness of X14: the cached file has no target, the exception is
    caught, and the command is not handled, with return code 1. *)
Lemma handle_command_contains_exceptions_witness :
  returned_code (fst mismatched_hit_run) = 1.
Proof.
  apply (proj1 (handle_command_contains_exceptions (scripted false 0)
                  depfile_wrapper warm_cache (fst mismatched_hit_run)
                  (snd mismatched_hit_run) ltac:(vm_compute; reflexivity))).
  vm_compute. reflexivity.
Defined.

(** A witness of X15, on a warm cache: the tool is not run. *)
Lemma cache_hit_replaces_the_run_witness :
  (forall ev, In ev (snd (snd warm_run)) ->
     match ev with
     | RunWithPrefix _ _ _ => False
     | CacheAdd _ _ _ _ => False
     | _ => True
     end)
  /\ forall rc,
       fst warm_run = Normal (true, rc) ->
       rc = return_code cached_object
       /\ In (Cout (std_out cached_object) (Normal tt)) (snd (snd warm_run))
       /\ In (Cerr (std_err cached_object) (Normal tt)) (snd (snd warm_run)).
Proof.
  apply (proj1 (cache_hit_replaces_the_run (scripted false 0)
                  (object_wrapper []) warm_cache (fst warm_run)
                  (fst (snd warm_run)) (snd (snd warm_run))
                  ltac:(vm_compute; reflexivity))
           "h1" cached_object).
  vm_compute. tauto.
Defined.

(** A witness of X16, on a cold cache: the entry is added under the hash
    that was looked up. *)
Lemma entries_are_keyed_by_the_fingerprint_witness :
  In (CacheLookup "h1" (Normal None)) (snd (snd cold_run))
  /\ In (GetBuildFiles (Normal [("object", "out.o")])) (snd (snd cold_run))
  /\ exists caps,
       In (GetCapabilities (Normal caps)) (snd (snd cold_run))
       /\ false
          = config_hard_links (scripted false 0)
            && hard_links (make_capabilities caps).
Proof.
  apply (proj2 (entries_are_keyed_by_the_fingerprint (scripted false 0)
                  (object_wrapper []) cold_cache (fst cold_run)
                  (fst (snd cold_run)) (snd (snd cold_run))
                  ltac:(vm_compute; reflexivity))
           "h1"
           {| files := [("object", "out.o")]; std_out := "out";
              std_err := ""; return_code := 0 |}
           false (Normal tt)).
  vm_compute. tauto.
Defined.

(** A witness of X17: the default wrapper never hard links, though hard
    links are configured. *)
Lemma default_wrapper_keys_by_command_line_and_program_witness :
  Forall (fun ev => is_link_or_copy ev = false) (snd (snd default_run)).
Proof.
  apply List.Forall_forall.
  apply (proj1 (proj2 (default_wrapper_keys_by_command_line_and_program
                         (scripted true 0) cold_cache (fst default_run)
                         (fst (snd default_run)) (snd (snd default_run))
                         ltac:(vm_compute; reflexivity)))).
Defined.

End OnWrapperScenarios.

Section OnConsoleScenarios.

Import Main MainCalls Scenarios.

(** A witness of X18: [--bogus] is reported as an invalid option. *)
Lemma options_never_run_a_compiler_witness :
  fst bogus_option_run = Normal 1
  /\ In (Cerr ("buildcache" ++ ": invalid option -- " ++ "--bogus" ++ nl))
       (snd (snd bogus_option_run))
  /\ Forall printing (snd (snd bogus_option_run)).
Proof.
  apply (proj2 (proj2 (proj2 (proj2
           (options_never_run_a_compiler console_collaborators "buildcache"
              "--bogus" [] fresh_console (fst bogus_option_run)
              (fst (snd bogus_option_run)) (snd (snd bogus_option_run))
              ltac:(reflexivity) ltac:(reflexivity)
              ltac:(vm_compute; reflexivity))))));
    reflexivity.
Defined.

(** A witness of X19: no wrapper handles [gcc] on the console, the command
    is run as is, and its return code 0 is the exit code. *)
Lemma fallback_runs_the_true_executable_witness :
  fst unwrapped_run = Normal 0.
Proof.
  apply (proj2 (proj2
           (proj1 (proj2
              (fallback_runs_the_true_executable console_collaborators
                 ["gcc"; "-c"; "a.c"] fresh_console (fst unwrapped_run)
                 (fst (snd unwrapped_run)) (snd (snd unwrapped_run))
                 ltac:(vm_compute; reflexivity)))
              ["gcc"; "-c"; "a.c"] false (Normal 0)
              ltac:(vm_compute; tauto)))).
  reflexivity.
Defined.

(** A witness of X20: invoked as [/usr/bin/gcc], [-C] is an argument of the
    compiler. *)
Lemma main_wraps_what_is_not_an_option_witness :
  main console_collaborators "/usr/bin/gcc" ["-C"] fresh_console
  = wrap_compiler_and_exit console_collaborators ["/usr/bin/gcc"; "-C"]
      fresh_console.
Proof.
  apply (proj1 (main_wraps_what_is_not_an_option console_collaborators
                  "/usr/bin/gcc" ["-C"] fresh_console));
    reflexivity.
Defined.

End OnConsoleScenarios.
